(** * PlaywrightSession: request/response correlation over a child process

    A shallow embedding of [_utils/playwright_session.py]: the session
    object, the pump that reads the child's stdout ([_read_stdout]), the
    correlator ([_send_request], [_initialize], [call_tool]), the tool facade
    ([navigate], [snapshot], [click], [type_text], [screenshot], [evaluate],
    [resize], [_extract_text]) and [stop]. Spawning the child ([start],
    [find_chromium_executable]) and the relay of its stderr ([_read_stderr])
    are not part of it.

    Conventions of the embedding.
    - A Python [str] is a [string], one character per code point; the
      characters available are the code points below 256.
    - A Python [int] is a [Z].
    - A value decoded by [json.loads] is a [json]; a decoded object keeps
      the order of its members (association list, first binding wins on
      lookup), as a Python [dict] does.
    - A call returns [Ok v] or [Raise e]; state is passed explicitly.
    - A [queue.Queue] is shared between the pending table and the caller
      that waits on it: queues live on a heap and are known by address.
    - What the interpreter's library and the outside world decide (the JSON
      decoder, base64, the clock, whether a write to the pipe or to the disk
      succeeds, which lines the child prints while a caller is blocked,
      whether the child obeys SIGTERM in time) is an argument of the
      definition that depends on it.
    - Threads: a caller's [_send_request] is cut where it can be overtaken
      (before the write, before and after the wait); the pump handles one
      line at a time. Each piece runs without interruption. *)

From Stdlib Require Import ZArith String Ascii List Bool Lia DecimalString.
From Stdlib Require Import QArith.
From Stdlib Require Import Sorted Permutation.
From stdpp Require Import base option list gmap strings.

Local Open Scope string_scope.
Local Open Scope Z_scope.

(** ** Exceptions and results *)

Inductive exn : Type :=
| RuntimeError (msg : string)
| TimeoutError (msg : string)
| TypeError
| KeyError
| AttributeError
| ValueError
| JSONDecodeError
| OSError (msg : string)
| FileNotFoundError (msg : string)
| UnicodeDecodeError
| RecursionError.

Inductive result (A : Type) : Type :=
| Ok (a : A)
| Raise (e : exn).
Arguments Ok {A} a.
Arguments Raise {A} e.

Definition rbind {A B} (r : result A) (k : A -> result B) : result B :=
  match r with
  | Ok a => k a
  | Raise e => Raise e
  end.

Declare Scope py_scope.
Delimit Scope py_scope with py.
Notation "x <- r ;; k" := (rbind r (fun x => k))
  (at level 100, r at next level, right associativity) : py_scope.
Local Open Scope py_scope.

(** ** Python values that travel in a JSON message *)

(** A Python [float]. A finite one has the value [mant * 2 ^ expo]; the
    program never computes with floats, it prints them and compares them with
    the [int] keys of the pending table. The digits that [float.__repr__]
    prints are CPython's business and are carried along as [shown]. *)
Inductive pyfloat : Type :=
| FFinite (mant expo : Z) (shown : string)
| FInf (negative : bool)
| FNaN.

#[local] Set Warnings "-register-all".
Inductive json : Type :=
| JNull
| JBool (b : bool)
| JInt (n : Z)
| JFloat (f : pyfloat)
| JStr (s : string)
| JArr (items : list json)
| JObj (members : list (string * json)).

(** [d.get(k)] on the members of a dict. *)
Fixpoint assoc (k : string) (kvs : list (string * json)) : option json :=
  match kvs with
  | [] => None
  | (k', v) :: rest => if String.eqb k k' then Some v else assoc k rest
  end.

(** ** Text helpers *)

Definition str_of_int (n : Z) : string := NilZero.string_of_int (Z.to_int n).

Fixpoint join (sep : string) (l : list string) : string :=
  match l with
  | [] => ""
  | [s] => s
  | s :: rest => s ++ sep ++ join sep rest
  end.

Definition code (c : ascii) : N := N_of_ascii c.

(** [str.isspace] for one character, on the code points below 256. *)
Definition isspace (c : ascii) : bool :=
  let n := code c in
  ((9 <=? n) && (n <=? 13) || (28 <=? n) && (n <=? 32) || (n =? 133) || (n =? 160))%N.

Fixpoint lstrip (s : string) : string :=
  match s with
  | String c rest => if isspace c then lstrip rest else s
  | EmptyString => EmptyString
  end.

(** Drops trailing whitespace: a character stays when it is not a space or
    when something that stays follows it. *)
Fixpoint rstrip (s : string) : string :=
  match s with
  | EmptyString => EmptyString
  | String c rest =>
      match rstrip rest with
      | EmptyString => if isspace c then EmptyString else String c EmptyString
      | kept => String c kept
      end
  end.

(** [str.strip()]. *)
Definition strip (s : string) : string := rstrip (lstrip s).

Definition is_empty (s : string) : bool :=
  match s with EmptyString => true | _ => false end.

(** [needle in haystack] for two strings. *)
Fixpoint contains_str (needle haystack : string) : bool :=
  String.prefix needle haystack
  || match haystack with
     | EmptyString => false
     | String _ rest => contains_str needle rest
     end.

(** [s.endswith(suffix)]. *)
Definition endswith (s suffix : string) : bool :=
  let n := String.length s in
  let m := String.length suffix in
  (m <=? n)%nat && String.eqb (String.substring (n - m) m s) suffix.

Definition hex_digit (n : N) : ascii :=
  ascii_of_N (if (n <? 10)%N then 48 + n else 87 + n)%N.

Definition hex2 (n : N) : string :=
  String (hex_digit (n / 16)) (String (hex_digit (n mod 16)) EmptyString).


(** ** Printing Python values *)

(** [repr] of one character of a [str] written between [quote]s. *)
Definition repr_char (quote c : ascii) : string :=
  let n := code c in
  if Ascii.eqb c quote || Ascii.eqb c "\"%char then String "\"%char (String c EmptyString)
  else if (n =? 9)%N then "\t"
  else if (n =? 10)%N then "\n"
  else if (n =? 13)%N then "\r"
  else if (n <? 32)%N || (n =? 127)%N then "\x" ++ hex2 n
  else if (n <? 127)%N then String c EmptyString
  else if (161 <=? n)%N && negb (n =? 173)%N then String c EmptyString
  else "\x" ++ hex2 n.

Fixpoint concat_map (f : ascii -> string) (s : string) : string :=
  match s with
  | EmptyString => EmptyString
  | String c rest => f c ++ concat_map f rest
  end.

Definition apostrophe : ascii := ascii_of_N 39.
Definition dquote : ascii := ascii_of_N 34.

(** [repr(s)] for a [str]: single quotes, unless the text has a single quote
    and no double quote. *)
Definition repr_str (s : string) : string :=
  let quote :=
    if contains_str (String apostrophe EmptyString) s
       && negb (contains_str (String dquote EmptyString) s)
    then dquote else apostrophe in
  String quote (concat_map (repr_char quote) s) ++ String quote EmptyString.

(** [repr(f)] for a [float]. *)
Definition repr_float (f : pyfloat) : string :=
  match f with
  | FFinite _ _ shown => shown
  | FInf false => "inf"
  | FInf true => "-inf"
  | FNaN => "nan"
  end.

(** The text [repr(v)] returns, when it returns. *)
Fixpoint repr_text (v : json) : string :=
  match v with
  | JNull => "None"
  | JBool true => "True"
  | JBool false => "False"
  | JInt n => str_of_int n
  | JFloat f => repr_float f
  | JStr s => repr_str s
  | JArr items => "[" ++ join ", " (map repr_text items) ++ "]"
  | JObj members =>
      "{" ++ join ", " (map (fun kv => match kv with
                                       | (k, x) => repr_str k ++ ": " ++ repr_text x
                                       end) members) ++ "}"
  end.

(** [repr] and [json.dumps] call themselves for every level of a nested
    value, and Python gives up with [RecursionError] when that takes it past
    its recursion limit. Whether a value can still be printed depends on the
    limit and on how many calls are on the stack where it is printed, so it
    is for the interpreter to say: [can_repr] for [repr] and [str],
    [can_dump] for [json.dumps] with an indent (the encoder written in
    Python). *)
Record Limits : Type := mkLimits {
  can_repr : json -> bool;
  can_dump : json -> bool;
}.

(** How many containers deep a value goes. *)
Fixpoint nesting (v : json) : nat :=
  match v with
  | JArr items => S (fold_right Nat.max 0%nat (map nesting items))
  | JObj members => S (fold_right Nat.max 0%nat (map (fun kv => nesting (snd kv)) members))
  | _ => 0
  end.

(** [repr(v)]. *)
Definition py_repr (lim : Limits) (v : json) : result string :=
  if can_repr lim v then Ok (repr_text v) else Raise RecursionError.

(** The text [str(v)] returns, when it returns. *)
Definition str_text (v : json) : string :=
  match v with
  | JStr s => s
  | _ => repr_text v
  end.

(** [str(v)], which is what an f-string field [{v}] prints: a [str] is
    printed as it is, anything else through its [repr]. *)
Definition py_str (lim : Limits) (v : json) : result string :=
  match v with
  | JStr s => Ok s
  | _ => py_repr lim v
  end.

(** One character inside a JSON string literal, [ensure_ascii=True]. *)
Definition json_escape_char (c : ascii) : string :=
  let n := code c in
  if (n =? 34)%N then String "\"%char (String dquote EmptyString)
  else if (n =? 92)%N then "\\"
  else if (n =? 10)%N then "\n"
  else if (n =? 13)%N then "\r"
  else if (n =? 9)%N then "\t"
  else if (n =? 8)%N then "\b"
  else if (n =? 12)%N then "\f"
  else if (32 <=? n)%N && (n <=? 126)%N then String c EmptyString
  else "\u00" ++ hex2 n.

Definition json_string (s : string) : string :=
  String dquote (concat_map json_escape_char s) ++ String dquote EmptyString.

Definition json_float (f : pyfloat) : string :=
  match f with
  | FFinite _ _ shown => shown
  | FInf false => "Infinity"
  | FInf true => "-Infinity"
  | FNaN => "NaN"
  end.

Definition newline : string := String (ascii_of_N 10) EmptyString.

Fixpoint spaces (n : nat) : string :=
  match n with
  | O => EmptyString
  | S k => String " "%char (spaces k)
  end.

(** [json.dumps(v)] with the default separators, one line. *)
Fixpoint json_dumps (v : json) : string :=
  match v with
  | JNull => "null"
  | JBool true => "true"
  | JBool false => "false"
  | JInt n => str_of_int n
  | JFloat f => json_float f
  | JStr s => json_string s
  | JArr items => "[" ++ join ", " (map json_dumps items) ++ "]"
  | JObj members =>
      "{" ++ join ", " (map (fun kv => match kv with
                                       | (k, x) => json_string k ++ ": " ++ json_dumps x
                                       end) members) ++ "}"
  end.

(** [json.dumps(v, indent=step)], for a value that sits [level] containers
    deep: every item of a non-empty container on a line of its own. *)
Fixpoint json_dumps_at (step level : nat) (v : json) : string :=
  let inner := newline ++ spaces (step * S level) in
  let outer := newline ++ spaces (step * level) in
  match v with
  | JArr [] => "[]"
  | JArr items =>
      "[" ++ inner ++ join ("," ++ inner) (map (json_dumps_at step (S level)) items)
          ++ outer ++ "]"
  | JObj [] => "{}"
  | JObj members =>
      "{" ++ inner
          ++ join ("," ++ inner)
               (map (fun kv => match kv with
                               | (k, x) => json_string k ++ ": " ++ json_dumps_at step (S level) x
                               end) members)
          ++ outer ++ "}"
  | _ => json_dumps v
  end.

(** [json.dumps(v, indent=step)]. *)
Definition json_dumps_indent (lim : Limits) (step : nat) (v : json) : result string :=
  if can_dump lim v then Ok (json_dumps_at step 0 v) else Raise RecursionError.

(** ** Operators of Python on decoded values *)

Definition is_str (s : string) (v : json) : bool :=
  match v with JStr t => String.eqb t s | _ => false end.

(** [key in container], the key a [str]. *)
Definition py_contains (key : string) (container : json) : result bool :=
  match container with
  | JObj members => Ok (bool_decide (is_Some (assoc key members)))
  | JArr items => Ok (existsb (is_str key) items)
  | JStr s => Ok (contains_str key s)
  | _ => Raise TypeError
  end.

(** [container[key]], the key a [str]. *)
Definition py_getitem (container : json) (key : string) : result json :=
  match container with
  | JObj members =>
      match assoc key members with
      | Some v => Ok v
      | None => Raise KeyError
      end
  | _ => Raise TypeError
  end.

(** [item.get(key, default)]: only a dict has the method. *)
Definition py_get (item : json) (key : string) (default : json) : result json :=
  match item with
  | JObj members => Ok (from_option id default (assoc key members))
  | _ => Raise AttributeError
  end.

(** The items that [for item in container] visits. *)
Definition py_iter (container : json) : result (list json) :=
  match container with
  | JArr items => Ok items
  | JObj members => Ok (map (fun kv => JStr (fst kv)) members)
  | JStr s => Ok (map (fun c => JStr (String c EmptyString)) (list_ascii_of_string s))
  | _ => Raise TypeError
  end.

(** The integer a float is equal to, if there is one. *)
Definition float_as_int (f : pyfloat) : option Z :=
  match f with
  | FFinite m e _ =>
      if 0 <=? e then Some (m * 2 ^ e)
      else if m mod 2 ^ (- e) =? 0 then Some (m / 2 ^ (- e))
      else None
  | _ => None
  end.

(** Looking [v] up in a dict whose keys are all [int]s: [Ok (Some k)] when
    [v] hashes and compares equal to the int [k] ([True == 1], [2.0 == 2]),
    [Ok None] when it can equal no int, [TypeError] when it is unhashable. *)
Definition int_key (v : json) : result (option Z) :=
  match v with
  | JInt n => Ok (Some n)
  | JBool b => Ok (Some (if b then 1 else 0))
  | JFloat f => Ok (float_as_int f)
  | JNull | JStr _ => Ok None
  | JArr _ | JObj _ => Raise TypeError
  end.

(** [sep.join(texts)]: every item has to be a [str]. *)
Fixpoint all_str (texts : list json) : result (list string) :=
  match texts with
  | [] => Ok []
  | JStr s :: rest => ss <- all_str rest;; Ok (s :: ss)
  | _ :: _ => Raise TypeError
  end.

Definition py_join (sep : string) (texts : list json) : result string :=
  ss <- all_str texts;; Ok (join sep ss).

(** ** pathlib, POSIX flavour *)

Record Path : Type := mkPath { root : string; parts : list string }.

(** Splits at every ["/"]; [cur] is the component being read, reversed. *)
Fixpoint split_slash (s : string) (cur : list ascii) : list string :=
  match s with
  | EmptyString => [string_of_list_ascii (rev cur)]
  | String c rest =>
      if Ascii.eqb c "/"%char
      then string_of_list_ascii (rev cur) :: split_slash rest []
      else split_slash rest (c :: cur)
  end.

Definition path_parts (s : string) : list string :=
  filter (fun p => p ≠ "" ∧ p ≠ ".") (split_slash s []).

(** Exactly two leading slashes are kept, any other number counts as one. *)
Definition path_root (s : string) : string :=
  if String.prefix "///" s then "/"
  else if String.prefix "//" s then "//"
  else if String.prefix "/" s then "/"
  else "".

(** [Path(s)]. *)
Definition path_of (s : string) : Path :=
  {| root := path_root s; parts := path_parts s |}.

Definition is_absolute (p : Path) : bool := negb (is_empty (root p)).

(** [p / name]: an absolute [name] replaces [p]. *)
Definition path_join (p : Path) (name : string) : Path :=
  let q := path_of name in
  if is_absolute q then q
  else {| root := root p; parts := parts p ++ parts q |}.

(** [str(p)]. *)
Definition path_str (p : Path) : string :=
  match root p, parts p with
  | EmptyString, [] => "."
  | r, ps => r ++ join "/" ps
  end.

(** ** The session and what it reaches *)

(** A [queue.Queue] lives on a heap and is known by its address: the pending
    table and the blocked caller hold the same queue. *)
Abbreviation loc := nat.

Inductive child_state : Type :=
| ChildRunning
| ChildExited (status : Z).

(** A [subprocess.Popen] handle with the pipes that were asked for. *)
Record Popen : Type := mkPopen {
  has_stdin : bool;
  has_stdout : bool;
  has_stderr : bool;
  child : child_state;
}.

Inductive thread_state : Type :=
| Alive
| Finished
| Died (e : exn).

(** The attributes of a [PlaywrightSession], followed by the objects outside
    it that its methods act on. *)
Record Session : Type := mkSession {
  process : option Popen;
  msg_id : Z;
  pending_responses : gmap Z loc;
  stdout_thread : option thread_state;
  stderr_thread : option thread_state;
  running : bool;
  output_dir : Path;
  (* outside the object *)
  queues : list (list json);          (* the queue heap: items of each queue, oldest first *)
  child_stdin : list string;          (* what was written to the child's stdin, oldest first *)
  files : gmap string (list Byte.byte);
  console : list string;              (* what print() wrote, oldest first *)
}.

Definition set_process (p : option Popen) (s : Session) : Session :=
  mkSession p (msg_id s) (pending_responses s) (stdout_thread s) (stderr_thread s)
    (running s) (output_dir s) (queues s) (child_stdin s) (files s) (console s).
Definition set_msg_id (n : Z) (s : Session) : Session :=
  mkSession (process s) n (pending_responses s) (stdout_thread s) (stderr_thread s)
    (running s) (output_dir s) (queues s) (child_stdin s) (files s) (console s).
Definition set_pending (m : gmap Z loc) (s : Session) : Session :=
  mkSession (process s) (msg_id s) m (stdout_thread s) (stderr_thread s)
    (running s) (output_dir s) (queues s) (child_stdin s) (files s) (console s).
Definition set_stdout_thread (t : option thread_state) (s : Session) : Session :=
  mkSession (process s) (msg_id s) (pending_responses s) t (stderr_thread s)
    (running s) (output_dir s) (queues s) (child_stdin s) (files s) (console s).
Definition set_running (b : bool) (s : Session) : Session :=
  mkSession (process s) (msg_id s) (pending_responses s) (stdout_thread s) (stderr_thread s)
    b (output_dir s) (queues s) (child_stdin s) (files s) (console s).
Definition set_queues (qs : list (list json)) (s : Session) : Session :=
  mkSession (process s) (msg_id s) (pending_responses s) (stdout_thread s) (stderr_thread s)
    (running s) (output_dir s) qs (child_stdin s) (files s) (console s).
Definition set_child_stdin (w : list string) (s : Session) : Session :=
  mkSession (process s) (msg_id s) (pending_responses s) (stdout_thread s) (stderr_thread s)
    (running s) (output_dir s) (queues s) w (files s) (console s).
Definition set_files (f : gmap string (list Byte.byte)) (s : Session) : Session :=
  mkSession (process s) (msg_id s) (pending_responses s) (stdout_thread s) (stderr_thread s)
    (running s) (output_dir s) (queues s) (child_stdin s) f (console s).
Definition print (line : string) (s : Session) : Session :=
  mkSession (process s) (msg_id s) (pending_responses s) (stdout_thread s) (stderr_thread s)
    (running s) (output_dir s) (queues s) (child_stdin s) (files s) (console s ++ [line])%list.

(** [PlaywrightSession(output_dir)], run in directory [cwd]: the counter
    starts at 1 and nothing is pending. ([mkdir] makes sure the directory
    exists; directories are not tracked.) *)
Definition __init__ (dir : option string) (cwd : string) : Session :=
  {| process := None;
     msg_id := 1;
     pending_responses := ∅;
     stdout_thread := None;
     stderr_thread := None;
     running := false;
     output_dir := match dir with
                   | Some d => if is_empty d then path_of cwd else path_of d
                   | None => path_of cwd
                   end;
     queues := [];
     child_stdin := [];
     files := ∅;
     console := [] |}.

(** [del d[k]]. *)
Definition py_del (k : Z) (s : Session) : result Session :=
  match pending_responses s !! k with
  | Some _ => Ok (set_pending (delete k (pending_responses s)) s)
  | None => Raise KeyError
  end.

(** [Queue()]: a new, empty queue at the next free address. *)
Definition queue_new (s : Session) : loc * Session :=
  (length (queues s), set_queues (queues s ++ [[]])%list s).

(** [q.put(item)]. *)
Definition queue_put (q : loc) (item : json) (s : Session) : Session :=
  set_queues (alter (fun items => (items ++ [item])%list) q (queues s)) s.

(** The items waiting in [q]. *)
Definition slot (q : loc) (s : Session) : list json :=
  default [] (queues s !! q).

(** ** What a pipe in text mode gives *)

(** The pipes are opened with [text=True]: iterating over one gives its next
    line as a [str], or raises [UnicodeDecodeError] when the bytes of the
    line are not text in the encoding of the locale. *)
Inductive chunk : Type :=
| Text (line : string)
| Undecodable.



(** ** The pump and the correlator *)

(** What the outside decides during one [_send_request]: whether the write
    to the pipe raises (and with which text), and the lines the child prints,
    and the pump gets to handle, while the caller is blocked in [get]. *)
Record SendEnv : Type := mkSendEnv {
  write_error : option string;
  arrivals : list string;
}.

Section Correlator.

(** [json.loads]: the decoded value, [JSONDecodeError], or one of the other
    exceptions the decoder has (an integer literal that is too long, nesting
    that is too deep). *)
Variable json_loads : string -> result json.

(** Lines 100-101, the body of the [try] once the line is decoded. *)
Definition route (msg : json) (s : Session) : result Session :=
  has_id <- py_contains "id" msg;;
  if has_id : bool then
    v <- py_getitem msg "id";;
    k <- int_key v;;
    match k ≫= (fun k => pending_responses s !! k) with
    | Some q => Ok (queue_put q msg s)
    | None => Ok s
    end
  else Ok s.

(** Lines 95-103, the body of the loop for one line. [Raise e] is an
    exception that leaves the loop. *)
Definition pump_line (line : string) (s : Session) : result Session :=
  let line := strip line in
  if is_empty line then Ok s
  else match json_loads line with
       | Ok msg => route msg s
       | Raise JSONDecodeError => Ok s
       | Raise e => Raise e
       end.

(** Lines 94-103: the loop over everything the stream holds until it
    closes. An exception leaves the loop with the state the earlier lines
    made. *)
Fixpoint read_loop (lines : list string) (s : Session) : result unit * Session :=
  match lines with
  | [] => (Ok tt, s)
  | line :: rest =>
      match pump_line line s with
      | Ok s' => read_loop rest s'
      | Raise e => (Raise e, s)
      end
  end.

(** Lines 91-103, [lines] being what the child prints before its stdout
    closes. *)
Definition _read_stdout (lines : list string) (s : Session) : result unit * Session :=
  match process s with
  | Some p => if has_stdout p then read_loop lines s else (Ok tt, s)
  | None => (Ok tt, s)
  end.

(** The thread that runs [_read_stdout] ends when the function returns or
    raises. *)
Definition run_stdout_thread (lines : list string) (s : Session) : Session :=
  match stdout_thread s with
  | Some Alive =>
      match _read_stdout lines s with
      | (Ok _, s') => set_stdout_thread (Some Finished) s'
      | (Raise e, s') => set_stdout_thread (Some (Died e)) s'
      end
  | _ => s
  end.

(** The pump at work on the lines that arrive while the stream stays open:
    it handles them in order for as long as its thread is alive; the line
    that raises is where the state stops changing. *)
Fixpoint pump_lines (lines : list string) (s : Session) : Session :=
  match lines with
  | [] => s
  | line :: rest =>
      match stdout_thread s with
      | Some Alive =>
          match pump_line line s with
          | Ok s' => pump_lines rest s'
          | Raise e => set_stdout_thread (Some (Died e)) s
          end
      | _ => s
      end
  end.

Definition started (s : Session) : bool :=
  match process s with
  | Some p => has_stdin p
  | None => false
  end.

Definition request (method : string) (params : option (list (string * json))) (id : Z) : json :=
  JObj [("jsonrpc", JStr "2.0"); ("method", JStr method);
        ("params", JObj (default [] params)); ("id", JInt id)].

(** Lines 128-136: the guard, the id, the queue, the table entry. *)
Definition send_prepare (s : Session) : result (Z * loc) * Session :=
  if started s then
    let id := msg_id s in
    let s := set_msg_id (msg_id s + 1) s in
    let '(q, s) := queue_new s in
    (Ok (id, q), set_pending (<[id := q]> (pending_responses s)) s)
  else (Raise (RuntimeError "Server not started"), s).

(** Lines 138-143: the request goes out as one line, or the entry is taken
    back and the failure reported. *)
Definition send_write (req : json) (id : Z) (failure : option string) (s : Session)
  : result unit * Session :=
  match failure with
  | None => (Ok tt, set_child_stdin (child_stdin s ++ [(json_dumps req ++ newline)%string])%list s)
  | Some e =>
      match py_del id s with
      | Ok s' => (Raise (RuntimeError ("Send failed: " ++ e)), s')
      | Raise e' => (Raise e', s)
      end
  end.

(** Lines 145-151, at the moment [get] hands over an item or gives up.
    [Queue.get] refuses a negative timeout with [ValueError], which the
    handler for [queue.Empty] does not catch. *)
Definition send_await (id : Z) (q : loc) (timeout : Z) (s : Session)
  : result json * Session :=
  if timeout <? 0 then (Raise ValueError, s)
  else match slot q s with
       | response :: rest =>
           let s := set_queues (<[q := rest]> (queues s)) s in
           match py_del id s with
           | Ok s' => (Ok response, s')
           | Raise e => (Raise e, s)
           end
       | [] =>
           match py_del id s with
           | Ok s' => (Raise (TimeoutError ("Request timed out after " ++ str_of_int timeout ++ "s")), s')
           | Raise e => (Raise e, s)
           end
       end.

Definition _send_request (method : string) (params : option (list (string * json)))
    (timeout : Z) (env : SendEnv) (s : Session) : result json * Session :=
  match send_prepare s with
  | (Raise e, s) => (Raise e, s)
  | (Ok (id, q), s) =>
      match send_write (request method params id) id (write_error env) s with
      | (Raise e, s) => (Raise e, s)
      | (Ok _, s) => send_await id q timeout (pump_lines (arrivals env) s)
      end
  end.

(** Lines 113-123. *)
Definition _initialize (lim : Limits) (env : SendEnv) (s : Session) : result unit * Session :=
  match _send_request "initialize"
          (Some [("protocolVersion", JStr "2024-11-05");
                 ("capabilities", JObj []);
                 ("clientInfo", JObj [("name", JStr "playwright-session");
                                      ("version", JStr "1.0.0")])])
          60 env s with
  | (Raise e, s) => (Raise e, s)
  | (Ok response, s) =>
      (has_error <- py_contains "error" response;;
       if has_error : bool then
         err <- py_getitem response "error";;
         text <- py_str lim err;;
         Raise (RuntimeError ("Initialize failed: " ++ text))
       else Ok tt, s)
  end.

Definition call_tool (name : string) (arguments : list (string * json)) (timeout : Z)
    (env : SendEnv) (s : Session) : result json * Session :=
  _send_request "tools/call" (Some [("name", JStr name); ("arguments", JObj arguments)])
    timeout env s.

End Correlator.

(** Lines 94-103 on what the pipe gives: the [for] statement, which is
    outside the [try], raises on bytes that do not decode; a line goes
    through the body of the loop. *)
Definition pump_chunk (json_loads : string -> result json) (c : chunk) (s : Session)
  : result Session :=
  match c with
  | Text line => pump_line json_loads line s
  | Undecodable => Raise UnicodeDecodeError
  end.

Fixpoint read_stream (json_loads : string -> result json) (chunks : list chunk) (s : Session)
  : result unit * Session :=
  match chunks with
  | [] => (Ok tt, s)
  | c :: rest =>
      match pump_chunk json_loads c s with
      | Ok s' => read_stream json_loads rest s'
      | Raise e => (Raise e, s)
      end
  end.

(** ** The tool facade *)

(** The [text] of every item whose [type] is ["text"], in order (the loop of
    [_extract_text]); an item without a [text] gives the empty string. *)
Fixpoint collect_texts (items : list json) : result (list json) :=
  match items with
  | [] => Ok []
  | item :: rest =>
      ty <- py_get item "type" JNull;;
      if is_str "text" ty then
        t <- py_get item "text" (JStr "");;
        ts <- collect_texts rest;;
        Ok (t :: ts)
      else collect_texts rest
  end.

(** ["result" in result and "content" in result["result"]], [result] the reply. *)
Definition has_content (reply : json) : result bool :=
  has_result <- py_contains "result" reply;;
  if has_result : bool then
    r <- py_getitem reply "result";;
    py_contains "content" r
  else Ok false.

(** Lines 209-219. *)
Definition _extract_text (lim : Limits) (reply : json) : result string :=
  has_error <- py_contains "error" reply;;
  if has_error : bool then
    err <- py_getitem reply "error";;
    text <- py_str lim err;;
    Ok ("Error: " ++ text)
  else
    content <- has_content reply;;
    if content : bool then
      r <- py_getitem reply "result";;
      c <- py_getitem r "content";;
      items <- py_iter c;;
      texts <- collect_texts items;;
      py_join newline texts
    else json_dumps_indent lim 2 reply.

(** The [data] of the first item whose [type] is ["image"] (the loop of
    [screenshot], which returns at that item). *)
Fixpoint first_image (items : list json) : result (option json) :=
  match items with
  | [] => Ok None
  | item :: rest =>
      ty <- py_get item "type" JNull;;
      if is_str "image" ty then
        data <- py_get item "data" (JStr "");;
        Ok (Some data)
      else first_image rest
  end.

(** What the outside decides during one [screenshot]: the clock, as
    [strftime] prints it, whether the file can be written, and the exchange
    with the child. *)
Record ShotEnv : Type := mkShotEnv {
  now : string;
  disk_error : option string;
  exchange : SendEnv;
}.

Section Facade.

Variable json_loads : string -> result json.

(** What the interpreter can print where the operation runs. *)
Variable lim : Limits.

(** [base64.b64decode] on a [str]: the bytes, or [ValueError] (which
    [binascii.Error] is a kind of). *)
Variable b64decode : string -> result (list Byte.byte).

(** The two lines every text-returning operation ends with. *)
Definition returning_text (name : string) (arguments : list (string * json))
    (env : SendEnv) (s : Session) : result string * Session :=
  match call_tool json_loads name arguments 60 env s with
  | (Ok reply, s) => (_extract_text lim reply, s)
  | (Raise e, s) => (Raise e, s)
  end.

Definition navigate (url : string) :=
  returning_text "browser_navigate" [("url", JStr url)].

Definition snapshot :=
  returning_text "browser_snapshot" [].

Definition click (element ref : string) :=
  returning_text "browser_click" [("element", JStr element); ("ref", JStr ref)].

Definition type_text (element ref text : string) (submit : bool) :=
  returning_text "browser_type"
    [("element", JStr element); ("ref", JStr ref); ("text", JStr text);
     ("submit", JBool submit)].

Definition evaluate (script : string) :=
  returning_text "browser_evaluate" [("function", JStr script)].

Definition resize (width height : Z) :=
  returning_text "browser_resize" [("width", JInt width); ("height", JInt height)].

(** [base64.b64decode(data)] for whatever [item.get("data", "")] gave. *)
Definition decode_data (data : json) : result (list Byte.byte) :=
  match data with
  | JStr text => b64decode text
  | _ => Raise TypeError
  end.

(** [filepath.write_bytes(data)]. *)
Definition write_bytes (filepath : Path) (data : list Byte.byte) (failure : option string)
    (s : Session) : result Session :=
  match failure with
  | None => Ok (set_files (<[path_str filepath := data]> (files s)) s)
  | Some e => Raise (OSError e)
  end.

(** Lines 181-184: the file name. *)
Definition shot_name (name : option string) (now : string) : string :=
  let name := match name with
              | Some n => if is_empty n then now else n
              | None => now
              end in
  if endswith name ".png" then name else name ++ ".png".

(** Lines 189-197: what is done with the reply. *)
Definition shot_reply (filepath : Path) (reply : json) (failure : option string)
    (s : Session) : result string * Session :=
  let failed := (text <- py_str lim reply;; Ok ("Screenshot failed: " ++ text), s) in
  match has_content reply with
  | Raise e => (Raise e, s)
  | Ok false => failed
  | Ok true =>
      match (r <- py_getitem reply "result";;
             c <- py_getitem r "content";;
             items <- py_iter c;;
             first_image items) with
      | Raise e => (Raise e, s)
      | Ok None => failed
      | Ok (Some data) =>
          match (img <- decode_data data;;
                 write_bytes filepath img failure s) with
          | Raise e => (Raise e, s)
          | Ok s =>
              (Ok (path_str filepath),
               print ("Screenshot saved: " ++ path_str filepath) s)
          end
      end
  end.

(** Lines 179-197. *)
Definition screenshot (name : option string) (full_page : bool) (env : ShotEnv)
    (s : Session) : result string * Session :=
  let filepath := path_join (output_dir s) (shot_name name (now env)) in
  match call_tool json_loads "browser_take_screenshot" [("fullPage", JBool full_page)] 60
          (exchange env) s with
  | (Ok reply, s) => shot_reply filepath reply (disk_error env) s
  | (Raise e, s) => (Raise e, s)
  end.

End Facade.

(** ** Stopping *)

(** [terminate()] then [wait(timeout=5)], [kill()] when the wait runs out.
    Whether the child is gone within the five seconds is for it to decide. *)
Definition shut_down (exits_in_time : bool) (p : Popen) : Popen :=
  match child p with
  | ChildExited _ => p
  | ChildRunning =>
      mkPopen (has_stdin p) (has_stdout p) (has_stderr p)
        (ChildExited (if exits_in_time then -15 else -9))
  end.

(** Lines 221-230. *)
Definition stop (exits_in_time : bool) (s : Session) : Session :=
  let s := set_running false s in
  match process s with
  | Some p => print "Browser closed." (set_process (Some (shut_down exits_in_time p)) s)
  | None => s
  end.

(** ** Decoders to run the model with

    [json.loads] and [base64.b64decode] belong to Python's library, and
    every statement below is made for an arbitrary decoder. To run the
    definitions on sample lines, [Sample] decodes a fragment of each format
    the way the library does: JSON without fractions, exponents and escapes
    above [ÿ], base64 without stray characters. Outside its fragment a
    sample decoder reports a decoding error. *)
Module Sample.

Definition is_ws (c : ascii) : bool :=
  let n := code c in ((n =? 32) || (n =? 9) || (n =? 10) || (n =? 13))%N.

Fixpoint skip_ws (s : string) : string :=
  match s with
  | String c rest => if is_ws c then skip_ws rest else s
  | EmptyString => EmptyString
  end.

Definition is_digit (c : ascii) : bool :=
  let n := code c in ((48 <=? n) && (n <=? 57))%N.

Definition hex_value (c : ascii) : option N :=
  let n := code c in
  if ((48 <=? n) && (n <=? 57))%N then Some (n - 48)%N
  else if ((97 <=? n) && (n <=? 102))%N then Some (n - 87)%N
  else if ((65 <=? n) && (n <=? 70))%N then Some (n - 55)%N
  else None.

(** The inside of a string literal, after the opening quote: the text and
    what follows the closing quote. [acc] is the text so far, reversed. *)
Fixpoint string_body (s : string) (acc : list ascii) : option (string * string) :=
  match s with
  | EmptyString => None
  | String c rest =>
      if Ascii.eqb c dquote then Some (string_of_list_ascii (rev acc), rest)
      else if (code c <? 32)%N then None
      else if Ascii.eqb c "\"%char then
        match rest with
        | String e rest' =>
            let plain (n : N) := string_body rest' (ascii_of_N n :: acc) in
            if Ascii.eqb e dquote then plain 34%N
            else if Ascii.eqb e "\"%char then plain 92%N
            else if Ascii.eqb e "/"%char then plain 47%N
            else if Ascii.eqb e "b"%char then plain 8%N
            else if Ascii.eqb e "f"%char then plain 12%N
            else if Ascii.eqb e "n"%char then plain 10%N
            else if Ascii.eqb e "r"%char then plain 13%N
            else if Ascii.eqb e "t"%char then plain 9%N
            else if Ascii.eqb e "u"%char then
              match rest' with
              | String h1 (String h2 (String h3 (String h4 rest''))) =>
                  match hex_value h1, hex_value h2, hex_value h3, hex_value h4 with
                  | Some 0%N, Some 0%N, Some a, Some b =>
                      string_body rest'' (ascii_of_N (16 * a + b) :: acc)
                  | _, _, _, _ => None
                  end
              | _ => None
              end
            else None
        | EmptyString => None
        end
      else string_body rest (c :: acc)
  end.

Definition starts_string (s : string) : bool :=
  match s with
  | String c _ => Ascii.eqb c dquote
  | EmptyString => false
  end.

(** A string literal at the head of [s]. *)
Definition string_literal (s : string) : option (string * string) :=
  match s with
  | String c rest => if Ascii.eqb c dquote then string_body rest [] else None
  | EmptyString => None
  end.

Fixpoint digits (s : string) (acc : Z) : Z * string :=
  match s with
  | String c rest =>
      if is_digit c then digits rest (10 * acc + Z.of_N (code c - 48)) else (acc, s)
  | EmptyString => (acc, s)
  end.

(** An integer literal: no leading zero, no fraction or exponent after it. *)
Definition integer (s : string) : option (Z * string) :=
  let '(negative, s) :=
    match s with
    | String "-"%char rest => (true, rest)
    | _ => (false, s)
    end in
  match s with
  | String c rest =>
      if is_digit c then
        let '(n, rest) := if Ascii.eqb c "0"%char then (0, rest) else digits s 0 in
        match rest with
        | String "."%char _ | String "e"%char _ | String "E"%char _ => None
        | _ => Some (if negative : bool then - n else n, rest)
        end
      else None
  | EmptyString => None
  end.

(** [d[k] = v] on the members of a dict under construction. *)
Fixpoint dict_set (k : string) (v : json) (members : list (string * json))
  : list (string * json) :=
  match members with
  | [] => [(k, v)]
  | (k', v') :: rest =>
      if String.eqb k k' then (k, v) :: rest else (k', v') :: dict_set k v rest
  end.

Definition after (word : string) (v : json) (s : string) : option (json * string) :=
  if String.prefix word s
  then Some (v, String.substring (String.length word) (String.length s - String.length word) s)
  else None.

(** One value and what follows it. [fuel] bounds the nesting and the number
    of items, the length of the text is enough. *)
Fixpoint value (fuel : nat) (s : string) : option (json * string) :=
  match fuel with
  | O => None
  | S fuel =>
      match skip_ws s with
      | String "{"%char rest =>
          match skip_ws rest with
          | String "}"%char rest' => Some (JObj [], rest')
          | _ => members fuel rest []
          end
      | String "["%char rest =>
          match skip_ws rest with
          | String "]"%char rest' => Some (JArr [], rest')
          | _ => elements fuel rest []
          end
      | String "t"%char _ as t => after "true" (JBool true) t
      | String "f"%char _ as t => after "false" (JBool false) t
      | String "n"%char _ as t => after "null" JNull t
      | String "N"%char _ as t => after "NaN" (JFloat FNaN) t
      | String "I"%char _ as t => after "Infinity" (JFloat (FInf false)) t
      | String "-"%char (String "I"%char _) as t => after "-Infinity" (JFloat (FInf true)) t
      | t =>
          if starts_string t then
            match string_literal t with
            | Some (text, rest) => Some (JStr text, rest)
            | None => None
            end
          else
            match integer t with
            | Some (n, rest) => Some (JInt n, rest)
            | None => None
            end
      end
  end
with elements (fuel : nat) (s : string) (acc : list json) : option (json * string) :=
  match fuel with
  | O => None
  | S fuel =>
      match value fuel s with
      | Some (v, rest) =>
          match skip_ws rest with
          | String ","%char rest' => elements fuel rest' (acc ++ [v])%list
          | String "]"%char rest' => Some (JArr (acc ++ [v])%list, rest')
          | _ => None
          end
      | None => None
      end
  end
with members (fuel : nat) (s : string) (acc : list (string * json)) : option (json * string) :=
  match fuel with
  | O => None
  | S fuel =>
      match string_literal (skip_ws s) with
      | Some (k, rest) =>
          match skip_ws rest with
          | String ":"%char rest =>
              match value fuel rest with
              | Some (v, rest) =>
                  match skip_ws rest with
                  | String ","%char rest' => members fuel rest' (dict_set k v acc)
                  | String "}"%char rest' => Some (JObj (dict_set k v acc), rest')
                  | _ => None
                  end
              | None => None
              end
          | _ => None
          end
      | None => None
      end
  end.

Definition json_loads (s : string) : result json :=
  match value (S (String.length s)) s with
  | Some (v, rest) => if is_empty (skip_ws rest) then Ok v else Raise JSONDecodeError
  | None => Raise JSONDecodeError
  end.

Definition b64_value (c : ascii) : option N :=
  let n := code c in
  if ((65 <=? n) && (n <=? 90))%N then Some (n - 65)%N
  else if ((97 <=? n) && (n <=? 122))%N then Some (n - 71)%N
  else if ((48 <=? n) && (n <=? 57))%N then Some (n + 4)%N
  else if (n =? 43)%N then Some 62%N
  else if (n =? 47)%N then Some 63%N
  else None.

Definition byte_of (n : N) : Byte.byte := byte_of_ascii (ascii_of_N (n mod 256)).

(** Four characters give three bytes; one or two [=] at the very end stand
    for the bytes that are not there. *)
Fixpoint b64_groups (cs : list ascii) : option (list Byte.byte) :=
  match cs with
  | [] => Some []
  | a :: b :: c :: d :: rest =>
      match b64_value a, b64_value b with
      | Some x, Some y =>
          let b1 := byte_of (x * 4 + y / 16) in
          match b64_value c, b64_value d, rest with
          | Some z, Some w, _ =>
              match b64_groups rest with
              | Some bytes =>
                  Some (b1 :: byte_of (y * 16 + z / 4) :: byte_of (z * 64 + w) :: bytes)
              | None => None
              end
          | Some z, None, [] =>
              if Ascii.eqb d "="%char then Some [b1; byte_of (y * 16 + z / 4)] else None
          | None, None, [] =>
              if Ascii.eqb c "="%char && Ascii.eqb d "="%char then Some [b1] else None
          | _, _, _ => None
          end
      | _, _ => None
      end
  | _ => None
  end.

Definition b64decode (s : string) : result (list Byte.byte) :=
  match b64_groups (list_ascii_of_string s) with
  | Some bytes => Ok bytes
  | None => Raise ValueError
  end.

(** [json.loads] turns an integer literal into an [int], and Python refuses
    to convert more than 4300 digits: it raises [ValueError], which is not a
    [JSONDecodeError]. The sample decoder with that limit, for texts that
    are well-formed otherwise. *)
Fixpoint oversized (v : json) : bool :=
  match v with
  | JInt n => 10 ^ 4300 <=? Z.abs n
  | JArr items => existsb oversized items
  | JObj members => existsb (fun kv => oversized (snd kv)) members
  | _ => false
  end.

Definition json_loads_limited (s : string) : result json :=
  match json_loads s with
  | Ok v => if oversized v then Raise ValueError else Ok v
  | Raise e => Raise e
  end.

(** An interpreter with the usual recursion limit of a thousand and about a
    hundred calls on its stack: it prints what is nested less than 900 deep. *)
Definition limits : Limits :=
  {| can_repr := fun v => (nesting v <? 900)%nat;
     can_dump := fun v => (nesting v <? 900)%nat |}.

End Sample.

(** ** Runs: the atomic pieces in any order

    A caller's [_send_request] is three pieces (prepare, write, await);
    between them the pump and other callers take their turns. An [action]
    is one such piece done without interruption. *)
Inductive action : Type :=
| APrepare
| AWrite (req : json) (id : Z) (failure : option string)
| APump (line : string)
| AAwait (id : Z) (q : loc) (timeout : Z)
| AStop (exits_in_time : bool).

Section Runs.

Variable json_loads : string -> result json.

Definition act (a : action) (s : Session) : Session :=
  match a with
  | APrepare => snd (send_prepare s)
  | AWrite req id failure => snd (send_write req id failure s)
  | APump line => pump_lines json_loads [line] s
  | AAwait id q timeout => snd (send_await id q timeout s)
  | AStop exits_in_time => stop exits_in_time s
  end.

(** The request id an action hands out, if it hands one out. *)
Definition allocates (a : action) (s : Session) : option Z :=
  match a with
  | APrepare =>
      match fst (send_prepare s) with
      | Ok (id, _) => Some id
      | Raise _ => None
      end
  | _ => None
  end.

(** The ids handed out along a run, in order, and the state it ends in. *)
Fixpoint run (acts : list action) (s : Session) : list Z * Session :=
  match acts with
  | [] => ([], s)
  | a :: rest =>
      let '(ids, s') := run rest (act a s) in
      (match allocates a s with
       | Some id => id :: ids
       | None => ids
       end, s')
  end.

End Runs.

(** The state in which a caller blocks: prepared, request written. *)
Definition in_flight (method : string) (params : option (list (string * json)))
    (s : Session) : Session :=
  let '(_, s1) := send_prepare s in
  snd (send_write (request method params (msg_id s)) (msg_id s) None s1).

(** The entry of the pending table that the [id] of a decoded message
    designates, if it designates one. *)
Definition entry_of (msg : json) (s : Session) : option loc :=
  match msg with
  | JObj members =>
      match assoc "id" members with
      | Some v =>
          match int_key v with
          | Ok (Some k) => pending_responses s !! k
          | _ => None
          end
      | None => None
      end
  | _ => None
  end.

(** What holds of the table in every state a session reaches: a key is an
    id that was handed out, and it leads to a queue that exists. *)
Definition well_formed (s : Session) : Prop :=
  forall k q, pending_responses s !! k = Some q ->
    k < msg_id s /\ (q < length (queues s))%nat.


(** One call: the method, the parameters, the timeout, and what the outside
    does during it. *)
Record Call : Type := mkCall {
  call_method : string;
  call_params : option (list (string * json));
  call_timeout : Z;
  call_env : SendEnv;
}.

(** Calls made one after the other by one caller; each is listed with the
    counter's value when it starts. *)
Fixpoint send_all (json_loads : string -> result json) (calls : list Call) (s : Session)
  : list (Z * result json) * Session :=
  match calls with
  | [] => ([], s)
  | c :: rest =>
      let '(r, s1) := _send_request json_loads (call_method c) (call_params c)
                        (call_timeout c) (call_env c) s in
      let '(out, s2) := send_all json_loads rest s1 in
      ((msg_id s, r) :: out, s2)
  end.

(** ** The text operations as values

    So that a statement can speak of all of them: an operation, the
    method it stands for, and the tool and arguments that method sends. *)
Inductive text_operation : Type :=
| Navigate (url : string)
| Snapshot
| Click (element ref : string)
| TypeText (element ref text : string) (submit : bool)
| Evaluate (script : string)
| Resize (width height : Z).

Definition perform (json_loads : string -> result json) (lim : Limits) (op : text_operation)
  : SendEnv -> Session -> result string * Session :=
  match op with
  | Navigate url => navigate json_loads lim url
  | Snapshot => snapshot json_loads lim
  | Click element ref => click json_loads lim element ref
  | TypeText element ref text submit => type_text json_loads lim element ref text submit
  | Evaluate script => evaluate json_loads lim script
  | Resize width height => resize json_loads lim width height
  end.

Definition tool_name (op : text_operation) : string :=
  match op with
  | Navigate _ => "browser_navigate"
  | Snapshot => "browser_snapshot"
  | Click _ _ => "browser_click"
  | TypeText _ _ _ _ => "browser_type"
  | Evaluate _ => "browser_evaluate"
  | Resize _ _ => "browser_resize"
  end.

Definition tool_arguments (op : text_operation) : list (string * json) :=
  match op with
  | Navigate url => [("url", JStr url)]
  | Snapshot => []
  | Click element ref => [("element", JStr element); ("ref", JStr ref)]
  | TypeText element ref text submit =>
      [("element", JStr element); ("ref", JStr ref); ("text", JStr text);
       ("submit", JBool submit)]
  | Evaluate script => [("function", JStr script)]
  | Resize width height => [("width", JInt width); ("height", JInt height)]
  end.

(** The call an operation makes. *)
Definition tool_call (json_loads : string -> result json) (op : text_operation)
  : SendEnv -> Session -> result json * Session :=
  call_tool json_loads (tool_name op) (tool_arguments op) 60.

(** ** Shapes of replies *)

(** The text of a segment whose [type] is ["text"]. *)
Definition text_field (item : json) : option string :=
  match item with
  | JObj fields =>
      if is_str "text" (default JNull (assoc "type" fields)) then
        match assoc "text" fields with
        | Some (JStr t) => Some t
        | _ => None
        end
      else None
  | _ => None
  end.

(** A segment of the wire format: an object, and when its [type] is
    ["text"] its [text] is a string. *)
Definition segment (item : json) : Prop :=
  exists fields, item = JObj fields
    /\ (assoc "type" fields = Some (JStr "text") ->
        exists t, assoc "text" fields = Some (JStr t)).

(** A segment that the loop of [screenshot] passes over: an object whose
    [type] is not ["image"]. *)
Definition not_image (item : json) : Prop :=
  exists fields, item = JObj fields /\ assoc "type" fields <> Some (JStr "image").

(** ** Sample states and messages *)

Definition child_up : Popen := mkPopen true true true ChildRunning.

(** A session as [start] has it when the pumps run: process spawned, threads
    alive, nothing sent yet. *)
Definition ready : Session :=
  set_running true
    (set_stdout_thread (Some Alive)
       (set_process (Some child_up) (__init__ (Some "/srv/shots") "/home/user"))).

(** The reply of the wire format with one text segment. *)
Definition text_reply (id : Z) (text : string) : json :=
  JObj [("id", JInt id);
        ("result", JObj [("content", JArr [JObj [("type", JStr "text");
                                                  ("text", JStr text)]])])].

(** The reply with one image segment. *)
Definition image_reply (id : Z) (data : string) : json :=
  JObj [("id", JInt id);
        ("result", JObj [("content", JArr [JObj [("type", JStr "image");
                                                  ("data", JStr data)]])])].

(** The error reply of JSON-RPC 2.0: an [id] and an [error]. *)
Definition error_reply (id : Z) (message : string) : json :=
  JObj [("jsonrpc", JStr "2.0"); ("id", JInt id);
        ("error", JObj [("code", JInt (-32000)); ("message", JStr message)])].

(** A message as the child prints it: one line. *)
Definition line_of (msg : json) : string := json_dumps msg ++ newline.

(** [ready] with one [navigate] request out and its caller blocked. *)
Definition waiting : Session :=
  in_flight "tools/call"
    (Some [("name", JStr "browser_navigate");
           ("arguments", JObj [("url", JStr "https://example.com")])])
    ready.

(** ** The relay of the child's stderr *)



(** ** Looking for Chromium *)

(** What [find_chromium_executable] sees of the disk. Each question it asks
    is answered or raises: [Path.home()], [Path.exists()] (which lets through
    every [OSError] other than the path not being there), and the entries of
    the cache directory in the order [glob] meets them, each with what
    [stat()] gives for it: its [st_mtime], or an exception
    ([FileNotFoundError] for a link that leads nowhere). A time stamp is a
    number; they are only compared. *)
Record Disk : Type := mkDisk {
  home : result string;
  path_exists : string -> result bool;
  cache_listing : result (list (string * result Q));
}.

Definition cache_dir (h : string) : Path :=
  path_join (path_of h) "Library/Caches/ms-playwright".

(** [cache_dir.glob("chromium-*")]: the entries whose name starts with
    [chromium-]. *)
Definition chromium_entries (entries : list (string * result Q)) : list (string * result Q) :=
  filter (fun e => String.prefix "chromium-" (fst e) = true) entries.

(** The keys of the sort: [sorted] asks [stat()] of every entry, in order,
    before it compares any two; the first exception ends it. *)
Fixpoint stat_all (dir : Path) (entries : list (string * result Q))
  : result (list (Path * Q)) :=
  match entries with
  | [] => Ok []
  | (name, st) :: rest =>
      t <- st;;
      more <- stat_all dir rest;;
      Ok ((path_join dir name, t) :: more)
  end.

(** [sorted(..., key=mtime, reverse=True)]: newest first, and entries of
    equal age in the order they came in (the sort is stable). *)
Fixpoint insert_newest_first (e : Path * Q) (sorted : list (Path * Q)) : list (Path * Q) :=
  match sorted with
  | [] => [e]
  | e' :: rest =>
      if Qle_bool (snd e') (snd e) then e :: sorted
      else e' :: insert_newest_first e rest
  end.

Fixpoint newest_first (entries : list (Path * Q)) : list (Path * Q) :=
  match entries with
  | [] => []
  | e :: rest => insert_newest_first e (newest_first rest)
  end.

Definition mac_path (dir : Path) : Path :=
  path_join dir "chrome-mac/Chromium.app/Contents/MacOS/Chromium".

Definition linux_path (dir : Path) : Path :=
  path_join dir "chrome-linux/chrome".

(** Lines 27-34: the loop over the sorted directories. *)
Fixpoint first_executable (exists_ : string -> result bool) (dirs : list (Path * Q))
  : result (option string) :=
  match dirs with
  | [] => Ok None
  | (dir, _) :: rest =>
      mac <- exists_ (path_str (mac_path dir));;
      if mac : bool then Ok (Some (path_str (mac_path dir)))
      else
        linux <- exists_ (path_str (linux_path dir));;
        if linux : bool then Ok (Some (path_str (linux_path dir)))
        else first_executable exists_ rest
  end.

(** Lines 18-34. *)
Definition find_chromium_executable (d : Disk) : result (option string) :=
  h <- home d;;
  there <- path_exists d (path_str (cache_dir h));;
  if there : bool then
    entries <- cache_listing d;;
    stamped <- stat_all (cache_dir h) (chromium_entries entries);;
    first_executable (path_exists d) (newest_first stamped)
  else Ok None.

(** ** Starting *)









(** ** More about the table *)

(** No two requests wait on the same queue. *)
Definition no_sharing (s : Session) : Prop :=
  forall k1 k2 q,
    pending_responses s !! k1 = Some q ->
    pending_responses s !! k2 = Some q -> k1 = k2.

(** The message is an object whose [id] compares equal to the int [k]. *)
Definition carries_id (k : Z) (msg : json) : Prop :=
  exists members v,
    msg = JObj members /\ assoc "id" members = Some v /\ int_key v = Ok (Some k).

(** A line the pump takes in without raising and without touching the
    request [k]: blank, not JSON, or an object whose [id] is missing or is a
    null, a boolean, a number or a string that does not equal [k]. *)
Definition passes_by (json_loads : string -> result json) (k : Z) (line : string) : Prop :=
  strip line = ""
  \/ json_loads (strip line) = Raise JSONDecodeError
  \/ exists members,
       json_loads (strip line) = Ok (JObj members)
       /\ match assoc "id" members with
          | None => True
          | Some v => exists key, int_key v = Ok key /\ key <> Some k
          end.

(** ** Text on one line *)

Fixpoint no_newline (s : string) : bool :=
  match s with
  | EmptyString => true
  | String c rest => negb (code c =? 10)%N && no_newline rest
  end.

(** Every float in the value prints without a line break, as every float of
    Python does. *)
Fixpoint floats_plain (v : json) : bool :=
  match v with
  | JFloat (FFinite _ _ shown) => no_newline shown
  | JArr items => forallb floats_plain items
  | JObj members => forallb (fun kv => floats_plain (snd kv)) members
  | _ => true
  end.

(** One directory is at least as new as another. *)
Definition newer_or_same (a b : Path * Q) : Prop := (snd b <= snd a)%Q.

(** A Chromium directory with an executable in it, for macOS or for Linux. *)
Definition installed (d : Disk) (dir : Path) : bool :=
  match path_exists d (path_str (mac_path dir)), path_exists d (path_str (linux_path dir)) with
  | Ok true, _ | _, Ok true => true
  | _, _ => false
  end.

(** A sample disk: three Chromium builds and another browser in the
    cache; the newest build, [chromium-1300], is an empty directory, the next
    one has the Linux executable, the oldest the macOS one. *)
Definition sample_exists (p : string) : result bool :=
  Ok (existsb (String.eqb p)
        ["/Users/dev/Library/Caches/ms-playwright";
         "/Users/dev/Library/Caches/ms-playwright/chromium-1200/chrome-linux/chrome";
         "/Users/dev/Library/Caches/ms-playwright/chromium-1100/chrome-mac/Chromium.app/Contents/MacOS/Chromium"]).

Definition sample_disk : Disk :=
  {| home := Ok "/Users/dev";
     path_exists := sample_exists;
     cache_listing := Ok [("chromium-1100", Ok 5%Q); ("firefox-1400", Ok 9%Q);
                          ("chromium-1200", Ok 7%Q); ("chromium-1300", Ok 8%Q)] |}.

(** The same disk with one more entry in the cache, [chromium-1000], a link
    to a directory that is gone. *)
Definition dangling : exn :=
  FileNotFoundError
    "[Errno 2] No such file or directory: '/Users/dev/Library/Caches/ms-playwright/chromium-1000'".

Definition dangling_disk : Disk :=
  {| home := Ok "/Users/dev";
     path_exists := sample_exists;
     cache_listing := Ok [("chromium-1100", Ok 5%Q); ("firefox-1400", Ok 9%Q);
                          ("chromium-1200", Ok 7%Q); ("chromium-1000", Raise dangling);
                          ("chromium-1300", Ok 8%Q)] |}.

(** ** What the pump cannot take

    A decoded message on which lines 100-101 raise: anything that is not an
    object, a string or a list; a string with [id] in it and a list with the
    item ["id"] (the test passes and the subscript fails); an object whose
    [id] is a list or an object (it cannot be a key). *)
Definition breaks_the_pump (msg : json) : bool :=
  match msg with
  | JObj members =>
      match assoc "id" members with
      | Some (JArr _) | Some (JObj _) => true
      | _ => false
      end
  | JStr t => contains_str "id" t
  | JArr items => existsb (is_str "id") items
  | _ => true
  end.

(** Every message that waits in the queue of a pending request carries
    that request's id. *)
Definition sorted_mail (s : Session) : Prop :=
  forall k q, pending_responses s !! k = Some q -> Forall (carries_id k) (slot q s).

Definition consistent (s : Session) : Prop :=
  well_formed s /\ no_sharing s /\ sorted_mail s.

(** Two callers at once on [ready]: requests 1 and 2 are out, the child
    answers 2 first and then 1. *)
Definition two_callers : list action :=
  let args := Some [("name", JStr "browser_snapshot"); ("arguments", JObj [])] in
  [APrepare; AWrite (request "tools/call" args 1) 1 None;
   APrepare; AWrite (request "tools/call" args 2) 2 None;
   APump (line_of (text_reply 2 "second"));
   APump (line_of (text_reply 1 "first"))].

(** What the child may print around a reply: a blank line, text that is not
    JSON, a notification (no [id]), a reply to some other request. *)
Definition chatter : list string :=
  ["   "; "Listening on port 9222";
   line_of (JObj [("jsonrpc", JStr "2.0"); ("method", JStr "notifications/progress")]);
   line_of (text_reply 7 "for request 7")].

(** ** What a call goes by

    Two sessions that a call cannot tell apart: the same pipe to the child
    or none, the same counter, table, queues and pump, the same text written
    so far. *)
Definition same_exchange (s1 s2 : Session) : Prop :=
  started s1 = started s2 /\ msg_id s1 = msg_id s2
  /\ pending_responses s1 = pending_responses s2 /\ queues s1 = queues s2
  /\ stdout_thread s1 = stdout_thread s2 /\ child_stdin s1 = child_stdin s2.

Definition same_outcome (r1 r2 : result Session) : Prop :=
  match r1, r2 with
  | Ok a, Ok b => same_exchange a b
  | Raise e1, Raise e2 => e1 = e2
  | _, _ => False
  end.

(** ** A reply that goes deep *)

(** [v] inside [n] lists. *)
Fixpoint wrapped (n : nat) (v : json) : json :=
  match n with
  | O => v
  | S k => JArr [wrapped k v]
  end.

(** A reply whose result holds a value nested 950 deep. The decoder of the
    pump, whose thread has little on its stack, takes such a reply; an
    interpreter with a hundred calls on its stack cannot print it. *)
Definition deep_reply : json :=
  JObj [("id", JInt 1); ("result", JObj [("value", wrapped 950 JNull)])].

(** An error reply whose [error] goes as deep. *)
Definition deep_error_reply : json :=
  JObj [("id", JInt 1); ("error", JObj [("data", wrapped 950 JNull)])].

(** ** Samples for [start] *)






(** Lines 189-192 for a reply that has a result with content: the [data] of
    the first segment whose [type] is ["image"], if there is one. *)
Definition image_data (reply : json) : result (option json) :=
  r <- py_getitem reply "result";;
  c <- py_getitem r "content";;
  items <- py_iter c;;
  first_image items.

(** A line the child can print: the digit [1], 4301 times. It is JSON, an
    integer, and one digit more than Python converts. *)
Definition long_integer : string := string_of_list_ascii (repeat "1"%char 4301).

(** * Properties *)

(** ** Frame lemmas *)

Lemma queue_put_slot q item s :
  (q < length (queues s))%nat ->
  slot q (queue_put q item s) = (slot q s ++ [item])%list.
Proof.
  intros Hq. unfold slot, queue_put. simpl.
  rewrite list_lookup_alter_eq.
  destruct (queues s !! q) as [items|] eqn:Hitems; [reflexivity|].
  apply lookup_ge_None in Hitems. lia.
Qed.

Lemma queue_put_slot_other q q' item s :
  q <> q' -> slot q' (queue_put q item s) = slot q' s.
Proof.
  intros Hne. unfold slot, queue_put. simpl.
  rewrite list_lookup_alter_ne by done. reflexivity.
Qed.

Lemma contains_member key members :
  py_contains key (JObj members) = Ok (bool_decide (is_Some (assoc key members))).
Proof. reflexivity. Qed.

Lemma contains_member_true key members v :
  assoc key members = Some v -> py_contains key (JObj members) = Ok true.
Proof. intros H. rewrite contains_member, H. reflexivity. Qed.

Lemma contains_member_false key members :
  assoc key members = None -> py_contains key (JObj members) = Ok false.
Proof. intros H. rewrite contains_member, H. reflexivity. Qed.

(** The test for content looks into [result] whatever [result] is. *)
Lemma has_content_members members :
  has_content (JObj members)
  = match assoc "result" members with
    | Some r => py_contains "content" r
    | None => Ok false
    end.
Proof.
  unfold has_content. destruct (assoc "result" members) as [r|] eqn:Hr.
  - rewrite (contains_member_true _ _ _ Hr). cbn [rbind py_getitem]. rewrite Hr.
    reflexivity.
  - rewrite (contains_member_false _ _ Hr). reflexivity.
Qed.

Lemma extract_text_without_content lim members :
  assoc "error" members = None ->
  has_content (JObj members) = Ok false ->
  _extract_text lim (JObj members) = json_dumps_indent lim 2 (JObj members).
Proof.
  intros He Hc. unfold _extract_text.
  rewrite (contains_member_false _ _ He). cbn [rbind]. rewrite Hc. reflexivity.
Qed.

Lemma pump_line_decoded json_loads line msg s :
  strip line <> "" ->
  json_loads (strip line) = Ok msg ->
  pump_line json_loads line s = route msg s.
Proof.
  intros Hline Hmsg. unfold pump_line.
  destruct (strip line); [congruence|]. simpl. rewrite Hmsg. reflexivity.
Qed.

(** A message that designates no entry leaves the state alone; one that
    designates an entry goes into that entry's queue. *)
Lemma route_entry msg s :
  match entry_of msg s with
  | Some q => route msg s = Ok (queue_put q msg s)
  | None => route msg s = Ok s \/ exists e, route msg s = Raise e
  end.
Proof.
  unfold entry_of, route.
  destruct msg as [| | | | t | items | members]; simpl;
    try (right; eauto; fail).
  - destruct (contains_str "id" t); simpl; eauto.
  - destruct (existsb (is_str "id") items); simpl; eauto.
  - destruct (assoc "id" members) as [v|] eqn:Hid; simpl.
    + destruct (int_key v) as [[k|]|e]; simpl; eauto.
      destruct (pending_responses s !! k); eauto.
    + eauto.
Qed.

(** Whatever the message, [route] touches nothing but the queue heap. *)
Lemma route_frame msg s s' :
  route msg s = Ok s' ->
  pending_responses s' = pending_responses s /\ msg_id s' = msg_id s
  /\ process s' = process s /\ stdout_thread s' = stdout_thread s
  /\ files s' = files s /\ child_stdin s' = child_stdin s
  /\ output_dir s' = output_dir s /\ console s' = console s
  /\ length (queues s') = length (queues s).
Proof.
  intros H. pose proof (route_entry msg s) as Hr.
  destruct (entry_of msg s) as [q|].
  - rewrite Hr in H. inversion H; subst. simpl.
    rewrite length_alter. repeat split.
  - destruct Hr as [Hr | [e Hr]]; rewrite Hr in H; inversion H; subst.
    repeat split.
Qed.

Section PumpFrame.

Variable json_loads : string -> result json.

Lemma pump_line_frame line s s' :
  pump_line json_loads line s = Ok s' ->
  pending_responses s' = pending_responses s /\ msg_id s' = msg_id s
  /\ process s' = process s /\ stdout_thread s' = stdout_thread s
  /\ files s' = files s /\ child_stdin s' = child_stdin s
  /\ output_dir s' = output_dir s /\ console s' = console s
  /\ length (queues s') = length (queues s).
Proof.
  unfold pump_line. destruct (is_empty (strip line)).
  - intros H; inversion H; subst. repeat split.
  - destruct (json_loads (strip line)) as [msg|e].
    + apply route_frame.
    + destruct e; intros H; inversion H; subst; repeat split.
Qed.

Lemma read_loop_frame lines : forall s,
  let s' := snd (read_loop json_loads lines s) in
  pending_responses s' = pending_responses s /\ msg_id s' = msg_id s
  /\ process s' = process s /\ length (queues s') = length (queues s).
Proof.
  induction lines as [|line rest IH]; simpl; intros s.
  - repeat split.
  - destruct (pump_line json_loads line s) as [s1|e] eqn:H1; simpl; [|repeat split].
    apply pump_line_frame in H1. specialize (IH s1). simpl in IH. intuition congruence.
Qed.

Lemma pump_lines_frame lines : forall s,
  let s' := pump_lines json_loads lines s in
  pending_responses s' = pending_responses s /\ msg_id s' = msg_id s
  /\ process s' = process s /\ files s' = files s
  /\ child_stdin s' = child_stdin s /\ output_dir s' = output_dir s
  /\ console s' = console s /\ length (queues s') = length (queues s).
Proof.
  induction lines as [|line rest IH]; simpl; intros s.
  - repeat split.
  - destruct (stdout_thread s) as [[| |]|]; try (repeat split; fail).
    destruct (pump_line json_loads line s) as [s1|e] eqn:H1.
    + apply pump_line_frame in H1. specialize (IH s1). simpl in IH.
      intuition congruence.
    + simpl. repeat split.
Qed.

End PumpFrame.

(** ** The pump: lines that carry nothing *)

(** C5, as the code has it. A line that is empty once stripped, and a line
    on which [json.loads] raises [JSONDecodeError], are passed over: the
    loop body returns with the state as it was (the table and every queue
    included) and the loop goes on with the next line. *)
Theorem blank_or_malformed_line_is_skipped
    (json_loads : string -> result json) (line : string) (rest : list string)
    (s : Session) :
  strip line = "" \/ json_loads (strip line) = Raise JSONDecodeError ->
  pump_line json_loads line s = Ok s
  /\ read_loop json_loads (line :: rest) s = read_loop json_loads rest s
  /\ _read_stdout json_loads (line :: rest) s = _read_stdout json_loads rest s
  /\ pump_lines json_loads (line :: rest) s = pump_lines json_loads rest s.
Proof.
  intros H.
  assert (Hline : pump_line json_loads line s = Ok s).
  { unfold pump_line. destruct H as [H | H].
    - rewrite H. reflexivity.
    - destruct (is_empty (strip line)); [reflexivity|]. rewrite H. reflexivity. }
  split; [exact Hline|].
  split; [simpl; rewrite Hline; reflexivity|].
  split.
  - unfold _read_stdout. destruct (process s) as [p|]; [|reflexivity].
    destruct (has_stdout p); [|reflexivity]. simpl. rewrite Hline. reflexivity.
  - simpl. rewrite Hline.
    destruct (stdout_thread s) as [[| |]|] eqn:Ht; try reflexivity;
      destruct rest; simpl; rewrite ?Ht; reflexivity.
Qed.

Lemma blank_or_malformed_line_is_skipped_witness :
  (strip "   " = "" \/ Sample.json_loads (strip "   ") = Raise JSONDecodeError)
  /\ (strip "{oops" = "" \/ Sample.json_loads (strip "{oops") = Raise JSONDecodeError)
  /\ pump_line Sample.json_loads "   " waiting = Ok waiting
  /\ pump_line Sample.json_loads "{oops" waiting = Ok waiting.
Proof.
  split; [left; reflexivity|].
  split; [right; vm_compute; reflexivity|].
  split.
  - apply (blank_or_malformed_line_is_skipped Sample.json_loads "   " [] waiting).
    left. reflexivity.
  - apply (blank_or_malformed_line_is_skipped Sample.json_loads "{oops" [] waiting).
    right. vm_compute. reflexivity.
Defined.

(** C5 as stated fails. The child prints a line of 4301 digits: it is not
    empty, [json.loads] fails on it with [ValueError], which the handler for
    [JSONDecodeError] does not catch, the loop is left and the thread ends.
    The reply that comes on the next line is never put into its queue. *)
Lemma oversized_integer_ends_the_pump :
  let s := pump_lines Sample.json_loads_limited
             [long_integer; line_of (text_reply 1 "snapshot...")] waiting in
  is_empty (strip long_integer) = false
  /\ Sample.json_loads_limited (strip long_integer) = Raise ValueError
  /\ pump_line Sample.json_loads_limited long_integer waiting = Raise ValueError
  /\ fst (read_loop Sample.json_loads_limited
            [long_integer; line_of (text_reply 1 "snapshot...")] waiting)
     = Raise ValueError
  /\ stdout_thread waiting = Some Alive
  /\ stdout_thread s = Some (Died ValueError)
  /\ pending_responses s !! 1 = Some 0%nat
  /\ slot 0 s = [].
Proof. vm_compute. repeat split. Qed.

(** The handler is for [JSONDecodeError] alone: any other exception of the
    decoder leaves the loop, and the thread ends with it. *)
Lemma other_decoder_exception_ends_the_pump
    (json_loads : string -> result json) (line : string) (rest : list string)
    (s : Session) (e : exn) :
  strip line <> "" ->
  json_loads (strip line) = Raise e ->
  e <> JSONDecodeError ->
  stdout_thread s = Some Alive ->
  pump_line json_loads line s = Raise e
  /\ pump_lines json_loads (line :: rest) s = set_stdout_thread (Some (Died e)) s.
Proof.
  intros Hline He Hne Halive.
  assert (H : pump_line json_loads line s = Raise e).
  { unfold pump_line. destruct (strip line); [congruence|]. simpl. rewrite He.
    destruct e; try reflexivity. congruence. }
  split; [exact H|]. simpl. rewrite Halive, H. reflexivity.
Qed.

(** A line that decodes to something other than an object, a bare number
    say, is not garbage to the decoder; the test ["id" in msg] raises
    [TypeError] on it and the thread ends. *)
Lemma scalar_message_ends_the_pump :
  pump_line Sample.json_loads "42" waiting = Raise TypeError
  /\ stdout_thread (pump_lines Sample.json_loads ["42"] waiting) = Some (Died TypeError).
Proof. vm_compute. split; reflexivity. Qed.

(** ** The pump and the table: what a decoded message does *)

Lemma send_await_takes_first id q timeout first rest s :
  0 <= timeout ->
  pending_responses s !! id = Some q ->
  slot q s = first :: rest ->
  exists s', send_await id q timeout s = (Ok first, s')
    /\ pending_responses s' = delete id (pending_responses s)
    /\ slot q s' = rest
    /\ (forall q', q' <> q -> slot q' s' = slot q' s).
Proof.
  intros HT Hid Hslot. unfold send_await.
  destruct (timeout <? 0) eqn:Hneg; [apply Z.ltb_lt in Hneg; lia|].
  rewrite Hslot. unfold py_del. simpl. rewrite Hid.
  eexists. split; [reflexivity|]. simpl.
  split; [reflexivity|].
  assert (Hq : (q < length (queues s))%nat).
  { unfold slot in Hslot. destruct (queues s !! q) as [items|] eqn:Hitems.
    - eapply lookup_lt_Some; eauto.
    - discriminate. }
  split.
  - unfold slot. simpl. rewrite list_lookup_insert_eq by exact Hq. reflexivity.
  - intros q' Hne. unfold slot. simpl.
    rewrite list_lookup_insert_ne by congruence. reflexivity.
Qed.

(** C1, as the code has it. The pump neither removes nor marks an entry: a
    decoded message whose [id] is a key of the pending table is put into that
    entry's queue every time one arrives, whether or not the queue already
    holds a reply, and the table stays as it is. A message whose [id] is not
    a key of the table (or that has none) changes neither the table nor any
    queue, also when handling it makes the pump raise. The blocked caller
    takes the first item of its queue only and deletes its entry. *)
Theorem known_id_is_queued_unknown_id_is_dropped
    (json_loads : string -> result json) (line : string) (msg : json) (s : Session) :
  strip line <> "" ->
  json_loads (strip line) = Ok msg ->
  match entry_of msg s with
  | Some q =>
      pump_line json_loads line s = Ok (queue_put q msg s)
      /\ pending_responses (queue_put q msg s) = pending_responses s
      /\ ((q < length (queues s))%nat ->
          slot q (queue_put q msg s) = (slot q s ++ [msg])%list)
      /\ (forall q', q' <> q -> slot q' (queue_put q msg s) = slot q' s)
  | None =>
      (pump_line json_loads line s = Ok s
       \/ exists e, pump_line json_loads line s = Raise e)
      /\ pending_responses (pump_lines json_loads [line] s) = pending_responses s
      /\ queues (pump_lines json_loads [line] s) = queues s
  end
  /\ (forall id q timeout first rest s0,
        0 <= timeout ->
        pending_responses s0 !! id = Some q ->
        slot q s0 = first :: rest ->
        exists s', send_await id q timeout s0 = (Ok first, s')
          /\ pending_responses s' !! id = None
          /\ slot q s' = rest).
Proof.
  intros Hline Hmsg.
  assert (Hpump : pump_line json_loads line s = route msg s).
  { unfold pump_line. destruct (strip line); [congruence|]. simpl.
    rewrite Hmsg. reflexivity. }
  split.
  - pose proof (route_entry msg s) as Hr.
    destruct (entry_of msg s) as [q|].
    + rewrite Hpump. split; [exact Hr|]. split; [reflexivity|].
      split; [apply queue_put_slot|]. intros q' Hne. apply queue_put_slot_other. congruence.
    + rewrite Hpump. split; [exact Hr|].
      simpl. destruct (stdout_thread s) as [[| |]|]; try (split; reflexivity).
      rewrite Hpump.
      destruct Hr as [Hr | [e Hr]]; rewrite Hr; split; reflexivity.
  - intros id q timeout first rest s0 HT Hid Hslot.
    destruct (send_await_takes_first id q timeout first rest s0 HT Hid Hslot)
      as (s' & Hs' & Hp & Hq & _).
    exists s'. split; [exact Hs'|]. split; [|exact Hq].
    rewrite Hp. apply lookup_delete_eq.
Qed.

Lemma known_id_is_queued_witness :
  let reply := text_reply 1 "snapshot..." in
  strip (line_of reply) <> ""
  /\ Sample.json_loads (strip (line_of reply)) = Ok reply
  /\ entry_of reply waiting = Some 0%nat
  /\ pump_line Sample.json_loads (line_of reply) waiting = Ok (queue_put 0 reply waiting).
Proof.
  intros reply.
  assert (Hline : strip (line_of reply) <> "") by (vm_compute; discriminate).
  assert (Hmsg : Sample.json_loads (strip (line_of reply)) = Ok reply)
    by (vm_compute; reflexivity).
  assert (He : entry_of reply waiting = Some 0%nat) by (vm_compute; reflexivity).
  split; [exact Hline|]. split; [exact Hmsg|]. split; [exact He|].
  pose proof (known_id_is_queued_unknown_id_is_dropped Sample.json_loads
                (line_of reply) reply waiting Hline Hmsg) as H.
  rewrite He in H. exact (proj1 (proj1 H)).
Defined.

(** Once the caller has deleted its entry, a further message with that id,
    a duplicate or a reply that comes after the timeout, designates nothing
    and the pump passes over it. *)
Lemma late_reply_is_dropped
    (json_loads : string -> result json) (line : string)
    (members : list (string * json)) (v : json) (k : Z) (s : Session) :
  strip line <> "" ->
  json_loads (strip line) = Ok (JObj members) ->
  assoc "id" members = Some v ->
  int_key v = Ok (Some k) ->
  pending_responses s !! k = None ->
  entry_of (JObj members) s = None
  /\ pump_line json_loads line s = Ok s.
Proof.
  intros Hline Hmsg Hid Hkey Hgone.
  assert (He : entry_of (JObj members) s = None).
  { unfold entry_of. rewrite Hid, Hkey. exact Hgone. }
  split; [exact He|].
  rewrite (pump_line_decoded json_loads line (JObj members) s Hline Hmsg).
  unfold route. rewrite contains_member, Hid.
  rewrite bool_decide_eq_true_2 by eauto. cbn [rbind py_getitem]. rewrite Hid.
  cbn [rbind]. rewrite Hkey. cbn [rbind mbind option_bind]. rewrite Hgone. reflexivity.
Qed.

(** C1 as stated fails: with request 1 pending, the child prints the same
    reply twice before the caller runs again; both copies are handed to the
    entry's queue and the entry is still in the table. *)
Lemma duplicate_reply_is_queued_twice :
  let reply := text_reply 1 "snapshot..." in
  let s := pump_lines Sample.json_loads [line_of reply; line_of reply] waiting in
  pending_responses waiting !! 1 = Some 0%nat
  /\ slot 0 waiting = []
  /\ pending_responses s !! 1 = Some 0%nat
  /\ slot 0 s = [reply; reply].
Proof. vm_compute. repeat split. Qed.

(** ** The correlator: one call *)

Lemma send_prepare_started s :
  started s = true ->
  send_prepare s =
    (Ok (msg_id s, length (queues s)),
     set_pending (<[msg_id s := length (queues s)]> (pending_responses s))
       (set_queues (queues s ++ [[]])%list (set_msg_id (msg_id s + 1) s))).
Proof. intros H. unfold send_prepare. rewrite H. reflexivity. Qed.

Lemma send_prepare_not_started s :
  started s = false ->
  send_prepare s = (Raise (RuntimeError "Server not started"), s).
Proof. intros H. unfold send_prepare. rewrite H. reflexivity. Qed.

(** Up to the moment the caller blocks, a call whose write succeeds is
    [in_flight]; from there the pump works and [send_await] finishes. *)
Lemma send_request_blocks json_loads method params timeout env s :
  started s = true ->
  write_error env = None ->
  _send_request json_loads method params timeout env s =
    send_await (msg_id s) (length (queues s)) timeout
      (pump_lines json_loads (arrivals env) (in_flight method params s)).
Proof.
  intros Hs Hw. unfold _send_request, in_flight.
  rewrite (send_prepare_started s Hs), Hw. reflexivity.
Qed.

Lemma in_flight_state method params s :
  started s = true ->
  let s1 := in_flight method params s in
  pending_responses s1 = <[msg_id s := length (queues s)]> (pending_responses s)
  /\ queues s1 = (queues s ++ [[]])%list
  /\ msg_id s1 = msg_id s + 1
  /\ child_stdin s1
     = (child_stdin s ++ [(json_dumps (request method params (msg_id s)) ++ newline)%string])%list
  /\ process s1 = process s /\ stdout_thread s1 = stdout_thread s
  /\ files s1 = files s /\ output_dir s1 = output_dir s /\ console s1 = console s.
Proof.
  intros Hs. unfold in_flight. rewrite (send_prepare_started s Hs). simpl.
  repeat split.
Qed.

(** C3. When the write of the request raises, the call deletes the entry it
    has just registered and raises [RuntimeError] with the text
    [Send failed: ...]: the allocated id is not a key of the table
    afterwards, every other entry is as before, and nothing has reached the
    child. *)
Theorem failed_write_removes_entry
    (json_loads : string -> result json) (method : string)
    (params : option (list (string * json))) (timeout : Z) (env : SendEnv)
    (s : Session) (e : string) :
  started s = true ->
  write_error env = Some e ->
  exists s',
    _send_request json_loads method params timeout env s
    = (Raise (RuntimeError ("Send failed: " ++ e)), s')
    /\ pending_responses s' !! msg_id s = None
    /\ (forall k, k <> msg_id s -> pending_responses s' !! k = pending_responses s !! k)
    /\ (pending_responses s !! msg_id s = None ->
        pending_responses s' = pending_responses s)
    /\ child_stdin s' = child_stdin s.
Proof.
  intros Hs Hw. unfold _send_request.
  rewrite (send_prepare_started s Hs), Hw. unfold send_write, py_del. simpl.
  rewrite lookup_insert_eq. eexists. split; [reflexivity|]. simpl.
  split; [|split; [|split]].
  - rewrite delete_insert_eq. apply lookup_delete_eq.
  - intros k Hk. rewrite delete_insert_eq. apply lookup_delete_ne. congruence.
  - intros Hfresh. rewrite delete_insert_eq. apply delete_id. exact Hfresh.
  - reflexivity.
Qed.

Lemma failed_write_removes_entry_witness :
  started ready = true
  /\ exists s',
       _send_request Sample.json_loads "tools/call" None 60
         (mkSendEnv (Some "[Errno 32] Broken pipe") []) ready
       = (Raise (RuntimeError "Send failed: [Errno 32] Broken pipe"), s')
       /\ pending_responses s' !! 1 = None.
Proof.
  split; [reflexivity|].
  destruct (failed_write_removes_entry Sample.json_loads "tools/call" None 60
              (mkSendEnv (Some "[Errno 32] Broken pipe") []) ready
              "[Errno 32] Broken pipe" eq_refl eq_refl)
    as (s' & Hcall & Hgone & _).
  exists s'. split; [exact Hcall | exact Hgone].
Defined.




(** X9. [Queue.get] turns a negative timeout away with [ValueError] before it
    waits; no handler of [_send_request] is for it, and the entry stays. *)
Lemma negative_timeout_raises_value_error
    (json_loads : string -> result json) (method : string)
    (params : option (list (string * json))) (timeout : Z) (env : SendEnv)
    (s : Session) :
  started s = true ->
  write_error env = None ->
  timeout < 0 ->
  exists s',
    _send_request json_loads method params timeout env s = (Raise ValueError, s')
    /\ pending_responses s' !! msg_id s = Some (length (queues s)).
Proof.
  intros Hs Hw HT.
  rewrite (send_request_blocks json_loads method params timeout env s Hs Hw).
  unfold send_await. destruct (timeout <? 0) eqn:Hneg; [|apply Z.ltb_ge in Hneg; lia].
  eexists. split; [reflexivity|].
  pose proof (pump_lines_frame json_loads (arrivals env) (in_flight method params s)) as Hf.
  simpl in Hf. destruct Hf as (-> & _).
  destruct (in_flight_state method params s Hs) as (-> & _). apply lookup_insert_eq.
Qed.

(** Two callers at once: requests 1 and 2 are out, the child answers 2
    first and then 1, and each caller finds its own reply in its queue. *)
Example replies_out_of_order_reach_their_callers :
  let args := Some [("name", JStr "browser_snapshot"); ("arguments", JObj [])] in
  let both_out :=
    snd (run Sample.json_loads
           [APrepare; AWrite (request "tools/call" args 1) 1 None;
            APrepare; AWrite (request "tools/call" args 2) 2 None;
            APump (line_of (text_reply 2 "second"));
            APump (line_of (text_reply 1 "first"))]
           ready) in
  fst (send_await 1 0 60 both_out) = Ok (text_reply 1 "first")
  /\ fst (send_await 2 1 60 both_out) = Ok (text_reply 2 "second").
Proof. vm_compute. split; reflexivity. Qed.

(** ** Request ids *)

Section Ids.

Variable json_loads : string -> result json.

Lemma py_del_frame k s s' :
  py_del k s = Ok s' ->
  msg_id s' = msg_id s /\ process s' = process s /\ queues s' = queues s
  /\ child_stdin s' = child_stdin s /\ files s' = files s
  /\ output_dir s' = output_dir s /\ console s' = console s.
Proof.
  unfold py_del. destruct (pending_responses s !! k); [|discriminate].
  intros H; inversion H; subst. repeat split.
Qed.

Lemma send_write_frame req id failure s :
  let s' := snd (send_write req id failure s) in
  msg_id s' = msg_id s /\ process s' = process s.
Proof.
  unfold send_write. destruct failure as [e|]; simpl; [|repeat split].
  destruct (py_del id s) as [s1|e1] eqn:Hd; simpl; [|repeat split].
  apply py_del_frame in Hd. intuition.
Qed.

Lemma send_await_frame id q timeout s :
  let s' := snd (send_await id q timeout s) in
  msg_id s' = msg_id s /\ process s' = process s
  /\ child_stdin s' = child_stdin s /\ files s' = files s
  /\ output_dir s' = output_dir s /\ console s' = console s.
Proof.
  unfold send_await. destruct (timeout <? 0); simpl; [repeat split|].
  destruct (slot q s) as [|first rest].
  - destruct (py_del id s) as [s1|e1] eqn:Hd; simpl; [|repeat split].
    apply py_del_frame in Hd. intuition.
  - destruct (py_del id _) as [s1|e1] eqn:Hd; simpl; [|repeat split].
    apply py_del_frame in Hd. simpl in Hd. intuition.
Qed.

(** A call touches neither the files nor the console nor the directory;
    it moves the counter by one when the session is started. *)
Lemma send_request_frame method params timeout env s :
  let s' := snd (_send_request json_loads method params timeout env s) in
  files s' = files s /\ output_dir s' = output_dir s /\ console s' = console s
  /\ process s' = process s
  /\ (started s = true -> msg_id s' = msg_id s + 1)
  /\ (started s = true -> write_error env = None ->
      child_stdin s'
      = (child_stdin s
         ++ [(json_dumps (request method params (msg_id s)) ++ newline)%string])%list).
Proof.
  destruct (started s) eqn:Hs.
  - destruct (write_error env) as [e|] eqn:Hw.
    + unfold _send_request. rewrite (send_prepare_started s Hs), Hw.
      unfold send_write. destruct (py_del _ _) as [s1|e1] eqn:Hd; simpl.
      * apply py_del_frame in Hd. simpl in Hd.
        destruct Hd as (? & ? & ? & ? & ? & ? & ?).
        repeat split; try congruence; discriminate.
      * repeat split; discriminate.
    + rewrite (send_request_blocks json_loads method params timeout env s Hs Hw).
      pose proof (send_await_frame (msg_id s) (length (queues s)) timeout
                    (pump_lines json_loads (arrivals env) (in_flight method params s))) as Ha.
      pose proof (pump_lines_frame json_loads (arrivals env) (in_flight method params s)) as Hp.
      pose proof (in_flight_state method params s Hs) as Hi.
      simpl in *. intuition congruence.
  - unfold _send_request. rewrite (send_prepare_not_started s Hs). simpl.
    repeat split; discriminate.
Qed.

Lemma stop_frame exits_in_time s :
  msg_id (stop exits_in_time s) = msg_id s
  /\ started (stop exits_in_time s) = started s
  /\ pending_responses (stop exits_in_time s) = pending_responses s
  /\ queues (stop exits_in_time s) = queues s.
Proof.
  unfold stop, started. simpl. destruct (process s) as [p|] eqn:Hp; simpl.
  - repeat split. unfold shut_down. destruct (child p); reflexivity.
  - rewrite Hp. repeat split.
Qed.

(** Only a successful prepare moves the counter, and it moves it by one;
    no action takes the pipe to the child away. *)
Lemma act_counter a s :
  started (act json_loads a s) = started s
  /\ match allocates a s with
     | Some id => id = msg_id s /\ msg_id (act json_loads a s) = msg_id s + 1
     | None => msg_id (act json_loads a s) = msg_id s
     end.
Proof.
  destruct a as [|req id failure|line|id q timeout|exits]; simpl.
  - unfold send_prepare. destruct (started s) eqn:Hs; simpl.
    + unfold started in *. simpl. rewrite Hs. repeat split.
    + rewrite Hs. repeat split.
  - pose proof (send_write_frame req id failure s) as Hf. simpl in Hf.
    unfold started. destruct Hf as [-> ->]. repeat split.
  - pose proof (pump_lines_frame json_loads [line] s) as Hf. simpl in Hf.
    unfold started. destruct Hf as (_ & -> & -> & _). repeat split.
  - pose proof (send_await_frame id q timeout s) as Hf. simpl in Hf.
    unfold started. destruct Hf as (-> & -> & _). repeat split.
  - pose proof (stop_frame exits s). intuition.
Qed.

Lemma run_ids acts : forall s,
  fst (run json_loads acts s)
  = seqZ (msg_id s) (Z.of_nat (length (fst (run json_loads acts s))))
  /\ msg_id (snd (run json_loads acts s))
     = msg_id s + Z.of_nat (length (fst (run json_loads acts s))).
Proof.
  induction acts as [|a rest IH]; intros s; simpl.
  - split; [reflexivity | lia].
  - specialize (IH (act json_loads a s)).
    destruct (run json_loads rest (act json_loads a s)) as [ids s'] eqn:Hrun.
    simpl in IH. destruct IH as [Hids Hcount].
    destruct (act_counter a s) as [_ Hc].
    destruct (allocates a s) as [id|]; simpl.
    + destruct Hc as [-> Hnext]. rewrite Hnext in Hids, Hcount. split.
      * rewrite seqZ_cons by lia. f_equal.
        replace (Z.pred (Z.of_nat (S (length ids)))) with (Z.of_nat (length ids)) by lia.
        exact Hids.
      * lia.
    + rewrite Hc in Hids, Hcount. split; assumption.
Qed.

(** Handling lines one at a time is handling them all. *)
Lemma pump_lines_cons line rest s :
  pump_lines json_loads (line :: rest) s
  = pump_lines json_loads rest (pump_lines json_loads [line] s).
Proof.
  simpl. destruct (stdout_thread s) as [[| |]|] eqn:Ht;
    try (destruct rest; simpl; rewrite ?Ht; reflexivity).
  destruct (pump_line json_loads line s) as [s1|e]; [reflexivity|].
  destruct rest; reflexivity.
Qed.

Lemma run_pumps lines : forall s,
  run json_loads (map APump lines) s = ([], pump_lines json_loads lines s).
Proof.
  induction lines as [|line rest IH]; intros s.
  - reflexivity.
  - rewrite pump_lines_cons. cbn [map run allocates act].
    rewrite IH. reflexivity.
Qed.



End Ids.

Lemma send_all_ids json_loads calls : forall s,
  started s = true ->
  map fst (fst (send_all json_loads calls s)) = seqZ (msg_id s) (Z.of_nat (length calls)).
Proof.
  induction calls as [|c rest IH]; intros s Hs; simpl.
  - reflexivity.
  - pose proof (send_request_frame json_loads (call_method c) (call_params c)
                  (call_timeout c) (call_env c) s) as Hf.
    destruct (_send_request json_loads _ _ _ _ s) as [r s1]. simpl in Hf.
    destruct Hf as (_ & _ & _ & Hproc & Hid & _).
    assert (Hs1 : started s1 = true) by (unfold started in *; rewrite Hproc; exact Hs).
    specialize (IH s1 Hs1). destruct (send_all json_loads rest s1) as [out s2].
    simpl in *. rewrite IH, (Hid Hs). rewrite (seqZ_cons (msg_id s)) by lia.
    f_equal. f_equal. lia.
Qed.

(** ** Reachable states *)

Section Reachable.

Variable json_loads : string -> result json.

Lemma init_well_formed dir cwd : well_formed (__init__ dir cwd).
Proof. intros k q H. simpl in H. rewrite lookup_empty in H. discriminate. Qed.

Lemma py_del_well_formed k s s' :
  py_del k s = Ok s' -> well_formed s -> well_formed s'.
Proof.
  unfold py_del. destruct (pending_responses s !! k); [|discriminate].
  intros H Hwf; inversion H; subst. intros k' q' Hk'. simpl in *.
  apply lookup_delete_Some in Hk'. apply Hwf. tauto.
Qed.

Lemma act_well_formed a s : well_formed s -> well_formed (act json_loads a s).
Proof.
  intros Hwf. destruct a as [|req id failure|line|id q timeout|exits]; simpl.
  - unfold send_prepare. destruct (started s); [|exact Hwf].
    intros k q Hk. simpl in *. rewrite length_app. simpl.
    apply lookup_insert_Some in Hk. destruct Hk as [[<- <-] | [_ Hk]].
    + split; lia.
    + destruct (Hwf k q Hk). split; lia.
  - unfold send_write. destruct failure as [e|]; [|exact Hwf].
    destruct (py_del id s) as [s1|e1] eqn:Hd; [|exact Hwf].
    exact (py_del_well_formed id s s1 Hd Hwf).
  - pose proof (pump_lines_frame json_loads [line] s) as Hf. simpl in Hf.
    destruct Hf as (Hp & Hid & _ & _ & _ & _ & _ & Hlen).
    intros k q Hk. rewrite Hp in Hk. rewrite Hid, Hlen. exact (Hwf k q Hk).
  - unfold send_await. destruct (timeout <? 0); [exact Hwf|].
    destruct (slot q s) as [|first rest].
    + destruct (py_del id s) as [s1|e1] eqn:Hd; [|exact Hwf].
      exact (py_del_well_formed id s s1 Hd Hwf).
    + assert (Hwf' : well_formed (set_queues (<[q := rest]> (queues s)) s)).
      { intros k' q' Hk'. simpl in *. rewrite length_insert. exact (Hwf k' q' Hk'). }
      destruct (py_del id _) as [s1|e1] eqn:Hd; [|exact Hwf'].
      exact (py_del_well_formed id _ s1 Hd Hwf').
  - destruct (stop_frame exits s) as (Hid & _ & Hp & Hq).
    intros k q Hk. rewrite Hp in Hk. rewrite Hid, Hq. exact (Hwf k q Hk).
Qed.


(** The next id is never a key already. *)
Lemma well_formed_fresh s : well_formed s -> pending_responses s !! msg_id s = None.
Proof.
  intros Hwf. destruct (pending_responses s !! msg_id s) as [q|] eqn:H; [|reflexivity].
  destruct (Hwf _ _ H). lia.
Qed.

End Reachable.

(** C4. The counter starts at 1; a call of a started session takes the
    counter's value as its request id (it is the key it registers and the
    [id] of the request it writes) and adds exactly 1 to the counter; so the
    ids handed out along any run of the session's actions, and by any
    sequence of calls, are consecutive integers from the counter's value on,
    hence strictly increasing, and 1, 2, 3, ... for a new session. (A call
    of a session that is not started is turned away before an id is taken.) *)
Theorem request_ids_count_up (json_loads : string -> result json) :
  (forall dir cwd, msg_id (__init__ dir cwd) = 1)
  /\ (forall method params timeout env s,
        started s = true ->
        fst (send_prepare s) = Ok (msg_id s, length (queues s))
        /\ pending_responses (snd (send_prepare s)) !! msg_id s = Some (length (queues s))
        /\ msg_id (snd (send_prepare s)) = msg_id s + 1
        /\ msg_id (snd (_send_request json_loads method params timeout env s)) = msg_id s + 1
        /\ (write_error env = None ->
            child_stdin (snd (_send_request json_loads method params timeout env s))
            = (child_stdin s
               ++ [(json_dumps (request method params (msg_id s)) ++ newline)%string])%list))
  /\ (forall acts s,
        let ids := fst (run json_loads acts s) in
        ids = seqZ (msg_id s) (Z.of_nat (length ids))
        /\ (forall i j a b, (i < j)%nat -> ids !! i = Some a -> ids !! j = Some b -> a < b))
  /\ (forall calls s,
        started s = true ->
        map fst (fst (send_all json_loads calls s))
        = seqZ (msg_id s) (Z.of_nat (length calls)))
  /\ (forall method params timeout env s,
        started s = false ->
        _send_request json_loads method params timeout env s
        = (Raise (RuntimeError "Server not started"), s)).
Proof.
  split; [reflexivity|]. split; [|split; [|split]].
  - intros method params timeout env s Hs.
    rewrite (send_prepare_started s Hs). simpl.
    pose proof (send_request_frame json_loads method params timeout env s) as Hf.
    simpl in Hf. destruct Hf as (_ & _ & _ & _ & Hid & Hin).
    split; [reflexivity|]. split; [apply lookup_insert_eq|]. split; [reflexivity|].
    split; [exact (Hid Hs) | exact (Hin Hs)].
  - intros acts s ids. destruct (run_ids json_loads acts s) as [Hids _].
    fold ids in Hids. split; [exact Hids|].
    intros i j a b Hij Ha Hb. rewrite Hids in Ha, Hb.
    apply lookup_seqZ in Ha, Hb. lia.
  - intros calls s Hs. apply send_all_ids. exact Hs.
  - intros method params timeout env s Hs. unfold _send_request.
    rewrite (send_prepare_not_started s Hs). reflexivity.
Qed.

Lemma request_ids_count_up_witness :
  let call := mkCall "tools/call" None 60 (mkSendEnv None []) in
  started ready = true
  /\ map fst (fst (send_all Sample.json_loads [call; call; call] ready)) = [1; 2; 3].
Proof.
  intros call. split; [reflexivity|].
  exact (proj1 (proj2 (proj2 (proj2 (request_ids_count_up Sample.json_loads))))
           [call; call; call] ready eq_refl).
Defined.

(** ** The end of the pump, and [stop] *)

Lemma run_stdout_thread_frame json_loads lines s :
  pending_responses (run_stdout_thread json_loads lines s) = pending_responses s.
Proof.
  unfold run_stdout_thread, _read_stdout.
  destruct (stdout_thread s) as [[| |]|]; try reflexivity.
  destruct (process s) as [p|]; [|reflexivity].
  destruct (has_stdout p); [|reflexivity].
  pose proof (read_loop_frame json_loads lines s) as Hf. simpl in Hf.
  destruct (read_loop json_loads lines s) as [[u|e] s']; simpl in *; tauto.
Qed.

(** C6. When the child's stdout closes the loop of [_read_stdout] ends
    without doing anything more: the table and the queues are as the last
    line left them, and whatever the stream held the pump removed no entry.
    [stop] changes neither the table nor any queue. So an entry that is
    pending with an empty queue is still pending with an empty queue after
    the pump has ended and after [stop], and its caller comes back only
    through its own timeout, with [TimeoutError]. *)
Theorem pump_end_and_stop_leave_pending (json_loads : string -> result json) :
  (forall s, _read_stdout json_loads [] s = (Ok tt, s))
  /\ (forall s,
        pending_responses (run_stdout_thread json_loads [] s) = pending_responses s
        /\ queues (run_stdout_thread json_loads [] s) = queues s)
  /\ (forall lines s,
        pending_responses (run_stdout_thread json_loads lines s) = pending_responses s)
  /\ (forall exits_in_time s,
        pending_responses (stop exits_in_time s) = pending_responses s
        /\ queues (stop exits_in_time s) = queues s)
  /\ (forall exits_in_time id q timeout s,
        0 <= timeout ->
        pending_responses s !! id = Some q ->
        slot q s = [] ->
        let s' := stop exits_in_time (run_stdout_thread json_loads [] s) in
        pending_responses s' !! id = Some q
        /\ slot q s' = []
        /\ fst (send_await id q timeout s')
           = Raise (TimeoutError ("Request timed out after " ++ str_of_int timeout ++ "s"))).
Proof.
  assert (Hend : forall s,
             pending_responses (run_stdout_thread json_loads [] s) = pending_responses s
             /\ queues (run_stdout_thread json_loads [] s) = queues s).
  { intros s. unfold run_stdout_thread, _read_stdout.
    destruct (stdout_thread s) as [[| |]|]; try (split; reflexivity).
    destruct (process s) as [p|]; [|split; reflexivity].
    destruct (has_stdout p); split; reflexivity. }
  split.
  { intros s. unfold _read_stdout. destruct (process s) as [p|]; [|reflexivity].
    destruct (has_stdout p); reflexivity. }
  split; [exact Hend|].
  split; [intros lines s; apply run_stdout_thread_frame|].
  split.
  { intros exits s. pose proof (stop_frame exits s). tauto. }
  intros exits id q timeout s HT Hid Hslot s'.
  destruct (Hend s) as [Hp Hq].
  destruct (stop_frame exits (run_stdout_thread json_loads [] s)) as (_ & _ & Hp' & Hq').
  assert (Hid' : pending_responses s' !! id = Some q).
  { unfold s'. rewrite Hp', Hp. exact Hid. }
  assert (Hslot' : slot q s' = []).
  { unfold s', slot. rewrite Hq', Hq. exact Hslot. }
  split; [exact Hid'|]. split; [exact Hslot'|].
  unfold send_await. destruct (timeout <? 0) eqn:Hneg; [apply Z.ltb_lt in Hneg; lia|].
  rewrite Hslot'. unfold py_del. rewrite Hid'. reflexivity.
Qed.

Lemma pump_end_and_stop_leave_pending_witness :
  let s' := stop false (run_stdout_thread Sample.json_loads [] waiting) in
  0 <= 60
  /\ pending_responses waiting !! 1 = Some 0%nat
  /\ slot 0 waiting = []
  /\ pending_responses s' !! 1 = Some 0%nat
  /\ slot 0 s' = []
  /\ fst (send_await 1 0 60 s') = Raise (TimeoutError "Request timed out after 60s").
Proof.
  intros s'.
  assert (H1 : pending_responses waiting !! 1 = Some 0%nat) by (vm_compute; reflexivity).
  assert (H2 : slot 0 waiting = []) by reflexivity.
  split; [lia|]. split; [exact H1|]. split; [exact H2|].
  exact (proj2 (proj2 (proj2 (proj2 (pump_end_and_stop_leave_pending Sample.json_loads))))
           false 1 0%nat 60 waiting ltac:(lia) H1 H2).
Defined.

(** ** A reply reaches its caller *)

(** The only line that arrives while the caller is blocked is a message for
    its id: the call returns that message and the entry is gone. *)
Lemma call_delivers json_loads method params timeout line reply s :
  started s = true ->
  stdout_thread s = Some Alive ->
  0 <= timeout ->
  strip line <> "" ->
  json_loads (strip line) = Ok reply ->
  entry_of reply (in_flight method params s) = Some (length (queues s)) ->
  exists s',
    _send_request json_loads method params timeout (mkSendEnv None [line]) s
    = (Ok reply, s')
    /\ pending_responses s' !! msg_id s = None
    /\ files s' = files s /\ output_dir s' = output_dir s /\ console s' = console s.
Proof.
  intros Hs Halive HT Hline Hmsg Hentry.
  rewrite (send_request_blocks json_loads method params timeout
             (mkSendEnv None [line]) s Hs eq_refl).
  destruct (in_flight_state method params s Hs)
    as (Hp & Hq & _ & _ & _ & Ht & Hfiles & Hdir & Hcons).
  set (s1 := in_flight method params s) in *.
  cbn [arrivals pump_lines]. rewrite Ht, Halive.
  rewrite (pump_line_decoded json_loads line reply s1 Hline Hmsg).
  pose proof (route_entry reply s1) as Hr. rewrite Hentry in Hr. rewrite Hr.
  assert (Hlen : (length (queues s) < length (queues s1))%nat).
  { rewrite Hq, length_app. simpl. lia. }
  assert (Hslot : slot (length (queues s)) (queue_put (length (queues s)) reply s1) = [reply]).
  { rewrite queue_put_slot by exact Hlen. unfold slot. rewrite Hq.
    rewrite lookup_app_r by lia. rewrite Nat.sub_diag. reflexivity. }
  destruct (send_await_takes_first (msg_id s) (length (queues s)) timeout reply []
              (queue_put (length (queues s)) reply s1) HT)
    as (s' & Hcall & Hp' & _); [simpl; rewrite Hp; apply lookup_insert_eq | exact Hslot |].
  exists s'. split; [exact Hcall|]. split.
  - rewrite Hp'. apply lookup_delete_eq.
  - pose proof (send_await_frame (msg_id s) (length (queues s)) timeout
                  (queue_put (length (queues s)) reply s1)) as Hf.
    rewrite Hcall in Hf. simpl in Hf. intuition congruence.
Qed.

(** ** The facade: text *)

Lemma is_str_spec s v : is_str s v = true <-> v = JStr s.
Proof.
  destruct v; simpl; try (split; [discriminate | intros H; discriminate]).
  rewrite String.eqb_eq. split; [intros ->; reflexivity | intros H; inversion H; reflexivity].
Qed.

Lemma collect_texts_segments items :
  Forall segment items ->
  collect_texts items = Ok (map JStr (omap text_field items)).
Proof.
  induction 1 as [|item rest [fields [-> Htext]] _ IH]; [reflexivity|].
  change (omap text_field (JObj fields :: rest))
    with (match text_field (JObj fields) with
          | Some t => t :: omap text_field rest
          | None => omap text_field rest
          end).
  cbn [collect_texts py_get rbind text_field].
  destruct (assoc "type" fields) as [ty|] eqn:Hty; cbn [from_option default id].
  - destruct (is_str "text" ty) eqn:Hi.
    + apply is_str_spec in Hi. subst ty. destruct (Htext eq_refl) as [t Ht].
      rewrite Ht. cbn [from_option id]. rewrite IH. reflexivity.
    + exact IH.
  - exact IH.
Qed.

Lemma py_join_strs sep texts : py_join sep (map JStr texts) = Ok (join sep texts).
Proof.
  unfold py_join. assert (H : all_str (map JStr texts) = Ok texts).
  { induction texts as [|t rest IH]; [reflexivity|]. simpl. rewrite IH. reflexivity. }
  rewrite H. reflexivity.
Qed.

Lemma extract_text_segments lim members rmembers items :
  assoc "error" members = None ->
  assoc "result" members = Some (JObj rmembers) ->
  assoc "content" rmembers = Some (JArr items) ->
  Forall segment items ->
  _extract_text lim (JObj members) = Ok (join newline (omap text_field items)).
Proof.
  intros He Hr Hc Hitems. unfold _extract_text, has_content.
  rewrite !contains_member, He, Hr. cbn [rbind py_getitem bool_decide decide_rel].
  rewrite bool_decide_eq_false_2 by (intros [? ?]; discriminate).
  rewrite bool_decide_eq_true_2 by eauto.
  rewrite Hr. cbn [rbind py_getitem py_contains].
  rewrite Hc. rewrite bool_decide_eq_true_2 by eauto.
  cbn [rbind py_iter]. rewrite (collect_texts_segments items Hitems).
  cbn [rbind]. apply py_join_strs.
Qed.

(** Every text operation is its call followed by [_extract_text]. *)
Lemma perform_tool_call json_loads lim op env s :
  perform json_loads lim op env s
  = match tool_call json_loads op env s with
    | (Ok reply, s') => (_extract_text lim reply, s')
    | (Raise e, s') => (Raise e, s')
    end.
Proof. destruct op; reflexivity. Qed.

(** C7. [_extract_text] of the reply
    [{"id": N, "result": {"content": [{"type": "text", "text": t}]}}] is [t],
    and [navigate], like every text operation, returns [t] when that reply,
    with the id of its request, is what the child prints. For a reply
    without [error] whose content is a list of segments, the text operations
    return the [text]s of the segments whose [type] is ["text"], in order,
    joined by newlines: each of them returns [_extract_text] of the reply its
    call got. *)
Theorem text_operations_return_the_text
    (json_loads : string -> result json) (lim : Limits) :
  (forall N t, _extract_text lim (text_reply N t) = Ok t)
  /\ (forall members rmembers items,
        assoc "error" members = None ->
        assoc "result" members = Some (JObj rmembers) ->
        assoc "content" rmembers = Some (JArr items) ->
        Forall segment items ->
        _extract_text lim (JObj members) = Ok (join newline (omap text_field items)))
  /\ (forall op line t s,
        started s = true ->
        stdout_thread s = Some Alive ->
        strip line <> "" ->
        json_loads (strip line) = Ok (text_reply (msg_id s) t) ->
        fst (perform json_loads lim op (mkSendEnv None [line]) s) = Ok t)
  /\ (forall op env s reply s',
        tool_call json_loads op env s = (Ok reply, s') ->
        perform json_loads lim op env s = (_extract_text lim reply, s')).
Proof.
  split; [reflexivity|]. split; [exact (extract_text_segments lim)|]. split.
  - intros op line t s Hs Halive Hline Hmsg.
    rewrite perform_tool_call. unfold tool_call, call_tool.
    destruct (call_delivers json_loads "tools/call"
                (Some [("name", JStr (tool_name op));
                       ("arguments", JObj (tool_arguments op))])
                60 line (text_reply (msg_id s) t) s Hs Halive ltac:(lia) Hline Hmsg)
      as (s' & Hcall & _).
    + destruct (in_flight_state "tools/call"
                  (Some [("name", JStr (tool_name op));
                         ("arguments", JObj (tool_arguments op))]) s Hs) as (Hp & _).
      unfold entry_of, text_reply. cbn [assoc String.eqb Ascii.eqb Bool.eqb int_key].
      rewrite Hp. apply lookup_insert_eq.
    + rewrite Hcall. reflexivity.
  - intros op env s reply s' Hcall. rewrite perform_tool_call, Hcall. reflexivity.
Qed.

Lemma text_operations_return_the_text_witness :
  let line := line_of (text_reply 1 "snapshot...") in
  started ready = true
  /\ stdout_thread ready = Some Alive
  /\ strip line <> ""
  /\ Sample.json_loads (strip line) = Ok (text_reply (msg_id ready) "snapshot...")
  /\ fst (navigate Sample.json_loads Sample.limits "https://example.com"
            (mkSendEnv None [line]) ready)
     = Ok "snapshot...".
Proof.
  intros line.
  assert (Hline : strip line <> "") by (vm_compute; discriminate).
  assert (Hmsg : Sample.json_loads (strip line) = Ok (text_reply (msg_id ready) "snapshot..."))
    by (vm_compute; reflexivity).
  split; [reflexivity|]. split; [reflexivity|]. split; [exact Hline|]. split; [exact Hmsg|].
  exact (proj1 (proj2 (proj2 (text_operations_return_the_text Sample.json_loads
                                Sample.limits)))
           (Navigate "https://example.com") line "snapshot..." ready
           eq_refl eq_refl Hline Hmsg).
Defined.

(** ** The facade: replies of another shape *)

Lemma json_dumps_at_object_nonempty step members :
  json_dumps_at step 0 (JObj members) <> "".
Proof. destruct members as [|[k v] rest]; discriminate. Qed.

(** C10, as the code has it. For a reply without an [error] member,
    [_extract_text] hands the whole reply to [json.dumps] with an indent of
    two when there is no [result] member, or when [result] is an object
    without a [content] member, or a list or a string in which ["content"]
    does not occur: it returns the indented text, which is never empty, when
    the interpreter has room to encode the reply, and raises
    [RecursionError] when the reply is nested too deep for that. When
    [result] is [null], a number or a boolean, looking for ["content"] in it
    raises [TypeError]. A text operation returns what [_extract_text]
    returns. *)
Theorem unexpected_reply_is_dumped
    (json_loads : string -> result json) (lim : Limits)
    (members : list (string * json)) :
  assoc "error" members = None ->
  let text := json_dumps_at 2 0 (JObj members) in
  let dumped :=
    (can_dump lim (JObj members) = true ->
     _extract_text lim (JObj members) = Ok text
     /\ text <> ""
     /\ (forall op env s s',
           tool_call json_loads op env s = (Ok (JObj members), s') ->
           perform json_loads lim op env s = (Ok text, s')))
    /\ (can_dump lim (JObj members) = false ->
        _extract_text lim (JObj members) = Raise RecursionError) in
  match assoc "result" members with
  | None => dumped
  | Some (JObj rmembers) => assoc "content" rmembers = None -> dumped
  | Some (JArr items) => existsb (is_str "content") items = false -> dumped
  | Some (JStr t) => contains_str "content" t = false -> dumped
  | Some _ => _extract_text lim (JObj members) = Raise TypeError
  end.
Proof.
  intros He text dumped.
  assert (Hlink : has_content (JObj members) = Ok false -> dumped).
  { intros Hc. pose proof (extract_text_without_content lim members He Hc) as H.
    unfold json_dumps_indent in H. split.
    - intros Hroom. rewrite Hroom in H. split; [exact H|].
      split; [apply json_dumps_at_object_nonempty|].
      intros op env s s' Hcall. rewrite perform_tool_call, Hcall, H. reflexivity.
    - intros Hdeep. rewrite Hdeep in H. exact H. }
  pose proof (has_content_members members) as Hc.
  destruct (assoc "result" members) as [[| b | n | f | t | items | rmembers]|];
    cbn [py_contains] in Hc;
    try (unfold _extract_text; rewrite (contains_member_false _ _ He);
         cbn [rbind]; rewrite Hc; reflexivity).
  - intros Hno. apply Hlink. rewrite Hc, Hno. reflexivity.
  - intros Hno. apply Hlink. rewrite Hc, Hno. reflexivity.
  - intros Hno. apply Hlink. rewrite Hc, Hno. reflexivity.
  - apply Hlink. exact Hc.
Qed.

Lemma unexpected_reply_is_dumped_witness :
  let members := [("id", JInt 1); ("result", JObj [("isError", JBool false)])] in
  assoc "error" members = None
  /\ assoc "content" [("isError", JBool false)] = None
  /\ can_dump Sample.limits (JObj members) = true
  /\ _extract_text Sample.limits (JObj members) = Ok (json_dumps_at 2 0 (JObj members)).
Proof.
  intros members. split; [reflexivity|]. split; [reflexivity|]. split; [reflexivity|].
  exact (proj1 (proj1 (unexpected_reply_is_dumped Sample.json_loads Sample.limits members
                         eq_refl eq_refl) eq_refl)).
Defined.

(** C10 as stated fails: a reply with no [error] member whose [result] is
    [null] has no [content] field, and [_extract_text], hence [navigate],
    raises [TypeError] on it. And a reply with neither [error] nor [content]
    that is nested 950 deep is more than [json.dumps] can encode in an
    interpreter with a hundred calls on its stack: [_extract_text] raises
    [RecursionError]. *)
Lemma null_result_raises :
  let reply := JObj [("id", JInt 1); ("result", JNull)] in
  py_contains "error" reply = Ok false
  /\ py_getitem reply "result" = Ok JNull
  /\ _extract_text Sample.limits reply = Raise TypeError
  /\ fst (navigate Sample.json_loads Sample.limits "https://example.com"
            (mkSendEnv None [line_of reply]) ready) = Raise TypeError
  /\ py_contains "error" deep_reply = Ok false
  /\ has_content deep_reply = Ok false
  /\ _extract_text Sample.limits deep_reply = Raise RecursionError.
Proof. vm_compute. repeat split. Qed.

(** ** The facade: an [error] in the reply *)

Lemma py_str_text lim v :
  py_str lim v = match v with
                 | JStr _ => Ok (str_text v)
                 | _ => if can_repr lim v then Ok (str_text v) else Raise RecursionError
                 end.
Proof. destruct v; reflexivity. Qed.

Lemma extract_text_error lim members err :
  assoc "error" members = Some err ->
  _extract_text lim (JObj members) = (text <- py_str lim err;; Ok ("Error: " ++ text)).
Proof.
  intros He. unfold _extract_text. rewrite contains_member, He.
  rewrite bool_decide_eq_true_2 by eauto. cbn [rbind py_getitem]. rewrite He.
  reflexivity.
Qed.

Lemma shot_reply_without_result lim b64decode filepath members failure s :
  assoc "result" members = None ->
  shot_reply lim b64decode filepath (JObj members) failure s
  = (text <- py_repr lim (JObj members);; Ok ("Screenshot failed: " ++ text), s).
Proof.
  intros Hr. unfold shot_reply, has_content. rewrite contains_member, Hr.
  rewrite bool_decide_eq_false_2 by (intros [? ?]; discriminate). reflexivity.
Qed.

(** What the operations do with a reply that has an [error] member. A text
    operation returns it as the string [Error: ...], printed as [str]
    prints it, when the interpreter has room to print it, and raises
    [RecursionError] otherwise. [screenshot] never looks at [error]: a reply
    with [error] and without [result] comes back as the string
    [Screenshot failed: ...] that shows the whole reply, and no file is
    written. In the reply of the handshake an [error] member makes
    [_initialize] raise [RuntimeError]. An exception of the call itself (the
    send failure, the timeout) leaves every operation as it is. *)
Lemma error_replies_are_strings_except_at_handshake
    (json_loads : string -> result json) (lim : Limits)
    (b64decode : string -> result (list Byte.byte)) :
  (forall members err,
      assoc "error" members = Some err ->
      _extract_text lim (JObj members) = (text <- py_str lim err;; Ok ("Error: " ++ text)))
  /\ (forall op env s members err s',
        tool_call json_loads op env s = (Ok (JObj members), s') ->
        assoc "error" members = Some err ->
        perform json_loads lim op env s
        = (text <- py_str lim err;; Ok ("Error: " ++ text), s'))
  /\ (forall name full_page env s members err s',
        call_tool json_loads "browser_take_screenshot" [("fullPage", JBool full_page)] 60
          (exchange env) s = (Ok (JObj members), s') ->
        assoc "error" members = Some err ->
        assoc "result" members = None ->
        screenshot json_loads lim b64decode name full_page env s
        = (text <- py_repr lim (JObj members);; Ok ("Screenshot failed: " ++ text), s')
        /\ files s' = files s)
  /\ (forall env s members err s',
        _send_request json_loads "initialize"
          (Some [("protocolVersion", JStr "2024-11-05");
                 ("capabilities", JObj []);
                 ("clientInfo", JObj [("name", JStr "playwright-session");
                                      ("version", JStr "1.0.0")])])
          60 env s = (Ok (JObj members), s') ->
        assoc "error" members = Some err ->
        _initialize json_loads lim env s
        = (text <- py_str lim err;; Raise (RuntimeError ("Initialize failed: " ++ text)), s'))
  /\ (forall op env s e s',
        tool_call json_loads op env s = (Raise e, s') ->
        perform json_loads lim op env s = (Raise e, s'))
  /\ (forall name full_page env s e s',
        call_tool json_loads "browser_take_screenshot" [("fullPage", JBool full_page)] 60
          (exchange env) s = (Raise e, s') ->
        screenshot json_loads lim b64decode name full_page env s = (Raise e, s')).
Proof.
  split; [exact (extract_text_error lim)|]. split; [|split; [|split; [|split]]].
  - intros op env s members err s' Hcall He.
    rewrite perform_tool_call, Hcall, (extract_text_error lim members err He). reflexivity.
  - intros name full_page env s members err s' Hcall He Hr. unfold screenshot.
    pose proof (send_request_frame json_loads "tools/call"
                  (Some [("name", JStr "browser_take_screenshot");
                         ("arguments", JObj [("fullPage", JBool full_page)])])
                  60 (exchange env) s) as Hf.
    unfold call_tool in Hcall. unfold call_tool. rewrite Hcall in *. cbv zeta in Hf.
    rewrite shot_reply_without_result by exact Hr. split; [reflexivity | tauto].
  - intros env s members err s' Hcall He. unfold _initialize. rewrite Hcall.
    rewrite contains_member, He. rewrite bool_decide_eq_true_2 by eauto.
    cbn [rbind py_getitem]. rewrite He. cbn [rbind]. destruct (py_str lim err); reflexivity.
  - intros op env s e s' Hcall. rewrite perform_tool_call, Hcall. reflexivity.
  - intros name full_page env s e s' Hcall. unfold screenshot. rewrite Hcall.
    reflexivity.
Qed.

(** C9. The child answers a screenshot with an error reply in the style of
    JSON-RPC 1.0, [error] next to a [null] result. [navigate], like every
    text operation, returns the string [Error: ...] for that reply, since
    [_extract_text] looks for [error] first. [screenshot] never looks for
    [error]: it looks for ["content"] in [null] and raises [TypeError]. And
    when a reply carries [error] next to a result with an image,
    [screenshot] writes the file and returns its path. *)
Lemma screenshot_ignores_error :
  let failed := JObj [("id", JInt 1); ("result", JNull);
                      ("error", JObj [("code", JInt (-32000));
                                      ("message", JStr "page crashed")])] in
  let both := JObj [("id", JInt 1);
                    ("error", JObj [("code", JInt (-32000));
                                    ("message", JStr "page crashed")]);
                    ("result", JObj [("content", JArr [JObj [("type", JStr "image");
                                                             ("data", JStr "aGk=")]])])] in
  let shot reply :=
    screenshot Sample.json_loads Sample.limits Sample.b64decode (Some "home") false
      (mkShotEnv "20240131_235959" None (mkSendEnv None [line_of reply])) ready in
  py_contains "error" failed = Ok true
  /\ fst (navigate Sample.json_loads Sample.limits "https://example.com"
            (mkSendEnv None [line_of failed]) ready)
     = Ok "Error: {'code': -32000, 'message': 'page crashed'}"
  /\ fst (shot failed) = Raise TypeError
  /\ py_contains "error" both = Ok true
  /\ fst (shot both) = Ok "/srv/shots/home.png"
  /\ files (snd (shot both)) !! "/srv/shots/home.png" = Some [Byte.x68; Byte.x69].
Proof. vm_compute. repeat split. Qed.

(** ** The facade: screenshots *)

Lemma substring_whole t : String.substring 0 (String.length t) t = t.
Proof. induction t as [|c t IH]; simpl; [reflexivity | rewrite IH; reflexivity]. Qed.

Lemma endswith_app s t : endswith (s ++ t) t = true.
Proof.
  unfold endswith.
  assert (Hlen : String.length (s ++ t) = (String.length s + String.length t)%nat).
  { induction s as [|c s IH]; simpl; [reflexivity | rewrite IH; reflexivity]. }
  rewrite Hlen. clear Hlen.
  replace (String.length s + String.length t - String.length t)%nat
    with (String.length s) by lia.
  apply andb_true_intro. split; [apply Nat.leb_le; lia|].
  apply String.eqb_eq.
  induction s as [|c s IH]; simpl; [apply substring_whole | exact IH].
Qed.

(** The file name always ends in [.png]; a name that is left out or empty
    is the timestamp; the suffix is added only when it is not there. *)
Lemma shot_name_spec name now :
  let base := match name with
              | Some n => if is_empty n then now else n
              | None => now
              end in
  endswith (shot_name name now) ".png" = true
  /\ shot_name name now = (if endswith base ".png" then base else base ++ ".png").
Proof.
  intros base. unfold shot_name. fold base. split; [|reflexivity].
  destruct (endswith base ".png") eqn:He; [exact He | apply endswith_app].
Qed.

Lemma first_image_none items :
  Forall not_image items -> first_image items = Ok None.
Proof.
  induction 1 as [|item rest [fields [-> Hty]] _ IH]; [reflexivity|].
  cbn [first_image py_get rbind].
  destruct (is_str "image" (from_option id JNull (assoc "type" fields))) eqn:Hi; [|exact IH].
  apply is_str_spec in Hi. destruct (assoc "type" fields); simpl in Hi; congruence.
Qed.

Lemma first_image_found before img after :
  Forall not_image before ->
  assoc "type" img = Some (JStr "image") ->
  first_image (before ++ JObj img :: after)%list
  = Ok (Some (default (JStr "") (assoc "data" img))).
Proof.
  intros Hb Hty. induction Hb as [|item rest [fields [-> Hn]] _ IH].
  - cbn [app first_image py_get rbind]. rewrite Hty. reflexivity.
  - cbn [app first_image py_get rbind].
    destruct (is_str "image" (from_option id JNull (assoc "type" fields))) eqn:Hi; [|exact IH].
    apply is_str_spec in Hi. destruct (assoc "type" fields); simpl in Hi; congruence.
Qed.

Lemma has_content_list members rmembers c :
  assoc "result" members = Some (JObj rmembers) ->
  assoc "content" rmembers = Some c ->
  has_content (JObj members) = Ok true.
Proof.
  intros Hr Hc. rewrite has_content_members, Hr. exact (contains_member_true _ _ _ Hc).
Qed.

Section Screenshots.

Variable json_loads : string -> result json.
Variable lim : Limits.
Variable b64decode : string -> result (list Byte.byte).

Lemma shot_reply_image filepath members rmembers before img after data bytes s :
  assoc "result" members = Some (JObj rmembers) ->
  assoc "content" rmembers = Some (JArr (before ++ JObj img :: after)%list) ->
  Forall not_image before ->
  assoc "type" img = Some (JStr "image") ->
  assoc "data" img = Some (JStr data) ->
  b64decode data = Ok bytes ->
  shot_reply lim b64decode filepath (JObj members) None s
  = (Ok (path_str filepath),
     print ("Screenshot saved: " ++ path_str filepath)
       (set_files (<[path_str filepath := bytes]> (files s)) s)).
Proof.
  intros Hr Hc Hb Hty Hdata Hdec. unfold shot_reply.
  rewrite (has_content_list members rmembers _ Hr Hc).
  cbn [py_getitem rbind]. rewrite Hr. cbn [py_getitem rbind]. rewrite Hc.
  cbn [rbind py_iter]. rewrite (first_image_found before img after Hb Hty), Hdata.
  cbn [default from_option id decode_data rbind]. rewrite Hdec. reflexivity.
Qed.

Lemma shot_reply_no_image filepath members failure s :
  match assoc "result" members with
  | None => True
  | Some (JObj rmembers) =>
      match assoc "content" rmembers with
      | None => True
      | Some (JArr items) => Forall not_image items
      | Some _ => False
      end
  | Some _ => False
  end ->
  shot_reply lim b64decode filepath (JObj members) failure s
  = (text <- py_repr lim (JObj members);; Ok ("Screenshot failed: " ++ text), s).
Proof.
  destruct (assoc "result" members) as [r|] eqn:Hr.
  - destruct r as [| | | | | |rmembers]; try contradiction.
    destruct (assoc "content" rmembers) as [c|] eqn:Hc.
    + destruct c as [| | | | |items|]; try contradiction. intros Hitems.
      unfold shot_reply. rewrite (has_content_list members rmembers _ Hr Hc).
      cbn [py_getitem rbind]. rewrite Hr. cbn [py_getitem rbind]. rewrite Hc.
      cbn [rbind py_iter]. rewrite (first_image_none items Hitems). reflexivity.
    + intros _. unfold shot_reply, has_content. rewrite contains_member, Hr.
      rewrite bool_decide_eq_true_2 by eauto. cbn [rbind py_getitem]. rewrite Hr.
      cbn [rbind]. rewrite contains_member, Hc.
      rewrite bool_decide_eq_false_2 by (intros [? ?]; discriminate). reflexivity.
  - intros _. apply shot_reply_without_result. exact Hr.
Qed.

Lemma screenshot_of_reply name full_page env s reply s1 :
  call_tool json_loads "browser_take_screenshot" [("fullPage", JBool full_page)] 60
    (exchange env) s = (Ok reply, s1) ->
  screenshot json_loads lim b64decode name full_page env s
  = shot_reply lim b64decode (path_join (output_dir s) (shot_name name (now env)))
      reply (disk_error env) s1
  /\ files s1 = files s.
Proof.
  intros Hcall. unfold screenshot. rewrite Hcall. split; [reflexivity|].
  pose proof (send_request_frame json_loads "tools/call"
                (Some [("name", JStr "browser_take_screenshot");
                       ("arguments", JObj [("fullPage", JBool full_page)])])
                60 (exchange env) s) as Hf.
  unfold call_tool in Hcall. rewrite Hcall in Hf. simpl in Hf. tauto.
Qed.

End Screenshots.

(** What [screenshot] does with the name and with the reply. The file name
    is [name], or the timestamp when [name] is left out or empty, with
    [.png] added unless it ends in it. The file is [output_dir / name],
    joined as pathlib joins: the components of a relative name follow those
    of the output directory, while an absolute name takes the place of the
    directory. For a reply whose content is a list of segments the first of
    which with [type] ["image"] carries base64 text that decodes, the bytes
    are written to that file (the disk permitting) and its path is returned.
    For a reply with no result, or whose result is an object with no content
    or with a list of segments none of which is an image, the string
    [Screenshot failed: ...] with the [repr] of the reply is what
    [screenshot] goes on to return, and no file is written. *)
Lemma screenshot_writes_the_image_or_reports
    (json_loads : string -> result json) (lim : Limits)
    (b64decode : string -> result (list Byte.byte))
    (name : option string) (full_page : bool) (env : ShotEnv) (s : Session)
    (members : list (string * json)) (s1 : Session) :
  call_tool json_loads "browser_take_screenshot" [("fullPage", JBool full_page)] 60
    (exchange env) s = (Ok (JObj members), s1) ->
  let file_name := shot_name name (now env) in
  let filepath := path_join (output_dir s) file_name in
  let base := match name with
              | Some n => if is_empty n then now env else n
              | None => now env
              end in
  (endswith file_name ".png" = true
   /\ file_name = (if endswith base ".png" then base else base ++ ".png"))
  /\ (is_absolute (path_of file_name) = false ->
      root filepath = root (output_dir s)
      /\ parts filepath = (parts (output_dir s) ++ parts (path_of file_name))%list)
  /\ (is_absolute (path_of file_name) = true -> filepath = path_of file_name)
  /\ (forall rmembers before img after data bytes,
        assoc "result" members = Some (JObj rmembers) ->
        assoc "content" rmembers = Some (JArr (before ++ JObj img :: after)%list) ->
        Forall not_image before ->
        assoc "type" img = Some (JStr "image") ->
        assoc "data" img = Some (JStr data) ->
        b64decode data = Ok bytes ->
        disk_error env = None ->
        exists s2,
          screenshot json_loads lim b64decode name full_page env s
          = (Ok (path_str filepath), s2)
          /\ files s2 = <[path_str filepath := bytes]> (files s))
  /\ (match assoc "result" members with
      | None => True
      | Some (JObj rmembers) =>
          match assoc "content" rmembers with
          | None => True
          | Some (JArr items) => Forall not_image items
          | Some _ => False
          end
      | Some _ => False
      end ->
      screenshot json_loads lim b64decode name full_page env s
      = (text <- py_repr lim (JObj members);; Ok ("Screenshot failed: " ++ text), s1)
      /\ files s1 = files s).
Proof.
  intros Hcall file_name filepath base.
  destruct (screenshot_of_reply json_loads lim b64decode name full_page env s _ s1 Hcall)
    as [Hshot Hfiles].
  fold file_name in Hshot. fold filepath in Hshot.
  split; [exact (shot_name_spec name (now env))|].
  split; [|split; [|split]].
  - intros Hrel. unfold filepath, path_join. rewrite Hrel. split; reflexivity.
  - intros Habs. unfold filepath, path_join. rewrite Habs. reflexivity.
  - intros rmembers before img after data bytes Hr Hc Hb Hty Hdata Hdec Hdisk.
    rewrite Hshot, Hdisk.
    rewrite (shot_reply_image lim b64decode filepath members rmembers before img after
               data bytes s1 Hr Hc Hb Hty Hdata Hdec).
    eexists. split; [reflexivity|]. simpl. rewrite Hfiles. reflexivity.
  - intros Hshape. rewrite Hshot.
    rewrite (shot_reply_no_image lim b64decode filepath members (disk_error env) s1 Hshape).
    split; [reflexivity | exact Hfiles].
Qed.

Lemma screenshot_writes_the_image_witness :
  let env := mkShotEnv "20240131_235959" None
               (mkSendEnv None [line_of (image_reply 1 "aGk=")]) in
  let r := call_tool Sample.json_loads "browser_take_screenshot"
             [("fullPage", JBool false)] 60 (exchange env) ready in
  r = (Ok (image_reply 1 "aGk="), snd r)
  /\ Sample.b64decode "aGk=" = Ok [Byte.x68; Byte.x69]
  /\ exists s2,
       screenshot Sample.json_loads Sample.limits Sample.b64decode None false env ready
       = (Ok "/srv/shots/20240131_235959.png", s2)
       /\ files s2 = <["/srv/shots/20240131_235959.png" := [Byte.x68; Byte.x69]]> (files ready).
Proof.
  intros env r.
  assert (Hcall : r = (Ok (image_reply 1 "aGk="), snd r)) by (vm_compute; reflexivity).
  assert (Hdec : Sample.b64decode "aGk=" = Ok [Byte.x68; Byte.x69]) by reflexivity.
  split; [exact Hcall|]. split; [exact Hdec|].
  pose proof (screenshot_writes_the_image_or_reports Sample.json_loads Sample.limits
                Sample.b64decode None false env ready _ (snd r) Hcall)
    as (_ & _ & _ & Himage & _).
  exact (Himage [("content", JArr [JObj [("type", JStr "image"); ("data", JStr "aGk=")]])]
           [] [("type", JStr "image"); ("data", JStr "aGk=")] [] "aGk="
           [Byte.x68; Byte.x69] eq_refl eq_refl ltac:(constructor) eq_refl eq_refl Hdec eq_refl).
Defined.

(** C8. The docstring of [screenshot] says that the file is saved to the
    output directory. With the output directory [/srv/shots] and the name
    [/tmp/home], the image the child sends is written to [/tmp/home.png],
    that path is returned, and nothing is written in [/srv/shots]: the join
    of line 186 lets an absolute name take the place of the directory. *)
Lemma screenshot_outside_output_dir :
  let r :=
    screenshot Sample.json_loads Sample.limits Sample.b64decode (Some "/tmp/home") false
      (mkShotEnv "20240131_235959" None (mkSendEnv None [line_of (image_reply 1 "aGk=")]))
      ready in
  path_str (output_dir ready) = "/srv/shots"
  /\ fst r = Ok "/tmp/home.png"
  /\ files (snd r) !! "/tmp/home.png" = Some [Byte.x68; Byte.x69]
  /\ files (snd r) !! "/srv/shots/home.png" = None
  /\ console (snd r) = ["Screenshot saved: /tmp/home.png"].
Proof. vm_compute. repeat split. Qed.

(** * Beyond the correlator: the rest of the session *)

(** ** The relay of stderr *)







(** ** Looking for Chromium *)

Lemma insert_newest_first_perm e l : Permutation (insert_newest_first e l) (e :: l).
Proof.
  induction l as [|e' rest IH]; [reflexivity|]. simpl.
  destruct (Qle_bool (snd e') (snd e)); [reflexivity|].
  rewrite IH. apply perm_swap.
Qed.

Lemma newest_first_perm l : Permutation (newest_first l) l.
Proof.
  induction l as [|e rest IH]; [reflexivity|]. simpl.
  rewrite insert_newest_first_perm, IH. reflexivity.
Qed.

Lemma insert_newest_first_sorted e l :
  StronglySorted newer_or_same l -> StronglySorted newer_or_same (insert_newest_first e l).
Proof.
  induction 1 as [|e' rest Hsorted IH Hall]; simpl.
  - constructor; constructor.
  - destruct (Qle_bool (snd e') (snd e)) eqn:Hle.
    + apply Qle_bool_iff in Hle. constructor.
      * constructor; assumption.
      * constructor; [exact Hle|].
        eapply List.Forall_impl; [|exact Hall]. intros a Ha. unfold newer_or_same in *.
        eapply Qle_trans; eassumption.
    + constructor; [exact IH|].
      assert (Hlt : (snd e < snd e')%Q).
      { apply Qnot_le_lt. intros H. apply Qle_bool_iff in H. congruence. }
      eapply Permutation_Forall; [symmetry; apply insert_newest_first_perm|].
      constructor; [apply Qlt_le_weak; exact Hlt | exact Hall].
Qed.

Lemma newest_first_sorted l : StronglySorted newer_or_same (newest_first l).
Proof.
  induction l as [|e rest IH]; simpl; [constructor|].
  apply insert_newest_first_sorted. exact IH.
Qed.

Section Chromium.

Variable d : Disk.

(** In a list that is sorted newest first, the loop returns the executable
    of a directory that is at least as new as every directory that has one,
    the one for macOS if it is there. *)
Lemma first_executable_sorted dirs path :
  StronglySorted newer_or_same dirs ->
  first_executable (path_exists d) dirs = Ok (Some path) ->
  exists dir t,
    In (dir, t) dirs
    /\ path_exists d path = Ok true
    /\ (path = path_str (mac_path dir)
        \/ path_exists d (path_str (mac_path dir)) = Ok false
           /\ path = path_str (linux_path dir))
    /\ forall dir' t', In (dir', t') dirs -> installed d dir' = true -> (t' <= t)%Q.
Proof.
  induction 1 as [|[dir t] rest Hsorted IH Hall]; simpl; [discriminate|].
  assert (Hfirst : forall dir' t', (dir, t) = (dir', t') \/ In (dir', t') rest -> (t' <= t)%Q).
  { intros dir' t' [Heq | Hin].
    - inversion Heq; subst. apply Qle_refl.
    - rewrite List.Forall_forall in Hall. exact (Hall _ Hin). }
  destruct (path_exists d (path_str (mac_path dir))) as [[]|e] eqn:Hmac; simpl;
    [| |discriminate].
  - intros Hp; inversion Hp; subst. exists dir, t.
    split; [left; reflexivity|]. split; [exact Hmac|]. split; [left; reflexivity|].
    intros dir' t' Hin _. exact (Hfirst dir' t' Hin).
  - destruct (path_exists d (path_str (linux_path dir))) as [[]|e] eqn:Hlinux; simpl;
      [| |discriminate].
    + intros Hp; inversion Hp; subst. exists dir, t.
      split; [left; reflexivity|]. split; [exact Hlinux|].
      split; [right; split; [exact Hmac | reflexivity]|].
      intros dir' t' Hin _. exact (Hfirst dir' t' Hin).
    + intros Hp. destruct (IH Hp) as (dir0 & t0 & Hin0 & Hex & Hwhich & Hnewest).
      exists dir0, t0. split; [right; exact Hin0|]. split; [exact Hex|].
      split; [exact Hwhich|].
      intros dir' t' [Heq | Hin] Hinst.
      * inversion Heq; subst. unfold installed in Hinst.
        rewrite Hmac, Hlinux in Hinst. discriminate.
      * exact (Hnewest dir' t' Hin Hinst).
Qed.

Lemma first_executable_none dirs :
  first_executable (path_exists d) dirs = Ok None
  <-> forall dir t, In (dir, t) dirs ->
        path_exists d (path_str (mac_path dir)) = Ok false
        /\ path_exists d (path_str (linux_path dir)) = Ok false.
Proof.
  induction dirs as [|[dir t] rest IH]; simpl.
  - split; [intros _ ? ? [] | reflexivity].
  - destruct (path_exists d (path_str (mac_path dir))) as [[]|e] eqn:Hmac; simpl.
    + split; [discriminate|]. intros H. destruct (H dir t (or_introl eq_refl)). congruence.
    + destruct (path_exists d (path_str (linux_path dir))) as [[]|e] eqn:Hlinux; simpl.
      * split; [discriminate|]. intros H. destruct (H dir t (or_introl eq_refl)). congruence.
      * rewrite IH. split.
        -- intros H dir' t' [Heq | Hin]; [inversion Heq; subst; auto|].
           exact (H dir' t' Hin).
        -- intros H dir' t' Hin. exact (H dir' t' (or_intror Hin)).
      * split; [discriminate|]. intros H. destruct (H dir t (or_introl eq_refl)). congruence.
    + split; [discriminate|]. intros H. destruct (H dir t (or_introl eq_refl)). congruence.
Qed.

End Chromium.

Lemma in_chromium_entries name st entries :
  In (name, st) (chromium_entries entries)
  <-> In (name, st) entries /\ String.prefix "chromium-" name = true.
Proof.
  unfold chromium_entries. rewrite <- !list_elem_of_In, list_elem_of_filter. simpl. tauto.
Qed.

(** When every [stat()] answers, the stamped list is the entries with
    their paths; otherwise the sort ends with the exception of an entry. *)
Lemma stat_all_ok dir entries stamped :
  stat_all dir entries = Ok stamped ->
  (forall name st, In (name, st) entries -> exists t, st = Ok t)
  /\ (forall path t, In (path, t) stamped
        <-> exists name, In (name, Ok t) entries /\ path = path_join dir name).
Proof.
  revert stamped. induction entries as [|[name [t|e]] rest IH]; simpl; intros stamped.
  - intros H; inversion H; subst. split; [intros ? ? []|].
    intros path t. split; [intros [] | intros (? & [] & _)].
  - destruct (stat_all dir rest) as [more|e] eqn:Hrest; simpl; [|discriminate].
    intros H; inversion H; subst. destruct (IH more eq_refl) as [Hall Hin]. split.
    + intros name' st [Heq | Hin']; [inversion Heq; eauto | exact (Hall _ _ Hin')].
    + intros path t'. simpl. rewrite Hin. split.
      * intros [Heq | (name' & Hin' & ->)]; [inversion Heq; subst; eauto|eauto].
      * intros (name' & [Heq | Hin'] & ->); [inversion Heq; subst; left; reflexivity|].
        right. eauto.
  - discriminate.
Qed.

Lemma stat_all_raises dir entries e :
  stat_all dir entries = Raise e -> exists name, In (name, Raise e) entries.
Proof.
  induction entries as [|[name [t|e']] rest IH]; simpl; [discriminate| |].
  - destruct (stat_all dir rest) as [more|e''] eqn:Hrest; simpl; [discriminate|].
    intros H; inversion H; subst. destruct (IH eq_refl) as [name' Hin]. eauto.
  - intros H; inversion H; subst. eauto.
Qed.

(** X2. When [find_chromium_executable] returns a path, every question it
    asked was answered, and the path is an executable that exists in a
    directory [chromium-*] of the cache: the one for macOS if that directory
    has it, the one for Linux otherwise; and no directory [chromium-*] with
    an executable in it is newer than the one chosen. It returns nothing
    exactly when the cache directory is not there, or every entry
    [chromium-*] has a time stamp and none has an executable. When [stat()]
    fails on an entry [chromium-*], a link that leads nowhere say, the sort
    raises that exception and nothing is returned, whatever the other
    entries hold. *)
Theorem chromium_is_the_newest_installed (d : Disk) :
  (forall path,
     find_chromium_executable d = Ok (Some path) ->
     exists h entries name t,
       home d = Ok h
       /\ path_exists d (path_str (cache_dir h)) = Ok true
       /\ cache_listing d = Ok entries
       /\ (forall name' st, In (name', st) entries ->
             String.prefix "chromium-" name' = true -> exists t', st = Ok t')
       /\ In (name, Ok t) entries
       /\ String.prefix "chromium-" name = true
       /\ path_exists d path = Ok true
       /\ (path = path_str (mac_path (path_join (cache_dir h) name))
           \/ path_exists d (path_str (mac_path (path_join (cache_dir h) name))) = Ok false
              /\ path = path_str (linux_path (path_join (cache_dir h) name)))
       /\ forall name' t',
            In (name', Ok t') entries ->
            String.prefix "chromium-" name' = true ->
            installed d (path_join (cache_dir h) name') = true ->
            (t' <= t)%Q)
  /\ (find_chromium_executable d = Ok None
      <-> exists h,
            home d = Ok h
            /\ (path_exists d (path_str (cache_dir h)) = Ok false
                \/ path_exists d (path_str (cache_dir h)) = Ok true
                   /\ exists entries,
                        cache_listing d = Ok entries
                        /\ forall name st,
                             In (name, st) entries ->
                             String.prefix "chromium-" name = true ->
                             (exists t, st = Ok t)
                             /\ path_exists d (path_str (mac_path (path_join (cache_dir h) name)))
                                = Ok false
                             /\ path_exists d
                                  (path_str (linux_path (path_join (cache_dir h) name)))
                                = Ok false))
  /\ (forall h entries name e,
        home d = Ok h ->
        path_exists d (path_str (cache_dir h)) = Ok true ->
        cache_listing d = Ok entries ->
        In (name, Raise e) entries ->
        String.prefix "chromium-" name = true ->
        exists name' e',
          find_chromium_executable d = Raise e'
          /\ In (name', Raise e') entries
          /\ String.prefix "chromium-" name' = true).
Proof.
  unfold find_chromium_executable. split; [|split].
  - intros path Hfind.
    destruct (home d) as [h|] eqn:Hhome; [|discriminate]. cbn [rbind] in Hfind.
    destruct (path_exists d (path_str (cache_dir h))) as [[]|] eqn:Hcache;
      cbn [rbind] in Hfind; [|discriminate|discriminate].
    destruct (cache_listing d) as [entries|] eqn:Hlist; cbn [rbind] in Hfind; [|discriminate].
    destruct (stat_all (cache_dir h) (chromium_entries entries)) as [stamped|] eqn:Hstat;
      cbn [rbind] in Hfind; [|discriminate].
    destruct (stat_all_ok _ _ _ Hstat) as [Hall Hin].
    destruct (first_executable_sorted d _ path (newest_first_sorted _) Hfind)
      as (dir & t & Hdir & Hex & Hwhich & Hnewest).
    apply (Permutation_in _ (newest_first_perm _)) in Hdir.
    apply Hin in Hdir. destruct Hdir as (name & Hname & ->).
    apply in_chromium_entries in Hname. destruct Hname as [Hname Hpre].
    exists h, entries, name, t.
    split; [reflexivity|]. split; [exact Hcache|]. split; [reflexivity|].
    split.
    { intros name' st Hin' Hpre'. apply (Hall name' st).
      apply in_chromium_entries. auto. }
    split; [exact Hname|]. split; [exact Hpre|]. split; [exact Hex|].
    split; [exact Hwhich|].
    intros name' t' Hin' Hpre' Hinst.
    apply (Hnewest (path_join (cache_dir h) name') t'); [|exact Hinst].
    apply (Permutation_in _ (Permutation_sym (newest_first_perm _))).
    apply Hin. exists name'. split; [|reflexivity]. apply in_chromium_entries. auto.
  - destruct (home d) as [h|e] eqn:Hhome; cbn [rbind];
      [|split; [discriminate | intros (h & Hh & _); discriminate]].
    destruct (path_exists d (path_str (cache_dir h))) as [[]|e] eqn:Hcache; cbn [rbind].
    + destruct (cache_listing d) as [entries|e] eqn:Hlist; cbn [rbind].
      * destruct (stat_all (cache_dir h) (chromium_entries entries)) as [stamped|e] eqn:Hstat;
          cbn [rbind].
        -- destruct (stat_all_ok _ _ _ Hstat) as [Hall Hin].
           rewrite first_executable_none. split.
           ++ intros H. exists h. split; [reflexivity|]. right. split; [exact Hcache|].
              exists entries. split; [reflexivity|].
              intros name st Hname Hpre.
              destruct (Hall name st) as [t ->]; [apply in_chromium_entries; auto|].
              split; [eauto|].
              apply (H (path_join (cache_dir h) name) t).
              apply (Permutation_in _ (Permutation_sym (newest_first_perm _))).
              apply Hin. exists name. split; [|reflexivity].
              apply in_chromium_entries. auto.
           ++ intros (h' & Hh & [Hno | (_ & entries' & Hl & H)]);
                inversion Hh; subst h'; [congruence|].
              inversion Hl; subst entries'.
              intros dir t Hdir.
              apply (Permutation_in _ (newest_first_perm _)) in Hdir.
              apply Hin in Hdir. destruct Hdir as (name & Hname & ->).
              apply in_chromium_entries in Hname. destruct Hname as [Hname Hpre].
              destruct (H name (Ok t) Hname Hpre) as (_ & Hmac & Hlinux). auto.
        -- split; [discriminate|].
           intros (h' & Hh & [Hno | (_ & entries' & Hl & H)]);
             inversion Hh; subst h'; [congruence|].
           inversion Hl; subst entries'.
           destruct (stat_all_raises _ _ _ Hstat) as [name Hname].
           apply in_chromium_entries in Hname. destruct Hname as [Hname Hpre].
           destruct (H name (Raise e) Hname Hpre) as ([t Ht] & _). discriminate.
      * split; [discriminate|].
        intros (h' & Hh & [Hno | (_ & entries' & Hl & _)]);
          inversion Hh; subst h'; congruence.
    + split; [intros _|reflexivity]. exists h. auto.
    + split; [discriminate|].
      intros (h' & Hh & [Hno | (Hyes & _)]); inversion Hh; subst h'; congruence.
  - intros h entries name e Hhome Hcache Hlist Hname Hpre.
    rewrite Hhome. cbn [rbind]. rewrite Hcache. cbn [rbind]. rewrite Hlist. cbn [rbind].
    destruct (stat_all (cache_dir h) (chromium_entries entries)) as [stamped|e'] eqn:Hstat.
    + destruct (stat_all_ok _ _ _ Hstat) as [Hall _].
      destruct (Hall name (Raise e)) as [t Ht]; [apply in_chromium_entries; auto|].
      discriminate.
    + destruct (stat_all_raises _ _ _ Hstat) as [name' Hname'].
      apply in_chromium_entries in Hname'. destruct Hname' as [Hname' Hpre'].
      exists name', e'. auto.
Qed.

Lemma chromium_is_the_newest_installed_witness :
  find_chromium_executable sample_disk
  = Ok (Some "/Users/dev/Library/Caches/ms-playwright/chromium-1200/chrome-linux/chrome")
  /\ path_exists sample_disk
       "/Users/dev/Library/Caches/ms-playwright/chromium-1200/chrome-linux/chrome" = Ok true
  /\ find_chromium_executable dangling_disk = Raise dangling.
Proof.
  assert (Hfind : find_chromium_executable sample_disk
                  = Ok (Some "/Users/dev/Library/Caches/ms-playwright/chromium-1200/chrome-linux/chrome"))
    by (vm_compute; reflexivity).
  split; [exact Hfind|]. split.
  - destruct (proj1 (chromium_is_the_newest_installed sample_disk) _ Hfind)
      as (h & entries & name & t & _ & _ & _ & _ & _ & _ & Hexists & _).
    exact Hexists.
  - vm_compute. reflexivity.
Defined.

(** ** What ends the pump *)

Lemma is_empty_spec t : is_empty t = true <-> t = "".
Proof. destruct t; simpl; split; congruence. Qed.

(** [route] raises nothing but [TypeError], and whether it raises is a
    matter of the message alone, not of the table. *)
Lemma route_raises msg s :
  if breaks_the_pump msg then route msg s = Raise TypeError
  else exists s', route msg s = Ok s'.
Proof.
  unfold route, breaks_the_pump.
  destruct msg as [| | | | t | items | members]; simpl; try reflexivity.
  - destruct (contains_str "id" t); simpl; eauto.
  - destruct (existsb (is_str "id") items); simpl; eauto.
  - destruct (assoc "id" members) as [v|] eqn:Hid; simpl; [|eauto].
    destruct v as [|b|n|f| | |]; simpl; eauto.
    + destruct (pending_responses s !! (if b then 1 else 0)); eauto.
    + destruct (pending_responses s !! n); eauto.
    + destruct (float_as_int f) as [k|]; simpl; eauto.
      destruct (pending_responses s !! k); eauto.
Qed.

(** The body of the loop raises on exactly two kinds of line. *)
Lemma pump_line_raises json_loads line s e :
  pump_line json_loads line s = Raise e
  <-> strip line <> ""
      /\ ((json_loads (strip line) = Raise e /\ e <> JSONDecodeError)
          \/ (e = TypeError
              /\ exists msg, json_loads (strip line) = Ok msg
                             /\ breaks_the_pump msg = true)).
Proof.
  unfold pump_line. destruct (is_empty (strip line)) eqn:Hempty.
  - apply is_empty_spec in Hempty. split; [discriminate | intros [H _]; congruence].
  - assert (Hline : strip line <> "").
    { intros H. apply is_empty_spec in H. congruence. }
    destruct (json_loads (strip line)) as [msg|e'] eqn:Hmsg.
    + pose proof (route_raises msg s) as Hr.
      destruct (breaks_the_pump msg) eqn:Hb; split.
      * rewrite Hr. intros H; inversion H; subst.
        split; [exact Hline|]. right. split; [reflexivity|]. eauto.
      * intros [_ [[H _] | [-> _]]]; [discriminate | exact Hr].
      * destruct Hr as [s' Hr]. rewrite Hr. discriminate.
      * intros [_ [[H _] | [_ (msg' & Hmsg' & Hb')]]]; [discriminate|].
        inversion Hmsg'; subst. congruence.
    + split.
      * intros H. split; [exact Hline|]. left.
        destruct e'; inversion H; subst; split; congruence.
      * intros [_ [[H Hne] | [_ (msg' & Hmsg' & _)]]]; [|discriminate].
        inversion H; subst. destruct e; congruence.
Qed.

Lemma read_stream_lines json_loads lines : forall s,
  read_stream json_loads (map Text lines) s = read_loop json_loads lines s.
Proof.
  induction lines as [|line rest IH]; intros s; [reflexivity|]. simpl.
  destruct (pump_line json_loads line s); [apply IH | reflexivity].
Qed.

(** X3. Handling what the pipe gives, one item at a time, the loop of
    [_read_stdout] is left by an exception, and its thread ends, in exactly
    three cases: bytes that do not decode, on which the [for] statement
    raises [UnicodeDecodeError] outside the [try]; a line on which
    [json.loads] raises something other than [JSONDecodeError]; and a line
    that decodes to a message that is not an object (or to an object whose
    [id] is a list or an object), on which the test of the [id] raises
    [TypeError]. What the table holds has no part in it. The loop is left
    with the state as it was, and what the pipe gives afterwards is not
    read. (Each item is handled in one piece, no caller acting between the
    test of the [id] and the [put].) *)
Theorem what_ends_the_pump
    (json_loads : string -> result json) (c : chunk) (rest : list chunk)
    (s : Session) (e : exn) :
  (pump_chunk json_loads c s = Raise e
   <-> (c = Undecodable /\ e = UnicodeDecodeError)
       \/ exists line,
            c = Text line /\ strip line <> ""
            /\ ((json_loads (strip line) = Raise e /\ e <> JSONDecodeError)
                \/ (e = TypeError
                    /\ exists msg, json_loads (strip line) = Ok msg
                                   /\ breaks_the_pump msg = true)))
  /\ (pump_chunk json_loads c s = Raise e ->
      read_stream json_loads (c :: rest) s = (Raise e, s))
  /\ (forall lines, read_stream json_loads (map Text lines) s = read_loop json_loads lines s).
Proof.
  split; [|split].
  - destruct c as [line|]; simpl.
    + rewrite pump_line_raises. split.
      * intros H. right. exists line. split; [reflexivity | exact H].
      * intros [[H _] | (line' & Heq & H)]; [discriminate|]. inversion Heq; subst. exact H.
    + split.
      * intros H; inversion H; subst. left. split; reflexivity.
      * intros [[_ ->] | (line' & Heq & _)]; [reflexivity | discriminate].
  - intros H. simpl. rewrite H. reflexivity.
  - intros lines. apply read_stream_lines.
Qed.

Lemma what_ends_the_pump_witness :
  pump_chunk Sample.json_loads (Text "[1, 2]") waiting <> Raise TypeError
  /\ pump_chunk Sample.json_loads (Text (line_of (JStr "video"))) waiting = Raise TypeError
  /\ pump_chunk Sample.json_loads (Text (line_of (JObj [("id", JArr [JInt 1])]))) waiting
     = Raise TypeError
  /\ read_stream Sample.json_loads
       [Undecodable; Text (line_of (text_reply 1 "snapshot..."))] waiting
     = (Raise UnicodeDecodeError, waiting).
Proof.
  split; [vm_compute; discriminate|]. split; [|split].
  - apply (what_ends_the_pump Sample.json_loads _ [] waiting TypeError). right.
    exists (line_of (JStr "video")). split; [reflexivity|].
    split; [vm_compute; discriminate|].
    right. split; [reflexivity|]. exists (JStr "video"). split; vm_compute; reflexivity.
  - apply (what_ends_the_pump Sample.json_loads _ [] waiting TypeError). right.
    exists (line_of (JObj [("id", JArr [JInt 1])])). split; [reflexivity|].
    split; [vm_compute; discriminate|].
    right. split; [reflexivity|]. exists (JObj [("id", JArr [JInt 1])]).
    split; vm_compute; reflexivity.
  - apply (what_ends_the_pump Sample.json_loads Undecodable
             [Text (line_of (text_reply 1 "snapshot..."))] waiting UnicodeDecodeError).
    reflexivity.
Defined.

(** ** After the pump has ended *)


Lemma in_flight_slot method params s :
  started s = true ->
  slot (length (queues s)) (in_flight method params s) = [].
Proof.
  intros Hs. destruct (in_flight_state method params s Hs) as (_ & Hq & _).
  unfold slot. rewrite Hq, lookup_app_r by lia. rewrite Nat.sub_diag. reflexivity.
Qed.



(** ** The table in every state a session reaches *)

Lemma entry_of_carries msg s q :
  entry_of msg s = Some q ->
  exists k, carries_id k msg /\ pending_responses s !! k = Some q.
Proof.
  unfold entry_of. destruct msg as [| | | | | |members]; try discriminate.
  destruct (assoc "id" members) as [v|] eqn:Hid; [|discriminate].
  destruct (int_key v) as [[k|]|e] eqn:Hkey; try discriminate.
  intros Hq. exists k. split; [|exact Hq]. exists members, v. auto.
Qed.

Lemma py_del_consistent k s s' :
  py_del k s = Ok s' -> consistent s -> consistent s'.
Proof.
  intros Hd (Hwf & Hns & Hsm). split; [exact (py_del_well_formed k s s' Hd Hwf)|].
  unfold py_del in Hd. destruct (pending_responses s !! k); [|discriminate].
  inversion Hd; subst. split.
  - intros k1 k2 q H1 H2. simpl in *.
    apply lookup_delete_Some in H1, H2. apply (Hns k1 k2 q); tauto.
  - intros k' q' Hk'. simpl in *. apply lookup_delete_Some in Hk'.
    apply (Hsm k' q'). tauto.
Qed.

Section Consistency.

Variable json_loads : string -> result json.

Lemma prepare_consistent s : consistent s -> consistent (snd (send_prepare s)).
Proof.
  intros (Hwf & Hns & Hsm).
  split; [exact (act_well_formed json_loads APrepare s Hwf)|].
  unfold send_prepare. destruct (started s); [|split; assumption]. simpl. split.
  - intros k1 k2 q H1 H2. simpl in *.
    apply lookup_insert_Some in H1, H2.
    destruct H1 as [[<- <-] | [_ H1]], H2 as [[<- H2] | [_ H2]]; try reflexivity.
    + destruct (Hwf _ _ H2). lia.
    + destruct (Hwf _ _ H1). subst. lia.
    + exact (Hns k1 k2 q H1 H2).
  - intros k q Hk. simpl in *. unfold slot. simpl.
    apply lookup_insert_Some in Hk. destruct Hk as [[<- <-] | [_ Hk]].
    + rewrite lookup_app_r by lia. rewrite Nat.sub_diag. constructor.
    + destruct (Hwf _ _ Hk) as [_ Hq]. rewrite lookup_app_l by exact Hq.
      exact (Hsm k q Hk).
Qed.

Lemma route_consistent msg s s' :
  route msg s = Ok s' -> consistent s -> consistent s'.
Proof.
  intros Hr Hc. pose proof (route_entry msg s) as He.
  destruct (entry_of msg s) as [q|] eqn:Hentry.
  - rewrite He in Hr. inversion Hr; subst. clear Hr He.
    destruct Hc as (Hwf & Hns & Hsm).
    destruct (entry_of_carries msg s q Hentry) as (k & Hk & Hq).
    split; [|split].
    + intros k' q' Hk'. simpl in *. rewrite length_alter. exact (Hwf k' q' Hk').
    + exact Hns.
    + intros k' q' Hk'. simpl in Hk'. destruct (decide (q' = q)) as [->|Hne].
      * rewrite queue_put_slot by (destruct (Hwf _ _ Hq); assumption).
        rewrite (Hns k' k q Hk' Hq). apply Forall_app. split; [exact (Hsm k q Hq)|].
        constructor; [exact Hk | constructor].
      * rewrite queue_put_slot_other by congruence. exact (Hsm k' q' Hk').
  - destruct He as [He | [e He]]; rewrite He in Hr; inversion Hr; subst. exact Hc.
Qed.

Lemma pump_line_consistent line s s' :
  pump_line json_loads line s = Ok s' -> consistent s -> consistent s'.
Proof.
  unfold pump_line. destruct (is_empty (strip line)).
  - intros H; inversion H; subst. auto.
  - destruct (json_loads (strip line)) as [msg|e].
    + apply route_consistent.
    + destruct e; intros H; inversion H; subst; auto.
Qed.

Lemma await_consistent id q timeout s :
  consistent s -> consistent (snd (send_await id q timeout s)).
Proof.
  intros Hc. unfold send_await. destruct (timeout <? 0); [exact Hc|].
  destruct (slot q s) as [|first rest] eqn:Hslot.
  - destruct (py_del id s) as [s1|e1] eqn:Hd; [|exact Hc].
    exact (py_del_consistent id s s1 Hd Hc).
  - assert (Hc' : consistent (set_queues (<[q := rest]> (queues s)) s)).
    { destruct Hc as (Hwf & Hns & Hsm). split; [|split].
      - intros k' q' Hk'. simpl in *. rewrite length_insert. exact (Hwf k' q' Hk').
      - exact Hns.
      - intros k' q' Hk'. simpl in Hk'. specialize (Hsm k' q' Hk').
        unfold slot in *. simpl. destruct (decide (q' = q)) as [->|Hne].
        + destruct (queues s !! q) as [items|] eqn:Hitems; [|discriminate].
          rewrite list_lookup_insert_eq by (eapply lookup_lt_Some; eauto).
          simpl in *. subst. inversion Hsm; assumption.
        + rewrite list_lookup_insert_ne by congruence. exact Hsm. }
    destruct (py_del id _) as [s1|e1] eqn:Hd; [|exact Hc'].
    exact (py_del_consistent id _ s1 Hd Hc').
Qed.

Lemma act_consistent a s : consistent s -> consistent (act json_loads a s).
Proof.
  intros Hc. destruct a as [|req id failure|line|id q timeout|exits]; simpl.
  - apply prepare_consistent. exact Hc.
  - unfold send_write. destruct failure as [e|]; [|exact Hc].
    destruct (py_del id s) as [s1|e1] eqn:Hd; [|exact Hc].
    exact (py_del_consistent id s s1 Hd Hc).
  - destruct (stdout_thread s) as [[| |]|]; try exact Hc.
    destruct (pump_line json_loads line s) as [s1|e] eqn:Hp; [|exact Hc].
    exact (pump_line_consistent line s s1 Hp Hc).
  - apply await_consistent. exact Hc.
  - unfold stop. simpl. destruct (process s); exact Hc.
Qed.

Lemma run_consistent acts : forall s,
  consistent s -> consistent (snd (run json_loads acts s)).
Proof.
  induction acts as [|a rest IH]; intros s Hc; [exact Hc|].
  simpl. specialize (IH (act json_loads a s) (act_consistent a s Hc)).
  destruct (run json_loads rest (act json_loads a s)) as [ids s']. exact IH.
Qed.

End Consistency.

Lemma nothing_pending_consistent s : pending_responses s = ∅ -> consistent s.
Proof.
  intros Hempty. split; [|split]; intros k; intros; rewrite Hempty in *;
    rewrite lookup_empty in *; discriminate.
Qed.

(** X5. From a session with nothing pending (as [__init__] leaves it, and the
    spawn of [start] after it), whatever the callers, the pump and [stop] do
    and in whatever order: every key of the table is an id that was handed
    out and leads to a queue that exists, the id the next call will take is
    not a key, and no two pending requests wait on the same queue. *)
Theorem pending_table_stays_sound
    (json_loads : string -> result json) (acts : list action) (s0 : Session) :
  pending_responses s0 = ∅ ->
  let s := snd (run json_loads acts s0) in
  (forall k q, pending_responses s !! k = Some q ->
     msg_id s0 <= k < msg_id s /\ (length (queues s0) <= q < length (queues s))%nat)
  /\ pending_responses s !! msg_id s = None
  /\ (forall k1 k2 q,
        pending_responses s !! k1 = Some q -> pending_responses s !! k2 = Some q -> k1 = k2).
Proof.
  intros Hempty s.
  destruct (run_consistent json_loads acts s0 (nothing_pending_consistent s0 Hempty))
    as (Hwf & Hns & _). fold s in Hwf, Hns.
  split; [|split; [exact (well_formed_fresh s Hwf) | exact Hns]].
  assert (Hlow : forall acts s1,
            (forall k q, pending_responses s1 !! k = Some q ->
               msg_id s0 <= k /\ (length (queues s0) <= q)%nat) ->
            msg_id s0 <= msg_id s1 -> (length (queues s0) <= length (queues s1))%nat ->
            forall k q, pending_responses (snd (run json_loads acts s1)) !! k = Some q ->
               msg_id s0 <= k /\ (length (queues s0) <= q)%nat).
  { clear. induction acts as [|a rest IH]; intros s1 Hkeys Hid Hlen; [exact Hkeys|].
    simpl. specialize (IH (act json_loads a s1)).
    destruct (run json_loads rest (act json_loads a s1)) as [ids s'] eqn:Hrun.
    simpl in *. apply IH; clear IH.
    - destruct a as [|req id failure|line|id q timeout|exits]; simpl.
      + unfold send_prepare. destruct (started s1); [|exact Hkeys]. simpl.
        intros k q Hk. apply lookup_insert_Some in Hk.
        destruct Hk as [[<- <-] | [_ Hk]]; [split; assumption | exact (Hkeys k q Hk)].
      + unfold send_write. destruct failure as [e|]; [|exact Hkeys].
        unfold py_del. destruct (pending_responses s1 !! id); [|exact Hkeys]. simpl.
        intros k q Hk. apply lookup_delete_Some in Hk. apply Hkeys. tauto.
      + pose proof (pump_lines_frame json_loads [line] s1) as Hf. simpl in Hf.
        destruct Hf as (-> & _). exact Hkeys.
      + unfold send_await. destruct (timeout <? 0); [exact Hkeys|].
        unfold py_del. destruct (slot q s1); simpl;
          (destruct (pending_responses s1 !! id); [|exact Hkeys]); simpl;
          intros k q' Hk; apply lookup_delete_Some in Hk; apply Hkeys; tauto.
      + destruct (stop_frame exits s1) as (_ & _ & -> & _). exact Hkeys.
    - destruct (act_counter json_loads a s1) as [_ Hc].
      destruct (allocates a s1); [destruct Hc as [_ ->] | rewrite Hc]; lia.
    - destruct a as [|req id failure|line|id q timeout|exits]; simpl.
      + unfold send_prepare. destruct (started s1); simpl; [rewrite length_app|]; lia.
      + unfold send_write. destruct failure as [e|]; [|exact Hlen].
        destruct (py_del id s1) as [s2|] eqn:Hd; simpl; [|exact Hlen].
        apply py_del_frame in Hd. destruct Hd as (_ & _ & -> & _). exact Hlen.
      + pose proof (pump_lines_frame json_loads [line] s1) as Hf. simpl in Hf.
        destruct Hf as (_ & _ & _ & _ & _ & _ & _ & ->). exact Hlen.
      + unfold send_await. destruct (timeout <? 0); [exact Hlen|].
        destruct (slot q s1).
        * destruct (py_del id s1) as [s2|] eqn:Hd; simpl; [|exact Hlen].
          apply py_del_frame in Hd. destruct Hd as (_ & _ & -> & _). exact Hlen.
        * destruct (py_del id _) as [s2|] eqn:Hd; simpl;
            [apply py_del_frame in Hd; destruct Hd as (_ & _ & -> & _); simpl|];
            rewrite length_insert; exact Hlen.
      + destruct (stop_frame exits s1) as (_ & _ & _ & ->). exact Hlen. }
  intros k q Hk. destruct (Hwf k q Hk) as [Hk1 Hq1].
  destruct (Hlow acts s0) with (k := k) (q := q) as [Hk0 Hq0];
    [intros k' q' H; rewrite Hempty, lookup_empty in H; discriminate | lia | lia | exact Hk |].
  split; lia.
Qed.

Lemma pending_table_stays_sound_witness :
  let s := snd (run Sample.json_loads two_callers ready) in
  pending_responses ready = ∅
  /\ pending_responses s !! 1 = Some 0%nat
  /\ pending_responses s !! 2 = Some 1%nat
  /\ pending_responses s !! msg_id s = None.
Proof.
  intros s. split; [reflexivity|]. split; [vm_compute; reflexivity|].
  split; [vm_compute; reflexivity|].
  exact (proj1 (proj2 (pending_table_stays_sound Sample.json_loads two_callers ready eq_refl))).
Defined.

(** X6. In every state reached from a session with nothing pending, by
    whatever the callers, the pump and [stop] do and in whatever order, what
    waits in the queue of a pending request is for that request: each message there is an object whose [id] equals the
    request's id. So whatever a caller gets out of its queue carries the id
    of its own request, however the replies to the requests of other
    callers are interleaved with it. *)
Theorem replies_reach_only_their_own_caller
    (json_loads : string -> result json) (acts : list action) (s0 : Session)
    (id : Z) (q : loc) (timeout : Z) (reply : json) :
  pending_responses s0 = ∅ ->
  let s := snd (run json_loads acts s0) in
  pending_responses s !! id = Some q ->
  fst (send_await id q timeout s) = Ok reply ->
  Forall (carries_id id) (slot q s) /\ carries_id id reply.
Proof.
  intros Hempty s Hid Hget.
  destruct (run_consistent json_loads acts s0 (nothing_pending_consistent s0 Hempty))
    as (_ & _ & Hsm). fold s in Hsm.
  specialize (Hsm id q Hid). split; [exact Hsm|].
  unfold send_await in Hget. destruct (timeout <? 0); [discriminate|].
  unfold py_del in Hget. destruct (slot q s) as [|first rest]; simpl in Hget.
  - rewrite Hid in Hget. discriminate.
  - rewrite Hid in Hget. simpl in Hget. inversion Hget; subst.
    inversion Hsm; assumption.
Qed.

Lemma replies_reach_only_their_own_caller_witness :
  let s := snd (run Sample.json_loads two_callers ready) in
  pending_responses ready = ∅
  /\ pending_responses s !! 1 = Some 0%nat
  /\ fst (send_await 1 0 60 s) = Ok (text_reply 1 "first")
  /\ carries_id 1 (text_reply 1 "first").
Proof.
  intros s.
  assert (Hid : pending_responses s !! 1 = Some 0%nat) by (vm_compute; reflexivity).
  assert (Hget : fst (send_await 1 0 60 s) = Ok (text_reply 1 "first"))
    by (vm_compute; reflexivity).
  split; [reflexivity|]. split; [exact Hid|]. split; [exact Hget|].
  exact (proj2 (replies_reach_only_their_own_caller Sample.json_loads two_callers ready
                  1 0%nat 60 (text_reply 1 "first") eq_refl Hid Hget)).
Defined.

(** ** One call, from the request to the reply *)

Section OneCall.

Variable json_loads : string -> result json.

Lemma pump_lines_app lines1 : forall lines2 s,
  pump_lines json_loads (lines1 ++ lines2)%list s
  = pump_lines json_loads lines2 (pump_lines json_loads lines1 s).
Proof.
  induction lines1 as [|line rest IH]; intros lines2 s; [reflexivity|].
  rewrite <- app_comm_cons, pump_lines_cons, IH, <- pump_lines_cons. reflexivity.
Qed.

(** The pump takes nothing out of a queue. *)
Lemma route_appends msg s s' q :
  route msg s = Ok s' -> exists extra, slot q s' = (slot q s ++ extra)%list.
Proof.
  intros Hr. pose proof (route_entry msg s) as He.
  destruct (entry_of msg s) as [q'|].
  - rewrite He in Hr. inversion Hr; subst. unfold slot, queue_put. simpl.
    destruct (decide (q' = q)) as [->|Hne].
    + rewrite list_lookup_alter_eq. destruct (queues s !! q); simpl; eauto.
    + rewrite list_lookup_alter_ne by exact Hne. exists []. rewrite app_nil_r. reflexivity.
  - destruct He as [He | [e He]]; rewrite He in Hr; inversion Hr; subst.
    exists []. rewrite app_nil_r. reflexivity.
Qed.

Lemma pump_line_appends line s s' q :
  pump_line json_loads line s = Ok s' -> exists extra, slot q s' = (slot q s ++ extra)%list.
Proof.
  unfold pump_line. destruct (is_empty (strip line)).
  - intros H; inversion H; subst. exists []. rewrite app_nil_r. reflexivity.
  - destruct (json_loads (strip line)) as [msg|e]; [apply route_appends|].
    destruct e; intros H; inversion H; subst. exists []. rewrite app_nil_r. reflexivity.
Qed.

Lemma pump_lines_appends lines : forall s q,
  exists extra, slot q (pump_lines json_loads lines s) = (slot q s ++ extra)%list.
Proof.
  induction lines as [|line rest IH]; intros s q; simpl.
  - exists []. rewrite app_nil_r. reflexivity.
  - destruct (stdout_thread s) as [[| |]|];
      try (exists []; rewrite app_nil_r; reflexivity).
    destruct (pump_line json_loads line s) as [s1|e] eqn:H1.
    + destruct (pump_line_appends line s s1 q H1) as [extra1 H1'].
      destruct (IH s1 q) as [extra2 H2]. exists (extra1 ++ extra2)%list.
      rewrite H2, H1', app_assoc. reflexivity.
    + exists []. rewrite app_nil_r. reflexivity.
Qed.

(** A line that passes by the request [k] leaves the queue of [k] alone and
    the pump alive. *)
Lemma passes_by_pump_line k q line s :
  (forall k', pending_responses s !! k' = Some q -> k' = k) ->
  passes_by json_loads k line ->
  exists s',
    pump_line json_loads line s = Ok s'
    /\ slot q s' = slot q s
    /\ pending_responses s' = pending_responses s
    /\ stdout_thread s' = stdout_thread s
    /\ length (queues s') = length (queues s).
Proof.
  intros Honly Hpass. unfold pump_line.
  destruct (is_empty (strip line)) eqn:Hempty; [exists s; repeat split|].
  destruct Hpass as [Hblank | [Hbad | (members & Hmsg & Hid)]].
  - apply is_empty_spec in Hblank. congruence.
  - rewrite Hbad. exists s. repeat split.
  - rewrite Hmsg. pose proof (route_raises (JObj members) s) as Hr.
    pose proof (route_entry (JObj members) s) as He.
    unfold entry_of in He. simpl in Hr.
    destruct (assoc "id" members) as [v|] eqn:Hv.
    + destruct Hid as (key & Hkey & Hne). rewrite Hkey in He.
      assert (Hok : exists s', route (JObj members) s = Ok s').
      { destruct v; try exact Hr; discriminate. }
      destruct key as [k'|].
      * destruct (pending_responses s !! k') as [q'|] eqn:Hq'.
        -- rewrite He. exists (queue_put q' (JObj members) s).
           split; [reflexivity|]. split.
           ++ apply queue_put_slot_other. intros ->. apply Hne. f_equal.
              exact (Honly k' Hq').
           ++ simpl. rewrite length_alter. repeat split.
        -- destruct Hok as [s' Hs']. destruct He as [He | [e He]]; [|congruence].
           rewrite He. exists s. repeat split.
      * destruct Hok as [s' Hs']. destruct He as [He | [e He]]; [|congruence].
        rewrite He. exists s. repeat split.
    + destruct Hr as [s' Hs']. destruct He as [He | [e He]]; [|congruence].
      rewrite He. exists s. repeat split.
Qed.

Lemma passes_by_pump_lines k q lines : forall s,
  stdout_thread s = Some Alive ->
  (forall k', pending_responses s !! k' = Some q -> k' = k) ->
  Forall (passes_by json_loads k) lines ->
  let s' := pump_lines json_loads lines s in
  slot q s' = slot q s
  /\ pending_responses s' = pending_responses s
  /\ stdout_thread s' = Some Alive
  /\ length (queues s') = length (queues s).
Proof.
  induction lines as [|line rest IH]; intros s Halive Honly Hall; simpl.
  - repeat split. exact Halive.
  - inversion Hall as [|? ? Hline Hrest]; subst. rewrite Halive.
    destruct (passes_by_pump_line k q line s Honly Hline)
      as (s1 & -> & Hslot & Hp & Ht & Hlen).
    destruct (IH s1) as (Hslot' & Hp' & Ht' & Hlen');
      [congruence | rewrite Hp; exact Honly | exact Hrest |].
    repeat split; congruence.
Qed.

(** With a sound table, the entry of a call that is in flight is the only
    one that leads to the call's queue. *)
Lemma in_flight_only method params s :
  started s = true -> well_formed s ->
  forall k', pending_responses (in_flight method params s) !! k' = Some (length (queues s)) ->
             k' = msg_id s.
Proof.
  intros Hs Hwf k' Hk'. destruct (in_flight_state method params s Hs) as (Hp & _).
  rewrite Hp in Hk'. apply lookup_insert_Some in Hk'.
  destruct Hk' as [[<- _] | [_ Hk']]; [reflexivity|].
  destruct (Hwf _ _ Hk'). lia.
Qed.

(** With a sound table and a timeout that is not negative, a call leaves
    the table exactly as it found it, whatever its outcome. *)
Lemma send_request_table method params timeout env s :
  well_formed s -> 0 <= timeout ->
  pending_responses (snd (_send_request json_loads method params timeout env s))
  = pending_responses s.
Proof.
  intros Hwf HT. pose proof (well_formed_fresh s Hwf) as Hfresh.
  destruct (started s) eqn:Hs.
  - destruct (write_error env) as [e|] eqn:Hw.
    + unfold _send_request. rewrite (send_prepare_started s Hs), Hw.
      unfold send_write, py_del. simpl. rewrite lookup_insert_eq. simpl.
      rewrite delete_insert_eq. apply delete_id. exact Hfresh.
    + rewrite (send_request_blocks json_loads method params timeout env s Hs Hw).
      pose proof (pump_lines_frame json_loads (arrivals env) (in_flight method params s)) as Hf.
      simpl in Hf. destruct Hf as (Hp & _).
      destruct (in_flight_state method params s Hs) as (Hp1 & _).
      set (s3 := pump_lines json_loads (arrivals env) (in_flight method params s)) in *.
      unfold send_await. destruct (timeout <? 0) eqn:Hneg; [apply Z.ltb_lt in Hneg; lia|].
      assert (Hdel : delete (msg_id s) (pending_responses s3) = pending_responses s).
      { rewrite Hp, Hp1, delete_insert_eq. apply delete_id. exact Hfresh. }
      assert (Hkey : pending_responses s3 !! msg_id s = Some (length (queues s))).
      { rewrite Hp, Hp1. apply lookup_insert_eq. }
      unfold py_del. destruct (slot (length (queues s)) s3); cbn [pending_responses set_queues];
        rewrite Hkey; simpl; exact Hdel.
  - unfold _send_request. rewrite (send_prepare_not_started s Hs). reflexivity.
Qed.


End OneCall.

(** X7. While the caller of a started session is blocked and the pump is alive,
    lines that do not concern the call (blank lines, text that is not JSON,
    objects with no [id] or with an [id] that is not the call's) change
    nothing for it: the first message that carries the call's id is what the
    call returns, whatever the child prints after it, and the table is then
    as it was before the call. *)
Theorem first_reply_for_the_id_is_returned
    (json_loads : string -> result json) (method : string)
    (params : option (list (string * json))) (timeout : Z) (env : SendEnv)
    (s : Session) (before : list string) (line : string) (after : list string)
    (reply : json) :
  started s = true ->
  well_formed s ->
  stdout_thread s = Some Alive ->
  write_error env = None ->
  0 <= timeout ->
  arrivals env = (before ++ line :: after)%list ->
  Forall (passes_by json_loads (msg_id s)) before ->
  strip line <> "" ->
  json_loads (strip line) = Ok reply ->
  carries_id (msg_id s) reply ->
  exists s',
    _send_request json_loads method params timeout env s = (Ok reply, s')
    /\ pending_responses s' = pending_responses s
    /\ msg_id s' = msg_id s + 1.
Proof.
  intros Hs Hwf Halive Hw HT Harr Hbefore Hline Hmsg (members & v & -> & Hv & Hkey).
  pose proof (send_request_table json_loads method params timeout env s Hwf HT) as Htable.
  pose proof (send_request_frame json_loads method params timeout env s) as Hframe.
  simpl in Hframe. destruct Hframe as (_ & _ & _ & _ & Hid & _).
  rewrite (send_request_blocks json_loads method params timeout env s Hs Hw) in *.
  rewrite Harr, pump_lines_app, pump_lines_cons in *.
  destruct (in_flight_state method params s Hs) as (Hp & Hq & _ & _ & _ & Ht & _).
  set (s1 := in_flight method params s) in *.
  set (q := length (queues s)) in *.
  destruct (passes_by_pump_lines json_loads (msg_id s) q before s1)
    as (Hslot2 & Hp2 & Ht2 & Hlen2);
    [congruence | exact (in_flight_only method params s Hs Hwf) | exact Hbefore |].
  set (s2 := pump_lines json_loads before s1) in *.
  assert (Hentry : entry_of (JObj members) s2 = Some q).
  { unfold entry_of. rewrite Hv, Hkey, Hp2, Hp. apply lookup_insert_eq. }
  assert (Hs3 : pump_lines json_loads [line] s2 = queue_put q (JObj members) s2).
  { simpl. rewrite Ht2, (pump_line_decoded json_loads line _ s2 Hline Hmsg).
    pose proof (route_entry (JObj members) s2) as Hr. rewrite Hentry in Hr.
    rewrite Hr. reflexivity. }
  rewrite Hs3 in *.
  assert (Hslot3 : slot q (queue_put q (JObj members) s2) = [JObj members]).
  { rewrite queue_put_slot by (rewrite Hlen2, Hq, length_app; unfold q; simpl; lia).
    rewrite Hslot2. unfold s1, q. rewrite (in_flight_slot method params s Hs). reflexivity. }
  destruct (pump_lines_appends json_loads after (queue_put q (JObj members) s2) q)
    as [extra Hslot4].
  rewrite Hslot3 in Hslot4. simpl in Hslot4.
  set (s4 := pump_lines json_loads after (queue_put q (JObj members) s2)) in *.
  destruct (send_await_takes_first (msg_id s) q timeout (JObj members) extra s4 HT)
    as (s' & Hcall & _); [|exact Hslot4|].
  - pose proof (pump_lines_frame json_loads after (queue_put q (JObj members) s2)) as Hf.
    simpl in Hf. destruct Hf as (Hp4 & _). fold s4 in Hp4.
    rewrite Hp4. simpl. rewrite Hp2, Hp. apply lookup_insert_eq.
  - rewrite Hcall in *. simpl in *. exists s'. split; [reflexivity|]. auto.
Qed.

Lemma first_reply_for_the_id_is_returned_witness :
  let reply := text_reply 1 "snapshot..." in
  let env := mkSendEnv None (chatter ++ line_of reply
                               :: [line_of (text_reply 1 "again"); "42"])%list in
  exists s',
    _send_request Sample.json_loads "tools/call" None 60 env ready = (Ok reply, s')
    /\ pending_responses s' = pending_responses ready.
Proof.
  intros reply env.
  assert (Hwf : well_formed ready).
  { intros k q H. vm_compute in H. discriminate. }
  assert (Hbefore : Forall (passes_by Sample.json_loads (msg_id ready)) chatter).
  { unfold chatter.
    constructor; [left; reflexivity|].
    constructor; [right; left; vm_compute; reflexivity|].
    constructor; [right; right; eexists; split; [vm_compute; reflexivity | exact I]|].
    constructor; [|constructor].
    right. right. eexists. split; [vm_compute; reflexivity|]. simpl.
    exists (Some 7). split; [reflexivity | discriminate]. }
  destruct (first_reply_for_the_id_is_returned Sample.json_loads "tools/call" None 60 env
              ready chatter (line_of reply) [line_of (text_reply 1 "again"); "42"] reply
              eq_refl Hwf eq_refl eq_refl ltac:(lia) eq_refl Hbefore
              ltac:(vm_compute; discriminate) ltac:(vm_compute; reflexivity)
              ltac:(eexists _, _; repeat split; reflexivity))
    as (s' & Hcall & Htable & _).
  exists s'. split; [exact Hcall | exact Htable].
Defined.

(** ** The table after a call *)



(** The other side of it: a negative timeout makes [Queue.get] raise
    [ValueError], for which [_send_request] has no handler, and the entry of
    the call stays in the table for good. *)
Lemma negative_timeout_raises_value_error_witness :
  started ready = true /\ -1 < 0
  /\ exists s',
       _send_request Sample.json_loads "tools/call" None (-1) (mkSendEnv None []) ready
       = (Raise ValueError, s')
       /\ pending_responses s' !! 1 = Some 0%nat.
Proof.
  split; [reflexivity|]. split; [lia|].
  exact (negative_timeout_raises_value_error Sample.json_loads "tools/call" None (-1)
           (mkSendEnv None []) ready eq_refl eq_refl ltac:(lia)).
Defined.

(** ** What a call goes by, and what [stop] leaves of it *)

Section SameExchange.

Variable json_loads : string -> result json.

Lemma same_exchange_refl s : same_exchange s s.
Proof. repeat split. Qed.

Lemma py_del_same k s1 s2 :
  same_exchange s1 s2 -> same_outcome (py_del k s1) (py_del k s2).
Proof.
  intros (Hs & Hid & Hp & Hq & Ht & Hin). unfold py_del. rewrite Hp.
  destruct (pending_responses s2 !! k); simpl; [|reflexivity].
  unfold same_exchange, started in *. simpl. repeat split; assumption.
Qed.

Lemma route_same msg s1 s2 :
  same_exchange s1 s2 -> same_outcome (route msg s1) (route msg s2).
Proof.
  intros Hsame. pose proof Hsame as (Hs & Hid & Hp & Hq & Ht & Hin).
  pose proof (route_entry msg s1) as H1. pose proof (route_entry msg s2) as H2.
  assert (He : entry_of msg s1 = entry_of msg s2) by (unfold entry_of; rewrite Hp; reflexivity).
  rewrite He in H1. destruct (entry_of msg s2) as [q|].
  - rewrite H1, H2. simpl. unfold same_exchange, started in *. simpl. rewrite Hq.
    repeat split; assumption.
  - pose proof (route_raises msg s1) as R1. pose proof (route_raises msg s2) as R2.
    destruct (breaks_the_pump msg).
    + rewrite R1, R2. reflexivity.
    + destruct R1 as [a Ra], R2 as [b Rb].
      destruct H1 as [H1 | [e H1]]; [|congruence].
      destruct H2 as [H2 | [e H2]]; [|congruence].
      rewrite H1, H2. exact Hsame.
Qed.

Lemma pump_line_same line s1 s2 :
  same_exchange s1 s2 ->
  same_outcome (pump_line json_loads line s1) (pump_line json_loads line s2).
Proof.
  intros Hsame. unfold pump_line. destruct (is_empty (strip line)); [exact Hsame|].
  destruct (json_loads (strip line)) as [msg|e]; [apply route_same; exact Hsame|].
  destruct e; simpl; try reflexivity. exact Hsame.
Qed.

Lemma pump_lines_same lines : forall s1 s2,
  same_exchange s1 s2 ->
  same_exchange (pump_lines json_loads lines s1) (pump_lines json_loads lines s2).
Proof.
  induction lines as [|line rest IH]; intros s1 s2 Hsame; [exact Hsame|]. simpl.
  pose proof Hsame as (Hs & Hid & Hp & Hq & Ht & Hin). rewrite Ht.
  destruct (stdout_thread s2) as [[| |]|]; try exact Hsame.
  pose proof (pump_line_same line s1 s2 Hsame) as Hl.
  destruct (pump_line json_loads line s1) as [a|e1],
           (pump_line json_loads line s2) as [b|e2]; simpl in Hl; try contradiction.
  - apply IH. exact Hl.
  - subst. unfold same_exchange, started in *. simpl. repeat split; assumption.
Qed.

Lemma send_await_same id q timeout s1 s2 :
  same_exchange s1 s2 ->
  fst (send_await id q timeout s1) = fst (send_await id q timeout s2)
  /\ same_exchange (snd (send_await id q timeout s1)) (snd (send_await id q timeout s2)).
Proof.
  intros Hsame. pose proof Hsame as (Hs & Hid & Hp & Hq & Ht & Hin).
  unfold send_await. destruct (timeout <? 0); [split; [reflexivity | exact Hsame]|].
  unfold slot. rewrite Hq. destruct (default [] (queues s2 !! q)) as [|first rest].
  - pose proof (py_del_same id s1 s2 Hsame) as Hd.
    destruct (py_del id s1) as [a|e1], (py_del id s2) as [b|e2];
      simpl in Hd; try contradiction; simpl; split; congruence || assumption.
  - assert (Hsame' : same_exchange (set_queues (<[q := rest]> (queues s2)) s1)
                                   (set_queues (<[q := rest]> (queues s2)) s2)).
    { unfold same_exchange, started in *. simpl. repeat split; assumption. }
    pose proof (py_del_same id _ _ Hsame') as Hd.
    destruct (py_del id (set_queues _ s1)) as [a|e1], (py_del id (set_queues _ s2)) as [b|e2];
      simpl in Hd; try contradiction; simpl; split; congruence || assumption.
Qed.

(** A call goes the same way in two sessions it cannot tell apart. *)
Lemma send_request_same method params timeout env s1 s2 :
  same_exchange s1 s2 ->
  fst (_send_request json_loads method params timeout env s1)
  = fst (_send_request json_loads method params timeout env s2)
  /\ same_exchange (snd (_send_request json_loads method params timeout env s1))
                   (snd (_send_request json_loads method params timeout env s2)).
Proof.
  intros Hsame. pose proof Hsame as (Hs & Hid & Hp & Hq & Ht & Hin).
  unfold _send_request. destruct (started s2) eqn:Hs2.
  - rewrite (send_prepare_started s1 Hs), (send_prepare_started s2 Hs2).
    rewrite Hid, Hq.
    set (a := set_pending _ (set_queues _ (set_msg_id _ s1))).
    set (b := set_pending _ (set_queues _ (set_msg_id _ s2))).
    assert (Hab : same_exchange a b).
    { unfold a, b, same_exchange, started in *. simpl. rewrite Hp.
      repeat split; congruence. }
    clearbody a b. unfold send_write. destruct (write_error env) as [e|].
    + pose proof (py_del_same (msg_id s2) a b Hab) as Hd.
      destruct (py_del (msg_id s2) a) as [a'|e1], (py_del (msg_id s2) b) as [b'|e2];
        simpl in Hd; try contradiction; simpl; split; congruence || assumption.
    + apply send_await_same. apply pump_lines_same.
      destruct Hab as (? & ? & ? & ? & ? & Hin').
      unfold same_exchange, started in *. simpl. rewrite Hin'. repeat split; congruence.
  - rewrite (send_prepare_not_started s1 Hs), (send_prepare_not_started s2 Hs2).
    split; [reflexivity | exact Hsame].
Qed.

Lemma send_request_running method params timeout env s :
  running (snd (_send_request json_loads method params timeout env s)) = running s.
Proof.
  unfold _send_request, send_prepare. destruct (started s); [|reflexivity]. simpl.
  unfold send_write. destruct (write_error env) as [e|].
  - unfold py_del. simpl. destruct (_ !! _); reflexivity.
  - set (s1 := set_child_stdin _ _).
    assert (Hpump : forall lines s0, running (pump_lines json_loads lines s0) = running s0).
    { clear. induction lines as [|line rest IH]; intros s0; [reflexivity|]. simpl.
      destruct (stdout_thread s0) as [[| |]|]; try reflexivity.
      destruct (pump_line json_loads line s0) as [s'|e] eqn:Hl; [|reflexivity].
      rewrite IH. unfold pump_line in Hl. destruct (is_empty (strip line)); [congruence|].
      assert (Hroute : forall msg, route msg s0 = Ok s' -> running s' = running s0).
      { intros msg Hr. pose proof (route_entry msg s0) as He.
        destruct (entry_of msg s0).
        - rewrite He in Hr. inversion Hr; subst. reflexivity.
        - destruct He as [He | [e He]]; rewrite He in Hr; inversion Hr; subst; reflexivity. }
      destruct (json_loads (strip line)) as [msg|e]; [exact (Hroute msg Hl)|].
      destruct e; congruence. }
    unfold send_await. destruct (timeout <? 0); simpl; [rewrite Hpump; reflexivity|].
    unfold py_del. destruct (slot _ _); simpl; destruct (_ !! _); simpl;
      rewrite Hpump; reflexivity.
Qed.

End SameExchange.

(** X10. No line of the class reads [running]: [stop] sets it to false and
    leaves the pipe to the child in place, so a call made after [stop] is
    not turned away. It takes the next id and goes the way it would have
    gone without the [stop] for the same behaviour of the pipe and of the
    child: same result, same counter, table and queues afterwards. *)
Theorem stop_does_not_close_the_session
    (json_loads : string -> result json) (exits_in_time : bool) (method : string)
    (params : option (list (string * json))) (timeout : Z) (env : SendEnv)
    (s : Session) :
  let after := _send_request json_loads method params timeout env (stop exits_in_time s) in
  let plain := _send_request json_loads method params timeout env s in
  running (stop exits_in_time s) = false
  /\ started (stop exits_in_time s) = started s
  /\ fst after = fst plain
  /\ same_exchange (snd after) (snd plain)
  /\ running (snd after) = false
  /\ (started s = true -> msg_id (snd after) = msg_id s + 1).
Proof.
  intros after plain.
  assert (Hrun : running (stop exits_in_time s) = false).
  { unfold stop. simpl. destruct (process s); reflexivity. }
  assert (Hsame : same_exchange (stop exits_in_time s) s).
  { destruct (stop_frame exits_in_time s) as (Hid & Hs & Hp & Hq).
    unfold same_exchange. repeat split; try assumption;
      unfold stop; simpl; destruct (process s); reflexivity. }
  destruct (send_request_same json_loads method params timeout env _ _ Hsame)
    as [Hfst Hsnd].
  split; [exact Hrun|]. split; [apply Hsame|]. split; [exact Hfst|].
  split; [exact Hsnd|]. split.
  - unfold after. rewrite send_request_running. exact Hrun.
  - intros Hs. destruct Hsnd as (_ & Hid' & _). unfold after. rewrite Hid'.
    pose proof (send_request_frame json_loads method params timeout env s) as Hf.
    simpl in Hf. destruct Hf as (_ & _ & _ & _ & Hid & _). exact (Hid Hs).
Qed.

Lemma stop_does_not_close_the_session_witness :
  let env := mkSendEnv (Some "[Errno 32] Broken pipe") [] in
  let after := _send_request Sample.json_loads "tools/call" None 60 env (stop true ready) in
  fst after = Raise (RuntimeError "Send failed: [Errno 32] Broken pipe")
  /\ msg_id (snd after) = 2.
Proof.
  intros env after.
  pose proof (stop_does_not_close_the_session Sample.json_loads true "tools/call" None 60
                env ready) as (_ & _ & Hfst & _ & _ & Hid).
  split; [|exact (Hid eq_refl)].
  unfold after. etransitivity; [exact Hfst | vm_compute; reflexivity].
Defined.

(** ** The ways a call can end *)

Section Outcomes.

Variable json_loads : string -> result json.

Lemma in_flight_consistent method params s :
  consistent s -> consistent (in_flight method params s).
Proof.
  intros Hc. unfold in_flight.
  pose proof (prepare_consistent json_loads s Hc) as Hc1.
  destruct (send_prepare s) as [r s1]. exact Hc1.
Qed.

Lemma pump_lines_consistent lines s :
  consistent s -> consistent (pump_lines json_loads lines s).
Proof.
  intros Hc. pose proof (run_consistent json_loads (map APump lines) s Hc) as H.
  rewrite run_pumps in H. exact H.
Qed.

Lemma send_request_outcomes method params timeout env s :
  started s = true -> consistent s -> 0 <= timeout ->
  match fst (_send_request json_loads method params timeout env s) with
  | Ok reply => write_error env = None /\ carries_id (msg_id s) reply
  | Raise e =>
      (exists text, write_error env = Some text
                    /\ e = RuntimeError ("Send failed: " ++ text))
      \/ (write_error env = None
          /\ e = TimeoutError ("Request timed out after " ++ str_of_int timeout ++ "s"))
  end.
Proof.
  intros Hs Hc HT. destruct (write_error env) as [text|] eqn:Hw.
  - unfold _send_request. rewrite (send_prepare_started s Hs), Hw.
    unfold send_write, py_del. simpl. rewrite lookup_insert_eq. simpl. left. eauto.
  - rewrite (send_request_blocks json_loads method params timeout env s Hs Hw).
    pose proof (pump_lines_consistent (arrivals env) _
                  (in_flight_consistent method params s Hc)) as (_ & _ & Hsm).
    pose proof (pump_lines_frame json_loads (arrivals env) (in_flight method params s)) as Hf.
    simpl in Hf. destruct Hf as (Hp & _).
    destruct (in_flight_state method params s Hs) as (Hp1 & _).
    set (s3 := pump_lines json_loads (arrivals env) (in_flight method params s)) in *.
    assert (Hkey : pending_responses s3 !! msg_id s = Some (length (queues s))).
    { rewrite Hp, Hp1. apply lookup_insert_eq. }
    specialize (Hsm _ _ Hkey).
    unfold send_await. destruct (timeout <? 0) eqn:Hneg; [apply Z.ltb_lt in Hneg; lia|].
    unfold py_del. destruct (slot (length (queues s)) s3) as [|first rest];
      cbn [pending_responses set_queues]; rewrite Hkey; simpl.
    + right. split; reflexivity.
    + split; [reflexivity|]. inversion Hsm; assumption.
Qed.


End Outcomes.



(** ** Starting *)

Lemma py_str_raises lim v e : py_str lim v = Raise e -> e = RecursionError.
Proof.
  rewrite py_str_text. destruct v; try discriminate;
    destruct (can_repr lim _); try discriminate; intros H; inversion H; reflexivity.
Qed.



(** ** One request, one line *)

Lemma no_newline_app s t : no_newline (s ++ t) = no_newline s && no_newline t.
Proof.
  induction s as [|c s IH]; simpl; [reflexivity|]. rewrite IH, andb_assoc. reflexivity.
Qed.

Lemma no_newline_join sep items :
  no_newline sep = true ->
  Forall (fun t => no_newline t = true) items ->
  no_newline (join sep items) = true.
Proof.
  intros Hsep Hall. induction Hall as [|t rest Ht Hrest IH]; [reflexivity|]. simpl.
  destruct rest as [|t' rest']; [exact Ht|].
  rewrite !no_newline_app, Ht, Hsep, IH. reflexivity.
Qed.

Lemma json_escape_char_one_line c : no_newline (json_escape_char c) = true.
Proof. destruct c as [[] [] [] [] [] [] [] []]; reflexivity. Qed.

Lemma json_string_one_line t : no_newline (json_string t) = true.
Proof.
  unfold json_string. simpl. rewrite no_newline_app. simpl. rewrite andb_true_r.
  induction t as [|c t IH]; simpl; [reflexivity|].
  rewrite no_newline_app, json_escape_char_one_line, IH. reflexivity.
Qed.

Lemma str_of_int_one_line n : no_newline (str_of_int n) = true.
Proof.
  unfold str_of_int.
  assert (Huint : forall d, no_newline (NilEmpty.string_of_uint d) = true).
  { induction d; simpl; auto. }
  assert (Hzero : forall d, no_newline (NilZero.string_of_uint d) = true).
  { intros d. unfold NilZero.string_of_uint. destruct d; try reflexivity; apply (Huint _). }
  destruct (Z.to_int n) as [d|d]; simpl; [apply Hzero|].
  apply Hzero.
Qed.

Lemma json_dumps_one_line : forall v, floats_plain v = true -> no_newline (json_dumps v) = true.
Proof.
  fix IH 1. intros [| [] | n | [m e shown | [] |] | t | items | members] Hv; simpl;
    try reflexivity.
  - apply str_of_int_one_line.
  - exact Hv.
  - apply json_string_one_line.
  - rewrite ?no_newline_app. repeat (apply andb_true_intro; split); try reflexivity.
    apply no_newline_join; [reflexivity|]. simpl in Hv.
    induction items as [|x rest IHitems]; [constructor|].
    simpl in Hv. apply andb_true_iff in Hv. destruct Hv as [Hx Hrest].
    constructor; [exact (IH x Hx) | exact (IHitems Hrest)].
  - rewrite ?no_newline_app. repeat (apply andb_true_intro; split); try reflexivity.
    apply no_newline_join; [reflexivity|]. simpl in Hv.
    induction members as [|[k x] rest IHmembers]; [constructor|].
    simpl in Hv. apply andb_true_iff in Hv. destruct Hv as [Hx Hrest].
    constructor; [|exact (IHmembers Hrest)].
    rewrite !no_newline_app, json_string_one_line, (IH x Hx). reflexivity.
Qed.

(** X13. What [_send_request] writes for a request is one line: [json.dumps]
    puts no line break into its output, since a line break inside a string
    is written as a backslash and an [n]. So however many lines a URL, a
    script or a text to type has, the request of every text operation
    reaches the child as exactly one line, which ends the only line break
    written. *)
Theorem every_request_is_one_line (json_loads : string -> result json) (lim : Limits) :
  (forall v, floats_plain v = true -> no_newline (json_dumps v) = true)
  /\ (forall method params timeout env s,
        started s = true -> write_error env = None ->
        floats_plain (JObj (default [] params)) = true ->
        exists text,
          child_stdin (snd (_send_request json_loads method params timeout env s))
          = (child_stdin s ++ [(text ++ newline)%string])%list
          /\ no_newline text = true)
  /\ (forall op env s,
        started s = true -> write_error env = None ->
        exists text,
          child_stdin (snd (perform json_loads lim op env s))
          = (child_stdin s ++ [(text ++ newline)%string])%list
          /\ no_newline text = true).
Proof.
  split; [exact json_dumps_one_line|].
  assert (Hcall : forall method params timeout env s,
            started s = true -> write_error env = None ->
            floats_plain (JObj (default [] params)) = true ->
            exists text,
              child_stdin (snd (_send_request json_loads method params timeout env s))
              = (child_stdin s ++ [(text ++ newline)%string])%list
              /\ no_newline text = true).
  { intros method params timeout env s Hs Hw Hplain.
    pose proof (send_request_frame json_loads method params timeout env s) as Hf.
    cbv zeta in Hf. destruct Hf as (_ & _ & _ & _ & _ & Hin).
    exists (json_dumps (request method params (msg_id s))).
    split; [exact (Hin Hs Hw)|].
    apply json_dumps_one_line. unfold request. simpl in *. rewrite Hplain. reflexivity. }
  split; [exact Hcall|].
  intros op env s Hs Hw.
  destruct (Hcall "tools/call"
              (Some [("name", JStr (tool_name op)); ("arguments", JObj (tool_arguments op))])
              60 env s Hs Hw) as (text & Hin & Hone).
  { destruct op; reflexivity. }
  exists text. split; [|exact Hone].
  rewrite perform_tool_call. unfold tool_call, call_tool.
  destruct (_send_request json_loads _ _ _ _ s) as [[reply|e] s']; exact Hin.
Qed.

Lemma every_request_is_one_line_witness :
  let script := ("() => {" ++ newline ++ "  return document.title;" ++ newline ++ "}")%string in
  no_newline script = false
  /\ started ready = true
  /\ exists text,
       child_stdin (snd (evaluate Sample.json_loads Sample.limits script
                           (mkSendEnv None []) ready))
       = [(text ++ newline)%string]
       /\ no_newline text = true.
Proof.
  intros script. split; [reflexivity|]. split; [reflexivity|].
  exact (proj2 (proj2 (every_request_is_one_line Sample.json_loads Sample.limits))
           (Evaluate script) (mkSendEnv None []) ready eq_refl eq_refl).
Defined.

(** ** What a screenshot leaves behind *)

(** X14. With a disk that takes the write, [screenshot] ends in one of
    these ways, whatever the child replies. It raises what the call raised.
    It raises what looking for the content or going through the segments
    raised. For a reply without content or without an image segment it
    returns [Screenshot failed: ...] (or raises [RecursionError] when the
    reply is nested too deep to print). When the [data] of the first image
    segment is not a string it raises [TypeError], and when it does not
    decode it raises the decoder's exception. In all those cases no file is
    changed and nothing is printed. Only when that [data] decodes does it
    write a file: exactly one, the one whose path it returns, with the
    decoded bytes, and it prints [Screenshot saved: ...] with that path. *)
Theorem screenshot_touches_only_the_file_it_returns
    (json_loads : string -> result json) (lim : Limits)
    (b64decode : string -> result (list Byte.byte))
    (name : option string) (full_page : bool) (env : ShotEnv) (s : Session) :
  disk_error env = None ->
  let filepath := path_str (path_join (output_dir s) (shot_name name (now env))) in
  let call := call_tool json_loads "browser_take_screenshot" [("fullPage", JBool full_page)]
                60 (exchange env) s in
  let r := screenshot json_loads lim b64decode name full_page env s in
  let nothing_written := files (snd r) = files s /\ console (snd r) = console s in
  let failed reply := (text <- py_str lim reply;; Ok ("Screenshot failed: " ++ text)) in
  match fst call with
  | Raise e => fst r = Raise e /\ nothing_written
  | Ok reply =>
      match has_content reply with
      | Raise e => fst r = Raise e /\ nothing_written
      | Ok false => fst r = failed reply /\ nothing_written
      | Ok true =>
          match image_data reply with
          | Raise e => fst r = Raise e /\ nothing_written
          | Ok None => fst r = failed reply /\ nothing_written
          | Ok (Some (JStr data)) =>
              match b64decode data with
              | Raise e => fst r = Raise e /\ nothing_written
              | Ok bytes =>
                  fst r = Ok filepath
                  /\ files (snd r) = <[filepath := bytes]> (files s)
                  /\ console (snd r)
                     = (console s ++ [("Screenshot saved: " ++ filepath)%string])%list
              end
          | Ok (Some _) => fst r = Raise TypeError /\ nothing_written
          end
      end
  end.
Proof.
  intros Hdisk filepath call r nothing_written failed.
  unfold nothing_written, r, call, screenshot.
  pose proof (send_request_frame json_loads "tools/call"
                (Some [("name", JStr "browser_take_screenshot");
                       ("arguments", JObj [("fullPage", JBool full_page)])])
                60 (exchange env) s) as Hf.
  cbv zeta in Hf. destruct Hf as (Hfiles & _ & Hcons & _).
  unfold call_tool.
  destruct (_send_request json_loads _ _ _ _ s) as [[reply|e] s1]; cbn [fst snd] in *;
    [|auto].
  unfold shot_reply. fold (image_data reply). fold (failed reply).
  destruct (has_content reply) as [[]|e]; cbn [fst snd]; [| auto | auto].
  destruct (image_data reply) as [[data|]|e]; cbn [fst snd]; [| auto | auto].
  unfold decode_data, write_bytes. rewrite Hdisk.
  destruct data as [| | | | text | |]; cbn [rbind fst snd]; auto.
  destruct (b64decode text) as [bytes|e]; cbn [rbind fst snd]; [|auto].
  simpl. rewrite Hfiles, Hcons. auto.
Qed.

Lemma screenshot_touches_only_the_file_it_returns_witness :
  let shot reply :=
    screenshot Sample.json_loads Sample.limits Sample.b64decode (Some "home") false
      (mkShotEnv "20240131_235959" None (mkSendEnv None [line_of reply])) ready in
  let not_text := JObj [("id", JInt 1);
                        ("result", JObj [("content", JArr [JObj [("type", JStr "image");
                                                                 ("data", JInt 7)]])])] in
  (fst (shot (image_reply 1 "aGk=")) = Ok "/srv/shots/home.png"
   /\ files (snd (shot (image_reply 1 "aGk=")))
      = <["/srv/shots/home.png" := [Byte.x68; Byte.x69]]> (files ready))
  /\ (fst (shot (image_reply 1 "a")) = Raise ValueError
      /\ files (snd (shot (image_reply 1 "a"))) = files ready)
  /\ (fst (shot not_text) = Raise TypeError
      /\ files (snd (shot not_text)) = files ready).
Proof.
  intros shot not_text.
  pose (fact reply :=
          screenshot_touches_only_the_file_it_returns Sample.json_loads Sample.limits
            Sample.b64decode (Some "home") false
            (mkShotEnv "20240131_235959" None (mkSendEnv None [line_of reply])) ready
            eq_refl).
  split; [|split].
  - pose proof (fact (image_reply 1 "aGk=")) as H. cbv zeta in H.
    set (c := call_tool _ _ _ _ _ _) in H.
    assert (Hc : fst c = Ok (image_reply 1 "aGk=")) by (vm_compute; reflexivity).
    rewrite Hc in H. cbn in H. tauto.
  - pose proof (fact (image_reply 1 "a")) as H. cbv zeta in H.
    set (c := call_tool _ _ _ _ _ _) in H.
    assert (Hc : fst c = Ok (image_reply 1 "a")) by (vm_compute; reflexivity).
    rewrite Hc in H. cbn in H. tauto.
  - pose proof (fact not_text) as H. cbv zeta in H.
    set (c := call_tool _ _ _ _ _ _) in H.
    assert (Hc : fst c = Ok not_text) by (vm_compute; reflexivity).
    rewrite Hc in H. cbn in H. tauto.
Defined.

(** X17. The loop of [screenshot] stops at the first segment whose [type]
    is ["image"], whatever comes after it. When that segment has no [data],
    the empty string is decoded in its place: with a decoder that turns the
    empty string into no bytes, as [base64.b64decode] does, an empty file is
    written and its path returned as for any screenshot. When its [data] does
    not decode, the decoder's exception is raised and no file is written,
    even if a later segment holds a good image. *)
Theorem first_image_segment_decides
    (json_loads : string -> result json) (lim : Limits)
    (b64decode : string -> result (list Byte.byte))
    (name : option string) (full_page : bool) (env : ShotEnv) (s s1 : Session)
    (members rmembers : list (string * json)) (before : list json)
    (img : list (string * json)) (after : list json) :
  call_tool json_loads "browser_take_screenshot" [("fullPage", JBool full_page)] 60
    (exchange env) s = (Ok (JObj members), s1) ->
  assoc "result" members = Some (JObj rmembers) ->
  assoc "content" rmembers = Some (JArr (before ++ JObj img :: after)%list) ->
  Forall not_image before ->
  assoc "type" img = Some (JStr "image") ->
  disk_error env = None ->
  let filepath := path_str (path_join (output_dir s) (shot_name name (now env))) in
  let r := screenshot json_loads lim b64decode name full_page env s in
  (assoc "data" img = None -> b64decode "" = Ok [] ->
   fst r = Ok filepath /\ files (snd r) = <[filepath := []]> (files s))
  /\ (forall data e,
        assoc "data" img = Some (JStr data) -> b64decode data = Raise e ->
        fst r = Raise e /\ files (snd r) = files s).
Proof.
  intros Hcall Hr Hc Hb Hty Hdisk filepath r.
  destruct (screenshot_of_reply json_loads lim b64decode name full_page env s _ s1 Hcall)
    as [Hshot Hfiles].
  assert (Hreply : forall failure,
            shot_reply lim b64decode (path_join (output_dir s) (shot_name name (now env)))
              (JObj members) failure s1
            = match (img <- decode_data b64decode (default (JStr "") (assoc "data" img));;
                     write_bytes (path_join (output_dir s) (shot_name name (now env)))
                       img failure s1) with
              | Raise e => (Raise e, s1)
              | Ok s2 =>
                  (Ok filepath, print ("Screenshot saved: " ++ filepath) s2)
              end).
  { intros failure. unfold shot_reply.
    rewrite (has_content_list members rmembers _ Hr Hc).
    cbn [py_getitem rbind]. rewrite Hr. cbn [py_getitem rbind]. rewrite Hc.
    cbn [rbind py_iter]. rewrite (first_image_found before img after Hb Hty).
    reflexivity. }
  unfold r. rewrite Hshot, Hreply, Hdisk. split.
  - intros Hdata Hempty. rewrite Hdata. cbn [default from_option id decode_data rbind].
    rewrite Hempty. simpl. rewrite Hfiles. split; reflexivity.
  - intros data e Hdata Hbad. rewrite Hdata. cbn [default from_option id decode_data rbind].
    rewrite Hbad. simpl. split; [reflexivity | exact Hfiles].
Qed.

Lemma first_image_segment_decides_witness :
  let shot reply :=
    screenshot Sample.json_loads Sample.limits Sample.b64decode None false
      (mkShotEnv "20240131_235959" None (mkSendEnv None [line_of reply])) ready in
  let bad_then_good :=
    JObj [("id", JInt 1);
          ("result", JObj [("content", JArr [JObj [("type", JStr "text"); ("text", JStr "ok")];
                                              JObj [("type", JStr "image"); ("data", JStr "a")];
                                              JObj [("type", JStr "image");
                                                    ("data", JStr "aGk=")]])])] in
  let no_data :=
    JObj [("id", JInt 1);
          ("result", JObj [("content", JArr [JObj [("type", JStr "image")]])])] in
  Sample.b64decode "a" = Raise ValueError
  /\ Sample.b64decode "" = Ok []
  /\ (fst (shot bad_then_good) = Raise ValueError
      /\ files (snd (shot bad_then_good)) = files ready)
  /\ (fst (shot no_data) = Ok "/srv/shots/20240131_235959.png"
      /\ files (snd (shot no_data))
         = <["/srv/shots/20240131_235959.png" := []]> (files ready)).
Proof.
  intros shot bad_then_good no_data.
  assert (Hbad : Sample.b64decode "a" = Raise ValueError) by reflexivity.
  assert (Hempty : Sample.b64decode "" = Ok []) by reflexivity.
  split; [exact Hbad|]. split; [exact Hempty|].
  pose (call reply :=
          call_tool Sample.json_loads "browser_take_screenshot" [("fullPage", JBool false)] 60
            (mkSendEnv None [line_of reply]) ready).
  assert (Hcall1 : call bad_then_good = (Ok bad_then_good, snd (call bad_then_good)))
    by (vm_compute; reflexivity).
  assert (Hcall2 : call no_data = (Ok no_data, snd (call no_data)))
    by (vm_compute; reflexivity).
  split.
  - refine (proj2 (first_image_segment_decides Sample.json_loads Sample.limits Sample.b64decode None false
                     (mkShotEnv "20240131_235959" None (mkSendEnv None [line_of bad_then_good]))
                     ready (snd (call bad_then_good)) _ _
                     [JObj [("type", JStr "text"); ("text", JStr "ok")]]
                     [("type", JStr "image"); ("data", JStr "a")]
                     [JObj [("type", JStr "image"); ("data", JStr "aGk=")]]
                     Hcall1 eq_refl eq_refl _ eq_refl eq_refl) "a" ValueError eq_refl Hbad).
    constructor; [|constructor].
    eexists. split; [reflexivity | discriminate].
  - exact (proj1 (first_image_segment_decides Sample.json_loads Sample.limits Sample.b64decode None false
                    (mkShotEnv "20240131_235959" None (mkSendEnv None [line_of no_data]))
                    ready (snd (call no_data)) _ _ [] [("type", JStr "image")] []
                    Hcall2 eq_refl eq_refl ltac:(constructor) eq_refl eq_refl)
             eq_refl Hempty).
Defined.

(** ** Stopping, and stopping again *)



(** ** What a text operation can raise *)

Lemma collect_texts_raises items e :
  collect_texts items = Raise e -> e = AttributeError.
Proof.
  induction items as [|item rest IH]; [discriminate|]. simpl.
  destruct item as [| | | | | |fields]; simpl; try (intros H; inversion H; reflexivity).
  destruct (is_str "text" _); [|exact IH].
  destruct (collect_texts rest) as [texts|e']; simpl; [discriminate|].
  intros H; inversion H; subst. apply IH. reflexivity.
Qed.

Lemma py_join_raises sep texts e : py_join sep texts = Raise e -> e = TypeError.
Proof.
  unfold py_join.
  assert (H : forall texts, all_str texts = Raise e -> e = TypeError).
  { clear. induction texts as [|t rest IH]; [discriminate|]. simpl.
    destruct t; try (intros H; inversion H; reflexivity).
    destruct (all_str rest) as [ss|e']; simpl; [discriminate|].
    intros H; inversion H; subst. apply IH. reflexivity. }
  destruct (all_str texts) as [ss|e'] eqn:Hall; simpl; [discriminate|].
  intros Hr; inversion Hr; subst. exact (H texts Hall).
Qed.

(** On a reply that is an object, [_extract_text] raises [TypeError] or
    [AttributeError] for a result of another shape than the loop expects,
    and [RecursionError] when what it has to print, the [error] or the whole
    reply, is nested too deep; nothing else. *)
Lemma extract_text_raises lim members e :
  _extract_text lim (JObj members) = Raise e ->
  match assoc "error" members with
  | Some err => e = RecursionError /\ py_str lim err = Raise RecursionError
  | None =>
      e = TypeError \/ e = AttributeError
      \/ (e = RecursionError /\ has_content (JObj members) = Ok false
          /\ can_dump lim (JObj members) = false)
  end.
Proof.
  unfold _extract_text. rewrite contains_member.
  destruct (assoc "error" members) as [err|] eqn:Herr.
  { rewrite bool_decide_eq_true_2 by eauto. cbn [rbind py_getitem]. rewrite Herr.
    cbn [rbind]. destruct (py_str lim err) as [text|e1] eqn:Hstr; cbn [rbind]; [discriminate|].
    intros H; inversion H; subst. pose proof (py_str_raises _ _ _ Hstr) as ->. auto. }
  rewrite bool_decide_eq_false_2 by (intros [? ?]; discriminate). cbn [rbind].
  destruct (has_content (JObj members)) as [[]|e1] eqn:Hcontent; cbn [rbind].
  - rewrite has_content_members in Hcontent.
    destruct (assoc "result" members) as [r|] eqn:Hr; [|discriminate].
    cbn [py_getitem]. rewrite Hr. cbn [rbind].
    destruct r as [| | | | t | items | rmembers]; cbn [py_contains] in Hcontent;
      try discriminate; cbn [py_getitem rbind];
      try (intros H; inversion H; auto; fail).
    destruct (assoc "content" rmembers) as [c|] eqn:Hc;
      [|rewrite bool_decide_eq_false_2 in Hcontent by (intros [? ?]; discriminate);
        discriminate].
    cbn [rbind].
    destruct (py_iter c) as [its|e2] eqn:Hit; cbn [rbind].
    + destruct (collect_texts its) as [texts|e3] eqn:Hct; cbn [rbind].
      * intros H. left. exact (py_join_raises _ _ _ H).
      * intros H; inversion H; subst. right. left. exact (collect_texts_raises _ _ Hct).
    + intros H; inversion H; subst. destruct c; simpl in Hit; inversion Hit; auto.
  - unfold json_dumps_indent. destruct (can_dump lim (JObj members)) eqn:Hroom; [discriminate|].
    intros H; inversion H; subst. auto.
  - intros H; inversion H; subst. rewrite has_content_members in Hcontent.
    destruct (assoc "result" members) as [r|]; [|discriminate].
    destruct r; simpl in Hcontent; inversion Hcontent; auto.
Qed.

(** X16. The exceptions of [navigate], [snapshot], [click], [type_text],
    [evaluate] and [resize], all of them: [RuntimeError] when the session is
    not started or the write fails, [TimeoutError] after 60 seconds without
    a reply, [TypeError] or [AttributeError] when the reply has no [error]
    and its [result] is not of the shape the loop expects, and
    [RecursionError] when the [error] of the reply, or a reply with neither
    [error] nor content, is nested deeper than the interpreter can print. *)
Theorem text_operations_raise_only
    (json_loads : string -> result json) (lim : Limits) (op : text_operation)
    (env : SendEnv) (s : Session) (e : exn) :
  consistent s ->
  fst (perform json_loads lim op env s) = Raise e ->
  (started s = false /\ e = RuntimeError "Server not started")
  \/ (exists text, write_error env = Some text
                   /\ e = RuntimeError ("Send failed: " ++ text))
  \/ e = TimeoutError "Request timed out after 60s"
  \/ (exists members,
        fst (tool_call json_loads op env s) = Ok (JObj members)
        /\ match assoc "error" members with
           | Some err => e = RecursionError /\ py_str lim err = Raise RecursionError
           | None =>
               e = TypeError \/ e = AttributeError
               \/ (e = RecursionError /\ has_content (JObj members) = Ok false
                   /\ can_dump lim (JObj members) = false)
           end).
Proof.
  intros Hc. rewrite perform_tool_call. unfold tool_call, call_tool.
  destruct (started s) eqn:Hs.
  - pose proof (send_request_outcomes json_loads "tools/call"
                  (Some [("name", JStr (tool_name op));
                         ("arguments", JObj (tool_arguments op))])
                  60 env s Hs Hc ltac:(lia)) as Hout.
    destruct (_send_request json_loads _ _ _ _ s) as [[reply|e1] s']; simpl in *.
    + destruct Hout as (_ & members & v & -> & _). intros H.
      right. right. right. exists members. split; [reflexivity|].
      exact (extract_text_raises lim members e H).
    + intros H; inversion H; subst.
      destruct Hout as [(text & Hw & ->) | [_ ->]]; [right; left; eauto|].
      right. right. left. reflexivity.
  - unfold _send_request. rewrite (send_prepare_not_started s Hs). simpl.
    intros H; inversion H; subst. left. split; reflexivity.
Qed.

Lemma text_operations_raise_only_witness :
  let reply := JObj [("id", JInt 1); ("result", JObj [("content", JStr "done")])] in
  consistent ready
  /\ fst (perform Sample.json_loads Sample.limits Snapshot (mkSendEnv None [line_of reply])
            ready) = Raise AttributeError
  /\ fst (perform Sample.json_loads Sample.limits Snapshot
            (mkSendEnv None [line_of deep_error_reply]) ready) = Raise RecursionError
  /\ exists members,
       fst (tool_call Sample.json_loads Snapshot (mkSendEnv None [line_of reply]) ready)
       = Ok (JObj members).
Proof.
  intros reply.
  assert (Hc : consistent ready) by (apply nothing_pending_consistent; reflexivity).
  assert (Hr : fst (perform Sample.json_loads Sample.limits Snapshot
                      (mkSendEnv None [line_of reply]) ready) = Raise AttributeError)
    by (vm_compute; reflexivity).
  split; [exact Hc|]. split; [exact Hr|]. split; [vm_compute; reflexivity|].
  destruct (text_operations_raise_only Sample.json_loads Sample.limits Snapshot
              (mkSendEnv None [line_of reply]) ready AttributeError Hc Hr)
    as [[H _] | [(text & H & _) | [H | (members & Hcall & _)]]];
    try discriminate.
  exists members. exact Hcall.
Defined.
